(** * vAttention CUDA paging core: [cudaInternal.h]

    A shallow embedding of the on-demand paging engine of
    [vattention/cudaInternal.h]: device initialisation, the physical page
    pool, the page map with its lock-protected binder, and the three-phase
    cleanup.

    The CUDA driver is external to the repository.  It is modelled as an
    oracle [driver] that answers each driver call from the history of
    everything the process has done so far; the theorems below quantify over
    it, so they hold for every behaviour of the driver they do not exclude
    by a hypothesis.
    The process-wide globals of [utils.h] ([ctx], [prop], [accessDesc],
    [page_size], [cuda_pages], [cuda_pagemap], the tensor vectors) are the
    fields of one [world] record that is threaded through every operation. *)

From stdpp Require Import gmap list.

From Stdlib Require Import ZArith Lia.

From Equations Require Import Equations.

Local Open Scope Z_scope.

(** ** Machine integers *)

(** [u64] values are integers in [[0, 2^64)]; [int] values are integers in
    [[-2^31, 2^31)].  Arithmetic on [u64] wraps. *)
Definition u64_mod : Z := 2 ^ 64.

Definition is_int (z : Z) : Prop := - 2 ^ 31 <= z < 2 ^ 31.

(** Conversion of a signed value to [u64]/[size_t] (as in the comparison
    [layer_idx < k_tensors.size()]). *)
Definition to_u64 (z : Z) : Z := z mod u64_mod.

(** [a + b] on [CUdeviceptr]/[u64]. *)
Definition u64_add (a b : Z) : Z := (a + b) mod u64_mod.

(** ** CUDA driver interface *)

(** Enumerators of [cuda.h] used by the source. *)
Definition CUDA_SUCCESS : Z := 0.

Definition CU_MEM_ALLOCATION_TYPE_PINNED : Z := 1.

Definition CU_MEM_LOCATION_TYPE_DEVICE : Z := 1.

Definition CU_MEM_ACCESS_FLAGS_PROT_READWRITE : Z := 3.

Definition CU_MEM_ALLOC_GRANULARITY_MINIMUM : Z := 0.

(** [CUmemAllocationProp]: the fields the source writes; every other field
    is zeroed by the [memset] and never touched again. *)
Record CUmemAllocationProp := mkProp {
  prop_type : Z;
  prop_location_type : Z;
  prop_location_id : Z
}.

(** [CUmemAccessDesc]. *)
Record CUmemAccessDesc := mkAccessDesc {
  desc_location_type : Z;
  desc_location_id : Z;
  desc_flags : Z
}.

(** The result of [memset(&x, 0, sizeof(x))]. *)
Definition zero_prop : CUmemAllocationProp := mkProp 0 0 0.

Definition zero_accessDesc : CUmemAccessDesc := mkAccessDesc 0 0 0.

(** One constructor per driver entry point called by the source, with the
    arguments passed by value.  Output parameters come back in the reply.
    [cuGetErrorString] is a pure table lookup used only to format
    diagnostics and is not traced. *)
Inductive call : Type :=
| cuInit (flags : Z)
| cuCtxGetCurrent
| cuMemGetAllocationGranularity (p : CUmemAllocationProp) (option : Z)
| cuMemCreate (size : Z) (p : CUmemAllocationProp) (flags : Z)
| cuMemMap (ptr size offset handle flags : Z)
| cuMemSetAccess (ptr size : Z) (desc : CUmemAccessDesc) (count : Z)
| cuMemUnmap (ptr size : Z)
| cuMemAddressFree (ptr size : Z)
| cuMemRelease (handle : Z).

(** What a driver call gives back: the [CUresult] and the value written
    through the output pointer, if the call has one. *)
Record reply := mkReply { res : Z; out : Z }.

(** ** Diagnostics *)

(** The messages written to [std::cerr], one constructor per message, with
    the values the message prints. *)
Inductive diag : Type :=
| DiagCheckCuda (c : call) (r : Z)          (* CHECK_CUDA: "<x> failed (<res>): ..." *)
| DiagNoContext                             (* "No CUDA context found." *)
| DiagGranularityMismatch (expected got : Z)
| DiagMisaligned (req_offset page_size : Z) (* "req_offset ... is not aligned to page_size ..." *)
| DiagInvalidHandle (k_page v_page : Z)     (* "Invalid memory handle" *)
| DiagInvalidPointers                       (* "Invalid virtual address pointers" *)
| DiagAccessDesc                            (* "Access descriptor not properly initialized" *)
| DiagMapFailedK (r addr : Z)               (* "cuMemMap failed for k_page" *)
| DiagMapFailedV (r addr : Z)               (* "cuMemMap failed for v_page" *)
| WarnUnmap                                 (* "Warning: Failed to unmap some pages during cleanup" *)
| WarnFreeK                                 (* "Warning: Failed to free k virtual address space" *)
| WarnFreeV                                 (* "Warning: Failed to free v virtual address space" *)
| WarnRelease (i r : Z).                    (* "Warning: Failed to release page handle <i>" *)

Definition is_warning (d : diag) : bool :=
  match d with
  | WarnUnmap | WarnFreeK | WarnFreeV | WarnRelease _ _ => true
  | _ => false
  end.

(** ** Observable behaviour *)

(** Key of the page map: [std::make_tuple(reqId, req_offset, layer_idx)];
    value: [std::make_pair(k_page, v_page)]. *)
Definition mapping_key : Type := Z * Z * Z.

Definition page_pair : Type := Z * Z.

(** Everything the process does that the statements below talk about, in
    program order: driver calls with their replies, lines on [std::cerr], lines
    given to [Log], and the two writes to [cuda_pagemap]. *)
Inductive event : Type :=
| EvCall (c : call) (r : reply)
| EvStderr (d : diag)
| EvLog (num_phys_blocks page_size : Z)     (* "Reserving <n> pages of size <s> ..." *)
| EvRecord (k : mapping_key) (p : page_pair)
| EvClear.

(** ** Process state *)

(** Modelled from the spec: the process-wide globals, whose declarations
    ([utils.h]) are not among the sources.  The pool is a growing collection
    of page handles and the mapping table an associative store from the key
    to the pair of pages; the types of the other globals are read off their
    uses in [cudaInternal.h].  The last field is the history of the
    process. *)
Record world := mkWorld {
  ctx : Z;                                  (* CUcontext, 0 is NULL *)
  prop : CUmemAllocationProp;
  accessDesc : CUmemAccessDesc;
  page_size : Z;
  virt_buff_size : Z;
  k_tensors : list Z;                       (* data_ptr() of each layer's key tensor *)
  v_tensors : list Z;                       (* data_ptr() of each layer's value tensor *)
  cuda_pages : list Z;                      (* std::vector of page handles *)
  cuda_pagemap : gmap (Z * Z * Z) (Z * Z);
  trace : list event
}.

Definition set_ctx (c : Z) (w : world) : world :=
  mkWorld c (prop w) (accessDesc w) (page_size w) (virt_buff_size w)
          (k_tensors w) (v_tensors w) (cuda_pages w) (cuda_pagemap w) (trace w).

Definition set_prop (p : CUmemAllocationProp) (w : world) : world :=
  mkWorld (ctx w) p (accessDesc w) (page_size w) (virt_buff_size w)
          (k_tensors w) (v_tensors w) (cuda_pages w) (cuda_pagemap w) (trace w).

Definition set_accessDesc (d : CUmemAccessDesc) (w : world) : world :=
  mkWorld (ctx w) (prop w) d (page_size w) (virt_buff_size w)
          (k_tensors w) (v_tensors w) (cuda_pages w) (cuda_pagemap w) (trace w).

Definition set_cuda_pages (l : list Z) (w : world) : world :=
  mkWorld (ctx w) (prop w) (accessDesc w) (page_size w) (virt_buff_size w)
          (k_tensors w) (v_tensors w) l (cuda_pagemap w) (trace w).

Definition set_cuda_pagemap (m : gmap (Z * Z * Z) (Z * Z)) (w : world) : world :=
  mkWorld (ctx w) (prop w) (accessDesc w) (page_size w) (virt_buff_size w)
          (k_tensors w) (v_tensors w) (cuda_pages w) m (trace w).

Definition set_trace (t : list event) (w : world) : world :=
  mkWorld (ctx w) (prop w) (accessDesc w) (page_size w) (virt_buff_size w)
          (k_tensors w) (v_tensors w) (cuda_pages w) (cuda_pagemap w) t.

(** Append events to the history. *)
Definition emits (es : list event) (w : world) : world :=
  set_trace (trace w ++ es) w.

Definition emit (e : event) (w : world) : world := emits [e] w.

(** ** The monad of operations *)

(** An operation either returns to its caller, or ends the process with
    [exit(status)], or has undefined behaviour in C++ (division by zero,
    out-of-range [operator[]]). *)
Inductive outcome (A : Type) : Type :=
| Ret (a : A) (w : world)
| Exit (status : Z) (w : world)
| Undefined.

Arguments Ret {A} a w.

Arguments Exit {A} status w.

Arguments Undefined {A}.

Definition M (A : Type) : Type := world -> outcome A.

Definition ret {A} (a : A) : M A := fun w => Ret a w.

Definition bind {A B} (m : M A) (k : A -> M B) : M B :=
  fun w =>
    match m w with
    | Ret a w' => k a w'
    | Exit s w' => Exit s w'
    | Undefined => Undefined
    end.

Notation "x <- m ;; k" := (bind m (fun x => k))
  (at level 100, m at next level, k at level 200, right associativity).

Notation "m ;;; k" := (bind m (fun _ => k))
  (at level 100, k at level 200, right associativity).

Definition exit {A} (status : Z) : M A := fun w => Exit status w.

Definition undefined {A} : M A := fun _ => Undefined.

Definition get {A} (f : world -> A) : M A := fun w => Ret (f w) w.

Definition modify (f : world -> world) : M unit := fun w => Ret tt (f w).

Definition cerr (d : diag) : M unit := modify (emit (EvStderr d)).

(** [v[i]] on a [std::vector]: undefined out of range. *)
Definition vec_at (f : world -> list Z) (i : Z) : M Z :=
  fun w =>
    if (0 <=? i) && (i <? Z.of_nat (length (f w)))
    then match f w !! Z.to_nat i with
         | Some x => Ret x w
         | None => Undefined
         end
    else Undefined.

(** [a % b] on [u64]: undefined when [b] is zero. *)
Definition u64_rem (a b : Z) : M Z :=
  if b =? 0 then undefined else ret (a mod b).

(** [for (x : xs) body(x)]. *)
Fixpoint for_each {A} (body : A -> M unit) (xs : list A) : M unit :=
  match xs with
  | [] => ret tt
  | x :: xs' => body x ;;; for_each body xs'
  end.

(** The indices [0, 1, ..., n-1] of [for (int i = 0; i < v.size(); i++)];
    the loop bodies of the source never change the size of the vector they
    range over. *)
Definition indices (l : list Z) : list Z := seqZ 0 (Z.of_nat (length l)).

(** ** The operations of [cudaInternal.h] *)

Section Operations.

(** The CUDA driver: the reply to a call, given the history so far. *)
Variable driver : list event -> call -> reply.

(** Functions of the repository that [cudaInternal.h] calls but that live
    in other files: the sizing policy, the backend selection policy and
    the managed-memory backend. *)
Variable get_num_phys_blocks : Z -> Z -> Z -> Z.

Variable is_uvm_backend : Z -> bool.

Variable do_cuda_uvm_init : Z -> Z -> M Z.

Variable reserve_uvm_pages : Z -> Z -> Z -> M Z.

(** Issue one driver call and record it with its reply. *)
Definition driver_call (c : call) : M reply :=
  fun w => let r := driver (trace w) c in Ret r (emit (EvCall c r) w).

(** The [CHECK_CUDA] macro: on any result other than [CUDA_SUCCESS],
    print the failing expression and [exit(1)]. *)
Definition CHECK_CUDA (c : call) : M reply :=
  r <- driver_call c ;;
  if negb (res r =? CUDA_SUCCESS)
  then cerr (DiagCheckCuda c (res r)) ;;; exit 1
  else ret r.

(** [u64 do_cuda_default_init(int device, u64 page_size)] *)
Definition do_cuda_default_init (device page_size : Z) : M Z :=
  CHECK_CUDA (cuInit 0) ;;;
  c <- CHECK_CUDA cuCtxGetCurrent ;;
  modify (set_ctx (out c)) ;;;
  if out c =? 0
  then cerr DiagNoContext ;;; exit 1
  else
    modify (set_prop zero_prop) ;;;
    modify (set_accessDesc zero_accessDesc) ;;;
    modify (set_prop (mkProp CU_MEM_ALLOCATION_TYPE_PINNED
                             CU_MEM_LOCATION_TYPE_DEVICE device)) ;;;
    modify (set_accessDesc (mkAccessDesc CU_MEM_LOCATION_TYPE_DEVICE device
                                         CU_MEM_ACCESS_FLAGS_PROT_READWRITE)) ;;;
    p <- get prop ;;
    g <- CHECK_CUDA (cuMemGetAllocationGranularity p CU_MEM_ALLOC_GRANULARITY_MINIMUM) ;;
    let phys_granularity := out g in
    if negb (phys_granularity =? page_size)
    then cerr (DiagGranularityMismatch page_size phys_granularity) ;;; exit 1
    else ret phys_granularity.

(** [u64 do_cuda_init(int device, u64 page_size)] *)
Definition do_cuda_init (device page_size : Z) : M Z :=
  if is_uvm_backend page_size
  then do_cuda_uvm_init device page_size
  else do_cuda_default_init device page_size.

(** The [while (cuda_pages.size() < num_phys_blocks)] loop of
    [reserve_cuda_pages].  Each iteration either ends the process or makes
    the pool one page longer, so the distance to the target decreases. *)
Equations? reserve_loop (num_phys_blocks page_size : Z) (w : world) : outcome unit
  by wf (Z.to_nat (num_phys_blocks - Z.of_nat (length (cuda_pages w)))) lt :=
reserve_loop num_phys_blocks page_size w
  with Logic.inspect (Z.of_nat (length (cuda_pages w)) <? num_phys_blocks) := {
  | exist _ false _ => Ret tt w
  | exist _ true Hlt
      with Logic.inspect (CHECK_CUDA (cuMemCreate page_size (prop w) 0) w) := {
      | exist _ (Ret cuda_page w') Hcreate =>
          reserve_loop num_phys_blocks page_size
                       (set_cuda_pages (cuda_pages w' ++ [out cuda_page]) w')
      | exist _ (Exit s w') _ => Exit s w'
      | exist _ Undefined _ => Undefined } }.
Proof.
  unfold CHECK_CUDA, bind, driver_call, cerr, modify, exit, ret in Hcreate.
  destruct (negb _) in Hcreate; [discriminate|]. injection Hcreate as _ <-.
  simpl. rewrite length_app. simpl. apply Z.ltb_lt in Hlt. lia.
Qed.

(** [u64 reserve_cuda_pages(u64 num_layers, u64 free_memory, u64 page_size)] *)
Definition reserve_cuda_pages (num_layers free_memory page_size : Z) : M Z :=
  let num_phys_blocks := get_num_phys_blocks num_layers free_memory page_size in
  modify (emit (EvLog num_phys_blocks page_size)) ;;;
  reserve_loop num_phys_blocks page_size ;;;
  pages <- get cuda_pages ;;
  ret (Z.of_nat (length pages)).

(** [u64 reserve_gpu_pages(u64 num_layers, u64 free_memory, u64 page_size)] *)
Definition reserve_gpu_pages (num_layers free_memory page_size : Z) : M Z :=
  if is_uvm_backend page_size
  then reserve_uvm_pages num_layers free_memory page_size
  else reserve_cuda_pages num_layers free_memory page_size.

(** [cuda_pagemap[key] = pair] *)
Definition record_mapping (k : mapping_key) (p : page_pair) : M unit :=
  modify (fun w => emit (EvRecord k p) (set_cuda_pagemap (<[k := p]> (cuda_pagemap w)) w)).

(** The body of [map_cuda_pages], that is everything the function does
    while it holds [memory_mapping_mutex] (the [std::lock_guard] of its
    first line is modelled in Section [Threads] below).  The argument
    order is that of the source. *)
Definition map_cuda_pages
           (reqId layer_idx req_offset kcache_ptr vcache_ptr k_page v_page : Z) : M unit :=
  page_size <- get page_size ;;
  rem <- u64_rem req_offset page_size ;;
  if negb (rem =? 0)
  then cerr (DiagMisaligned req_offset page_size) ;;; exit 1
  else
  if (k_page =? 0) || (v_page =? 0)
  then cerr (DiagInvalidHandle k_page v_page) ;;; exit 1
  else
  if (kcache_ptr =? 0) || (vcache_ptr =? 0)
  then cerr DiagInvalidPointers ;;; exit 1
  else
  accessDesc <- get accessDesc ;;
  if negb (desc_location_type accessDesc =? CU_MEM_LOCATION_TYPE_DEVICE)
     || negb (desc_flags accessDesc =? CU_MEM_ACCESS_FLAGS_PROT_READWRITE)
  then cerr DiagAccessDesc ;;; exit 1
  else
  let mapping_key := (reqId, req_offset, layer_idx) in
  pagemap <- get cuda_pagemap ;;
  match pagemap !! mapping_key with
  | Some _ => ret tt
  | None =>
      map_result_k <- driver_call (cuMemMap (u64_add kcache_ptr req_offset) page_size 0 k_page 0) ;;
      if negb (res map_result_k =? CUDA_SUCCESS)
      then cerr (DiagMapFailedK (res map_result_k) (u64_add kcache_ptr req_offset)) ;;; exit 1
      else
      map_result_v <- driver_call (cuMemMap (u64_add vcache_ptr req_offset) page_size 0 v_page 0) ;;
      if negb (res map_result_v =? CUDA_SUCCESS)
      then cerr (DiagMapFailedV (res map_result_v) (u64_add vcache_ptr req_offset)) ;;; exit 1
      else
      CHECK_CUDA (cuMemSetAccess (u64_add kcache_ptr req_offset) page_size accessDesc 1) ;;;
      CHECK_CUDA (cuMemSetAccess (u64_add vcache_ptr req_offset) page_size accessDesc 1) ;;;
      record_mapping mapping_key (k_page, v_page)
  end.

(** One iteration of the first loop of [do_cuda_kvcache_cleanup].  The
    comparison [layer_idx < k_tensors.size()] converts the signed index to
    [size_t], and so does the subscript. *)
Definition unmap_entry (mapping : mapping_key * page_pair) : M unit :=
  let '((reqId, req_offset, layer_idx), (k_page, v_page)) := mapping in
  k_tensors_ <- get k_tensors ;;
  if to_u64 layer_idx <? Z.of_nat (length k_tensors_)
  then
    kcache_ptr <- vec_at k_tensors (to_u64 layer_idx) ;;
    vcache_ptr <- vec_at v_tensors (to_u64 layer_idx) ;;
    if negb (kcache_ptr =? 0) && negb (vcache_ptr =? 0)
    then
      page_size <- get page_size ;;
      result_k <- driver_call (cuMemUnmap (u64_add kcache_ptr req_offset) page_size) ;;
      result_v <- driver_call (cuMemUnmap (u64_add vcache_ptr req_offset) page_size) ;;
      if negb (res result_k =? CUDA_SUCCESS) || negb (res result_v =? CUDA_SUCCESS)
      then cerr WarnUnmap
      else ret tt
    else ret tt
  else ret tt.

(** One iteration of the second loop. *)
Definition free_layer (i : Z) : M unit :=
  k_ptr <- vec_at k_tensors i ;;
  v_ptr <- vec_at v_tensors i ;;
  virt_buff_size <- get virt_buff_size ;;
  (if negb (k_ptr =? 0)
   then result <- driver_call (cuMemAddressFree k_ptr virt_buff_size) ;;
        if negb (res result =? CUDA_SUCCESS) then cerr WarnFreeK else ret tt
   else ret tt) ;;;
  (if negb (v_ptr =? 0)
   then result <- driver_call (cuMemAddressFree v_ptr virt_buff_size) ;;
        if negb (res result =? CUDA_SUCCESS) then cerr WarnFreeV else ret tt
   else ret tt).

(** One iteration of the third loop. *)
Definition release_page (i : Z) : M unit :=
  cuda_page <- vec_at cuda_pages i ;;
  result <- driver_call (cuMemRelease cuda_page) ;;
  if negb (res result =? CUDA_SUCCESS)
  then cerr (WarnRelease i (res result))
  else ret tt.

(** The three phases of [do_cuda_kvcache_cleanup].  The first loop ranges
    over the page map in the iteration order of the container. *)
Definition unmap_phase : M unit :=
  pagemap <- get cuda_pagemap ;;
  for_each unmap_entry (map_to_list pagemap) ;;;
  modify (fun w => emit EvClear (set_cuda_pagemap ∅ w)).

Definition free_phase : M unit :=
  k_tensors_ <- get k_tensors ;;
  for_each free_layer (indices k_tensors_).

Definition release_phase : M unit :=
  pages <- get cuda_pages ;;
  for_each release_page (indices pages).

(** [void do_cuda_kvcache_cleanup()] *)
Definition do_cuda_kvcache_cleanup : M unit :=
  unmap_phase ;;; free_phase ;;; release_phase.

End Operations.

(** ** Concurrent callers of [map_cuda_pages] *)

(** Worker threads call [map_cuda_pages] concurrently.  The first statement
    of the function constructs a [std::lock_guard] on the global
    [memory_mapping_mutex]: it blocks until the mutex is free and holds it
    until the function returns.  The threads are modelled as a step
    relation: a step is one statement of one thread, and an interleaving is
    any sequence of steps in which every thread that steps is able to. *)

(** The arguments of one call. *)
Record map_args := mkArgs {
  arg_reqId : Z;
  arg_layer_idx : Z;
  arg_req_offset : Z;
  arg_kcache_ptr : Z;
  arg_vcache_ptr : Z;
  arg_k_page : Z;
  arg_v_page : Z
}.

Definition key_of (a : map_args) : mapping_key :=
  (arg_reqId a, arg_req_offset a, arg_layer_idx a).

Definition pages_of (a : map_args) : page_pair := (arg_k_page a, arg_v_page a).

(** The statements of the function body between the construction of the
    [std::lock_guard] and the return, as the steps at which the scheduler
    may switch threads. *)
Inductive stmt : Type :=
| Checks          (* the four validations *)
| Lookup          (* [cuda_pagemap.find(mapping_key)] *)
| MapK            (* [cuMemMap] of the key page, and its test *)
| MapV            (* [cuMemMap] of the value page, and its test *)
| AccessK         (* [CHECK_CUDA(cuMemSetAccess(kcache_ptr + req_offset, ...))] *)
| AccessV         (* [CHECK_CUDA(cuMemSetAccess(vcache_ptr + req_offset, ...))] *)
| Record_.        (* [cuda_pagemap[...] = ...] *)

Definition body : list stmt := [Checks; Lookup; MapK; MapV; AccessK; AccessV; Record_].

(** Where a thread is: before the lock, inside the function with the lock
    held and some statements still to run (none: about to return, which
    destroys the guard and unlocks), or back from the call. *)
Inductive tstate : Type :=
| Waiting
| Holding (todo : list stmt)
| Finished.

Definition is_holding (s : tstate) : bool :=
  match s with Holding _ => true | _ => false end.

Definition is_finished (s : tstate) : bool :=
  match s with Finished => true | _ => false end.

(** The process: the shared globals, the mutex, and every thread with the
    arguments of its call. *)
Record config := mkConfig {
  shared : world;
  memory_mapping_mutex : bool;
  threads : list (map_args * tstate)
}.

(** The process is running, or has ended by [exit], or has run into
    undefined behaviour. *)
Inductive machine : Type :=
| Running (c : config)
| Exited (status : Z) (w : world)
| Broken.

Definition spawn (w : world) (calls : list map_args) : config :=
  mkConfig w false ((fun a => (a, Waiting)) <$> calls).

(** The calls of the threads that are not yet back. *)
Definition pending (ts : list (map_args * tstate)) : list map_args :=
  omap (fun t => if is_finished t.2 then None else Some t.1) ts.

Definition all_finished (c : config) : Prop :=
  Forall (fun t => is_finished t.2 = true) (threads c).

Section Threads.

Variable driver : list event -> call -> reply.

(** One statement of the body, run by the thread that holds the lock.  The
    result says whether the function goes on to its next statement ([true])
    or returns ([false]). *)
Definition exec_stmt (a : map_args) (s : stmt) : M bool :=
  let kaddr := u64_add (arg_kcache_ptr a) (arg_req_offset a) in
  let vaddr := u64_add (arg_vcache_ptr a) (arg_req_offset a) in
  match s with
  | Checks =>
      page_size <- get page_size ;;
      rem <- u64_rem (arg_req_offset a) page_size ;;
      if negb (rem =? 0)
      then cerr (DiagMisaligned (arg_req_offset a) page_size) ;;; exit 1
      else
      if (arg_k_page a =? 0) || (arg_v_page a =? 0)
      then cerr (DiagInvalidHandle (arg_k_page a) (arg_v_page a)) ;;; exit 1
      else
      if (arg_kcache_ptr a =? 0) || (arg_vcache_ptr a =? 0)
      then cerr DiagInvalidPointers ;;; exit 1
      else
      accessDesc <- get accessDesc ;;
      if negb (desc_location_type accessDesc =? CU_MEM_LOCATION_TYPE_DEVICE)
         || negb (desc_flags accessDesc =? CU_MEM_ACCESS_FLAGS_PROT_READWRITE)
      then cerr DiagAccessDesc ;;; exit 1
      else ret true
  | Lookup =>
      pagemap <- get cuda_pagemap ;;
      match pagemap !! key_of a with
      | Some _ => ret false
      | None => ret true
      end
  | MapK =>
      page_size <- get page_size ;;
      map_result_k <- driver_call driver (cuMemMap kaddr page_size 0 (arg_k_page a) 0) ;;
      if negb (res map_result_k =? CUDA_SUCCESS)
      then cerr (DiagMapFailedK (res map_result_k) kaddr) ;;; exit 1
      else ret true
  | MapV =>
      page_size <- get page_size ;;
      map_result_v <- driver_call driver (cuMemMap vaddr page_size 0 (arg_v_page a) 0) ;;
      if negb (res map_result_v =? CUDA_SUCCESS)
      then cerr (DiagMapFailedV (res map_result_v) vaddr) ;;; exit 1
      else ret true
  | AccessK =>
      page_size <- get page_size ;;
      accessDesc <- get accessDesc ;;
      CHECK_CUDA driver (cuMemSetAccess kaddr page_size accessDesc 1) ;;;
      ret true
  | AccessV =>
      page_size <- get page_size ;;
      accessDesc <- get accessDesc ;;
      CHECK_CUDA driver (cuMemSetAccess vaddr page_size accessDesc 1) ;;;
      ret true
  | Record_ =>
      record_mapping (key_of a) (pages_of a) ;;;
      ret true
  end.

(** The rest of a call, run without interruption. *)
Fixpoint finish (a : map_args) (todo : list stmt) : M unit :=
  match todo with
  | [] => ret tt
  | s :: todo' =>
      continue <- exec_stmt a s ;;
      if continue then finish a todo' else ret tt
  end.

(** The call of a thread as the sequential function. *)
Definition call_of (a : map_args) : M unit :=
  map_cuda_pages driver (arg_reqId a) (arg_layer_idx a) (arg_req_offset a)
                 (arg_kcache_ptr a) (arg_vcache_ptr a) (arg_k_page a) (arg_v_page a).

(** One step of thread [tid], if it can take one.  A thread that waits for
    the lock can step only while the mutex is free, and takes it.  A thread
    inside the function runs its next statement, or, with none left,
    returns and releases the mutex. *)
Definition step (tid : nat) (c : config) : option machine :=
  match threads c !! tid with
  | None => None
  | Some (a, Waiting) =>
      if memory_mapping_mutex c then None
      else Some (Running (mkConfig (shared c) true
                                   (<[tid := (a, Holding body)]> (threads c))))
  | Some (a, Holding []) =>
      Some (Running (mkConfig (shared c) false
                              (<[tid := (a, Finished)]> (threads c))))
  | Some (a, Holding (s :: todo)) =>
      match exec_stmt a s (shared c) with
      | Ret continue w' =>
          Some (Running (mkConfig w' (memory_mapping_mutex c)
                                  (<[tid := (a, Holding (if continue then todo else []))]>
                                     (threads c))))
      | Exit status w' => Some (Exited status w')
      | Undefined => Some Broken
      end
  | Some (a, Finished) => None
  end.

(** A schedule names the thread that takes each step.  It is an
    interleaving of the process when every thread it names can step at its
    turn. *)
Fixpoint run (schedule : list nat) (m : machine) : option machine :=
  match schedule with
  | [] => Some m
  | tid :: schedule' =>
      match m with
      | Running c =>
          match step tid c with
          | Some m' => run schedule' m'
          | None => None
          end
      | _ => None
      end
  end.

(** The calls one after the other. *)
Definition serial (calls : list map_args) : M unit := for_each call_of calls.

End Threads.

(** ** Vocabulary of the statements *)

(** The driver calls of a history, in order, without their replies. *)
Definition calls_of (tr : list event) : list call :=
  omap (fun e => match e with EvCall c _ => Some c | _ => None end) tr.

(** The page-map entries written in a history, in order. *)
Definition records_of (tr : list event) : list (mapping_key * page_pair) :=
  omap (fun e => match e with EvRecord k p => Some (k, p) | _ => None end) tr.

(** The preconditions that [map_cuda_pages] validates, in the order of the
    source. *)
Definition preconditions (w : world) (req_offset kcache_ptr vcache_ptr k_page v_page : Z) : Prop :=
  req_offset mod page_size w = 0 /\
  (k_page <> 0 /\ v_page <> 0) /\
  (kcache_ptr <> 0 /\ vcache_ptr <> 0) /\
  (desc_location_type (accessDesc w) = CU_MEM_LOCATION_TYPE_DEVICE /\
   desc_flags (accessDesc w) = CU_MEM_ACCESS_FLAGS_PROT_READWRITE).

Definition valid_call (w : world) (a : map_args) : Prop :=
  preconditions w (arg_req_offset a) (arg_kcache_ptr a) (arg_vcache_ptr a)
                (arg_k_page a) (arg_v_page a).

(** The state after the handles [new] have been appended to the pool and
    the events [es] have happened. *)
Definition grown (new : list Z) (es : list event) (w : world) : world :=
  emits es (set_cuda_pages (cuda_pages w ++ new) w).

(** *** What the cleanup is expected to attempt *)

(** The driver calls the cleanup is expected to attempt, read off the state
    it starts from.  None of them depends on what the driver answers. *)
Definition entry_unmap_calls (w : world) (mapping : mapping_key * page_pair) : list call :=
  let '((_, req_offset, layer_idx), _) := mapping in
  match k_tensors w !! Z.to_nat (to_u64 layer_idx),
        v_tensors w !! Z.to_nat (to_u64 layer_idx) with
  | Some kcache_ptr, Some vcache_ptr =>
      if negb (kcache_ptr =? 0) && negb (vcache_ptr =? 0)
      then [cuMemUnmap (u64_add kcache_ptr req_offset) (page_size w);
            cuMemUnmap (u64_add vcache_ptr req_offset) (page_size w)]
      else []
  | _, _ => []
  end.

Definition unmap_calls (w : world) : list call :=
  flat_map (entry_unmap_calls w) (map_to_list (cuda_pagemap w)).

Definition layer_free_calls (w : world) (ptrs : Z * Z) : list call :=
  (if negb (ptrs.1 =? 0) then [cuMemAddressFree ptrs.1 (virt_buff_size w)] else []) ++
  (if negb (ptrs.2 =? 0) then [cuMemAddressFree ptrs.2 (virt_buff_size w)] else []).

Definition free_calls (w : world) : list call :=
  flat_map (layer_free_calls w) (zip (k_tensors w) (v_tensors w)).

Definition release_calls (w : world) : list call :=
  cuMemRelease <$> cuda_pages w.

Definition is_unmap (c : call) : bool :=
  match c with cuMemUnmap _ _ => true | _ => false end.

Definition is_address_free (c : call) : bool :=
  match c with cuMemAddressFree _ _ => true | _ => false end.

Definition is_release (c : call) : bool :=
  match c with cuMemRelease _ => true | _ => false end.

(** A failed call of the cleanup counts as logged when its warning follows:
    directly, or for the key half of an entry after the unmap of the value
    half. *)
Definition warned (c : call) (r : reply) (rest : list event) : bool :=
  match c, rest with
  | cuMemUnmap _ _, EvStderr WarnUnmap :: _ => true
  | cuMemUnmap _ _, EvCall (cuMemUnmap _ _) _ :: EvStderr WarnUnmap :: _ => true
  | cuMemAddressFree _ _, EvStderr WarnFreeK :: _ => true
  | cuMemAddressFree _ _, EvStderr WarnFreeV :: _ => true
  | cuMemRelease _, EvStderr (WarnRelease _ r') :: _ => r' =? res r
  | _, _ => false
  end.

Fixpoint failures_logged (es : list event) : bool :=
  match es with
  | [] => true
  | EvCall c r :: rest =>
      ((res r =? CUDA_SUCCESS) || warned c r rest) && failures_logged rest
  | _ :: rest => failures_logged rest
  end.

(** The events a cleanup loop may produce: driver calls and warnings. *)
Definition housekeeping (e : event) : bool :=
  match e with
  | EvCall _ _ => true
  | EvStderr d => is_warning d
  | _ => false
  end.

(** [es] is what a tolerant sweep over the calls [cs] leaves in the
    history: exactly these calls, every failure among them logged, and
    nothing but calls and warnings. *)
Definition sweep (cs : list call) (es : list event) : Prop :=
  calls_of es = cs /\ failures_logged es = true /\ Forall (fun e => housekeeping e = true) es.

(** An entry is passed over by the unmap loop when its layer index is not
    below the number of key tensors, or when the key or the value tensor of
    its layer has a null data pointer. *)
Definition passed_over (w : world) (layer_idx : Z) : Prop :=
  Z.of_nat (length (k_tensors w)) <= layer_idx \/
  (0 <= layer_idx /\
   exists kcache_ptr vcache_ptr,
     k_tensors w !! Z.to_nat layer_idx = Some kcache_ptr /\
     v_tensors w !! Z.to_nat layer_idx = Some vcache_ptr /\
     (kcache_ptr = 0 \/ vcache_ptr = 0)).

(** The sentence of the specification on the first phase, read literally:
    the cleanup attempts one unmap of the key range and one of the value
    range for every recorded entry, that is twice as many [cuMemUnmap] calls
    as the page map has entries. *)
Definition unmaps_every_entry (driver : list event -> call -> reply) (w : world) : Prop :=
  exists es,
    do_cuda_kvcache_cleanup driver w = Ret tt (emits es (set_cuda_pagemap ∅ w)) /\
    length (filter (fun c => is_unmap c = true) (calls_of es))
      = (2 * size (cuda_pagemap w))%nat.

(** *** Serial executions and the invariant of the threads *)

(** The driver calls of the bind of one call. *)
Definition bind_calls (w : world) (a : map_args) : list call :=
  let kaddr := u64_add (arg_kcache_ptr a) (arg_req_offset a) in
  let vaddr := u64_add (arg_vcache_ptr a) (arg_req_offset a) in
  [cuMemMap kaddr (page_size w) 0 (arg_k_page a) 0;
   cuMemMap vaddr (page_size w) 0 (arg_v_page a) 0;
   cuMemSetAccess kaddr (page_size w) (accessDesc w) 1;
   cuMemSetAccess vaddr (page_size w) (accessDesc w) 1].

Definition entry_of (a : map_args) : mapping_key * page_pair := (key_of a, pages_of a).

(** The two virtual slots a call binds into: the addresses of its key and
    of its value sub-range. *)
Definition slots_of (a : map_args) : list Z :=
  [u64_add (arg_kcache_ptr a) (arg_req_offset a);
   u64_add (arg_vcache_ptr a) (arg_req_offset a)].

(** The virtual slots bound in a history: the address of every [cuMemMap]
    call, in order. *)
Definition call_slots (cs : list call) : list Z :=
  omap (fun c => match c with cuMemMap ptr _ _ _ _ => Some ptr | _ => None end) cs.

Definition bound_slots (tr : list event) : list Z := call_slots (calls_of tr).

(** The page map after the calls of [l] have written their entries. *)
Definition recorded (m : gmap (Z * Z * Z) (Z * Z)) (l : list map_args)
  : gmap (Z * Z * Z) (Z * Z) :=
  foldl (fun m a => <[key_of a := pages_of a]> m) m l.

(** Of calls run one after the other from a page map [m], the ones that
    bind: a call binds when no earlier call, and not [m], has an entry for
    its key. *)
Fixpoint binders (m : gmap (Z * Z * Z) (Z * Z)) (l : list map_args) : list map_args :=
  match l with
  | [] => []
  | a :: l' =>
      match m !! key_of a with
      | Some _ => binders m l'
      | None => a :: binders (<[key_of a := pages_of a]> m) l'
      end
  end.

(** No thread but [tid] is inside the function. *)
Definition only_holder (tid : nat) (ts : list (map_args * tstate)) : Prop :=
  forall j t, j <> tid -> ts !! j = Some t -> is_holding t.2 = false.

Definition no_holder (ts : list (map_args * tstate)) : Prop :=
  forall j t, ts !! j = Some t -> is_holding t.2 = false.

(** The invariant of the process.  The calls that have returned, taken in
    the order of their return, have had the effect of running one after the
    other from the initial state.  While the mutex is free no thread is
    inside the function; while it is taken exactly one thread is, and what
    is left of its call will end as its whole call would when run after
    the returned ones.  A process that has ended, has ended as one of the
    calls would when run after the returned ones. *)
Definition serial_inv (driver : list event -> call -> reply) (w0 : world)
           (calls : list map_args) (m : machine) : Prop :=
  match m with
  | Running c =>
      exists returned,
        returned ++ pending (threads c) ≡ₚ calls /\
        if memory_mapping_mutex c
        then exists tid a todo w_mid,
               threads c !! tid = Some (a, Holding todo) /\
               only_holder tid (threads c) /\
               serial driver returned w0 = Ret tt w_mid /\
               finish driver a todo (shared c) = call_of driver a w_mid
        else no_holder (threads c) /\
             serial driver returned w0 = Ret tt (shared c)
  | Exited status w' =>
      exists returned a rest w_mid,
        returned ++ a :: rest ≡ₚ calls /\
        serial driver returned w0 = Ret tt w_mid /\
        call_of driver a w_mid = Exit status w'
  | Broken =>
      exists returned a rest w_mid,
        returned ++ a :: rest ≡ₚ calls /\
        serial driver returned w0 = Ret tt w_mid /\
        call_of driver a w_mid = Undefined
  end.

(** *** Vocabulary of the further properties *)

(** The handles the driver handed out in a history: the output of every
    [cuMemCreate], in order. *)
Definition created (tr : list event) : list Z :=
  omap (fun e => match e with EvCall (cuMemCreate _ _ _) r => Some (out r) | _ => None end) tr.

(** The state an operation leaves behind, when it returns or ends the
    process. *)
Definition final {A} (o : outcome A) : option world :=
  match o with
  | Ret _ w' | Exit _ w' => Some w'
  | Undefined => None
  end.

(** The globals other than the page map and the pool are the same in two
    states. *)
Definition same_session (w w' : world) : Prop :=
  ctx w' = ctx w /\ prop w' = prop w /\ accessDesc w' = accessDesc w /\
  page_size w' = page_size w /\ virt_buff_size w' = virt_buff_size w /\
  k_tensors w' = k_tensors w /\ v_tensors w' = v_tensors w.

Definition is_create (c : call) : bool :=
  match c with cuMemCreate _ _ _ => true | _ => false end.

Definition is_bind (c : call) : bool :=
  match c with cuMemMap _ _ _ _ _ | cuMemSetAccess _ _ _ _ => true | _ => false end.

(** The addresses unmapped and the handles released by the calls of a
    history, in order. *)
Definition unmap_targets (cs : list call) : list Z :=
  omap (fun c => match c with cuMemUnmap ptr _ => Some ptr | _ => None end) cs.

Definition release_targets (cs : list call) : list Z :=
  omap (fun c => match c with cuMemRelease handle => Some handle | _ => None end) cs.

Definition unmapped (tr : list event) : list Z := unmap_targets (calls_of tr).

Definition released (tr : list event) : list Z := release_targets (calls_of tr).

(** The two unmap calls that undo the bind of a call. *)
Definition unbind_calls (w : world) (a : map_args) : list call :=
  (fun ptr => cuMemUnmap ptr (page_size w)) <$> slots_of a.

(** A call is addressed at the tensors of its layer when its base pointers
    are the data pointers of the key and value tensor of that layer. *)
Definition addressed_at_tensors (w : world) (a : map_args) : Prop :=
  is_int (arg_layer_idx a) /\ 0 <= arg_layer_idx a /\
  k_tensors w !! Z.to_nat (arg_layer_idx a) = Some (arg_kcache_ptr a) /\
  v_tensors w !! Z.to_nat (arg_layer_idx a) = Some (arg_vcache_ptr a).

(** The steps a thread can still take: one to lock, one per statement, one
    to unlock. *)
Definition steps_left (t : map_args * tstate) : nat :=
  match t.2 with
  | Waiting => 9
  | Holding todo => S (length todo)
  | Finished => 0
  end.

Definition budget (ts : list (map_args * tstate)) : nat :=
  sum_list_with steps_left ts.

(** The steps a process can still take: none once it has ended. *)
Definition fuel (m : machine) : nat :=
  match m with
  | Running c => budget (threads c)
  | _ => 0
  end.

(** Several calls of [reserve_cuda_pages] in a row, each with its own
    arguments [(num_layers, free_memory, page_size)]. *)
Definition reserve_all (driver : list event -> call -> reply)
           (get_num_phys_blocks : Z -> Z -> Z -> Z) (requests : list (Z * Z * Z)) : M unit :=
  for_each (fun r => reserve_cuda_pages driver get_num_phys_blocks r.1.1 r.1.2 r.2 ;;; ret tt)
           requests.

(** The largest of the pool size [size0] and the targets of the requests. *)
Definition high_water (get_num_phys_blocks : Z -> Z -> Z -> Z) (size0 : Z)
           (requests : list (Z * Z * Z)) : Z :=
  foldl (fun s r => Z.max s (get_num_phys_blocks r.1.1 r.1.2 r.2)) size0 requests.

(** ** A simulated backend, for running the model on concrete inputs *)

(** Two MiB, the page size of the sessions below. *)
Definition MiB2 : Z := 2097152.

(** A driver that fails exactly the calls selected by [fail], reports a
    granularity of 2 MiB, a non-null context, and hands out fresh handles. *)
Definition sim_driver (fail : call -> bool) (h : list event) (c : call) : reply :=
  mkReply (if fail c then 1 else CUDA_SUCCESS)
          match c with
          | cuCtxGetCurrent => 1
          | cuMemGetAllocationGranularity _ _ => MiB2
          | cuMemCreate _ _ _ => 100 + Z.of_nat (length h)
          | _ => 0
          end.

(** A backend that never fails. *)
Definition never (c : call) : bool := false.

(** A backend that refuses every [cuMemSetAccess]. *)
Definition fail_set_access (c : call) : bool :=
  match c with cuMemSetAccess _ _ _ _ => true | _ => false end.

(** A backend that refuses every unmap, every free and every release. *)
Definition fail_cleanup (c : call) : bool :=
  match c with
  | cuMemUnmap _ _ | cuMemAddressFree _ _ | cuMemRelease _ => true
  | _ => false
  end.

(** A sizing policy for running the model: always three pages. *)
Definition three_pages (num_layers free_memory page_size : Z) : Z := 3.

(** A session after initialisation with two layers and an empty pool. *)
Definition session0 : world :=
  mkWorld 1
          (mkProp CU_MEM_ALLOCATION_TYPE_PINNED CU_MEM_LOCATION_TYPE_DEVICE 0)
          (mkAccessDesc CU_MEM_LOCATION_TYPE_DEVICE 0 CU_MEM_ACCESS_FLAGS_PROT_READWRITE)
          MiB2 (64 * MiB2) [4096; 8192] [12288; 16384] [] ∅ [].

(** A process before initialisation: the context and the descriptors are
    zero, the page size is set, and there are no tensors, no pages and no
    entries. *)
Definition fresh_process : world :=
  mkWorld 0 zero_prop zero_accessDesc MiB2 0 [] [] [] ∅ [].

(** The session with the entry of key [(7, 0, 0)] recorded. *)
Definition session1 : world :=
  set_cuda_pagemap {[ (7, 0, 0) := (11, 12) ]} session0.

(** The session with one recorded entry and a pool of two pages. *)
Definition session2 : world := set_cuda_pages [101; 102] session1.

(** A session whose page map holds one entry for layer 5, while only two
    layers have tensors. *)
Definition session_stray : world :=
  set_cuda_pagemap {[ (7, 0, 5) := (11, 12) ]} session0.

(** Two callers with distinct keys, for running the model. *)
Definition caller_a : map_args := mkArgs 7 0 0 4096 12288 11 12.

Definition caller_b : map_args := mkArgs 7 1 MiB2 8192 16384 13 14.

(** A caller whose key differs from the key of [caller_a] in the request
    only: it addresses the same two virtual slots, with other pages. *)
Definition caller_c : map_args := mkArgs 8 0 0 4096 12288 13 14.

(** Thread 1 runs its whole call (lock, seven statements, unlock), then
    thread 0 does. *)
Definition schedule_ba : list nat :=
  replicate 9 1%nat ++ replicate 9 0%nat.

(** Thread 0 runs its whole call, then thread 1 does. *)
Definition schedule_ab : list nat :=
  replicate 9 0%nat ++ replicate 9 1%nat.

(** Thread 0 runs its whole call, then thread 1 runs up to and including
    its first [cuMemMap]. *)
Definition schedule_ab_map : list nat :=
  replicate 9 0%nat ++ replicate 4 1%nat.

(** A backend that refuses to map into a slot that is already bound. *)
Definition strict_driver (h : list event) (c : call) : reply :=
  match c with
  | cuMemMap ptr _ _ _ _ => mkReply (if bool_decide (ptr ∈ bound_slots h) then 1 else 0) 0
  | _ => mkReply CUDA_SUCCESS 0
  end.

(** A sizing policy that asks for as many pages as there are layers. *)
Definition page_per_layer (num_layers free_memory page_size : Z) : Z := num_layers.

(** A backend that refuses every [cuMemCreate] once the history holds two
    of them. *)
Definition sim_two_pages (h : list event) (c : call) : reply :=
  match c with
  | cuMemCreate _ _ _ =>
      mkReply (if (2 <=? length (created h))%nat then 2 else CUDA_SUCCESS)
              (100 + Z.of_nat (length h))
  | _ => mkReply CUDA_SUCCESS 0
  end.

(** ** Basic facts about the monad and the state *)

Ltac unfold_monad :=
  unfold CHECK_CUDA, record_mapping, driver_call, cerr, u64_rem in *;
  unfold bind, ret, get, modify, exit, undefined in *.

Lemma emits_nil w : emits [] w = w.
Proof. destruct w. unfold emits, set_trace. simpl. by rewrite app_nil_r. Qed.

Lemma emits_emits es1 es2 w : emits es2 (emits es1 w) = emits (es1 ++ es2) w.
Proof. unfold emits, set_trace. simpl. by rewrite app_assoc. Qed.

Lemma calls_of_app t1 t2 : calls_of (t1 ++ t2) = calls_of t1 ++ calls_of t2.
Proof. unfold calls_of. apply omap_app. Qed.

Lemma records_of_app t1 t2 : records_of (t1 ++ t2) = records_of t1 ++ records_of t2.
Proof. unfold records_of. apply omap_app. Qed.

(** An operation that ended the process stays ended: nothing sequenced
    after it runs. *)
Lemma bind_Exit {A B} (m : M A) (k : A -> M B) w s w' :
  m w = Exit s w' -> (x <- m ;; k x) w = Exit s w'.
Proof. unfold bind. by intros ->. Qed.

Lemma bind_Ret {A B} (m : M A) (k : A -> M B) w a w' :
  m w = Ret a w' -> (x <- m ;; k x) w = k a w'.
Proof. unfold bind. by intros ->. Qed.

(** ** [map_cuda_pages]: precondition checks *)

Section MapChecks.

Variable driver : list event -> call -> reply.

Variables reqId layer_idx req_offset kcache_ptr vcache_ptr k_page v_page : Z.

Local Abbreviation map_here :=
  (map_cuda_pages driver reqId layer_idx req_offset kcache_ptr vcache_ptr k_page v_page).

(** A call that returns has passed every check. *)
Lemma map_cuda_pages_Ret_preconditions w w' :
  map_here w = Ret tt w' ->
  page_size w <> 0 /\ preconditions w req_offset kcache_ptr vcache_ptr k_page v_page.
Proof.
  unfold map_cuda_pages, preconditions. unfold_monad.
  destruct (Z.eqb_spec (page_size w) 0); simpl; [discriminate|].
  destruct (Z.eqb_spec (req_offset mod page_size w) 0); simpl; [|discriminate].
  destruct (Z.eqb_spec k_page 0); simpl; [discriminate|].
  destruct (Z.eqb_spec v_page 0); simpl; [discriminate|].
  destruct (Z.eqb_spec kcache_ptr 0); simpl; [discriminate|].
  destruct (Z.eqb_spec vcache_ptr 0); simpl; [discriminate|].
  destruct (Z.eqb_spec (desc_location_type (accessDesc w)) CU_MEM_LOCATION_TYPE_DEVICE);
    simpl; [|discriminate].
  destruct (Z.eqb_spec (desc_flags (accessDesc w)) CU_MEM_ACCESS_FLAGS_PROT_READWRITE);
    simpl; [|discriminate].
  intros _. repeat split; assumption.
Qed.

(** A call that violates a check ends the process with the diagnostic of
    the first violated check and nothing else, whatever the page map
    holds. *)
Lemma map_cuda_pages_violation w :
  page_size w <> 0 ->
  ~ preconditions w req_offset kcache_ptr vcache_ptr k_page v_page ->
  exists d,
    map_here w = Exit 1 (emit (EvStderr d) w) /\
    d ∈ [DiagMisaligned req_offset (page_size w); DiagInvalidHandle k_page v_page;
         DiagInvalidPointers; DiagAccessDesc].
Proof.
  intros Hps Hpre. unfold map_cuda_pages, preconditions in *. unfold_monad.
  destruct (Z.eqb_spec (page_size w) 0); simpl; [done|].
  destruct (Z.eqb_spec (req_offset mod page_size w) 0); simpl;
    [|eexists; split; [reflexivity|set_solver]].
  destruct (Z.eqb_spec k_page 0); simpl; [eexists; split; [reflexivity|set_solver]|].
  destruct (Z.eqb_spec v_page 0); simpl; [eexists; split; [reflexivity|set_solver]|].
  destruct (Z.eqb_spec kcache_ptr 0); simpl; [eexists; split; [reflexivity|set_solver]|].
  destruct (Z.eqb_spec vcache_ptr 0); simpl; [eexists; split; [reflexivity|set_solver]|].
  destruct (Z.eqb_spec (desc_location_type (accessDesc w)) CU_MEM_LOCATION_TYPE_DEVICE);
    simpl; [|eexists; split; [reflexivity|set_solver]].
  destruct (Z.eqb_spec (desc_flags (accessDesc w)) CU_MEM_ACCESS_FLAGS_PROT_READWRITE);
    simpl; [|eexists; split; [reflexivity|set_solver]].
  exfalso. apply Hpre. repeat split; assumption.
Qed.

(** With an entry already recorded for the key and the checks passed, the
    call returns at once and leaves the whole state as it was. *)
Lemma map_cuda_pages_present w :
  page_size w <> 0 ->
  preconditions w req_offset kcache_ptr vcache_ptr k_page v_page ->
  is_Some (cuda_pagemap w !! (reqId, req_offset, layer_idx)) ->
  map_here w = Ret tt w.
Proof.
  intros Hps (Hal & [Hk Hv] & [Hkp Hvp] & [Hty Hfl]) [p Hp].
  unfold map_cuda_pages. unfold_monad.
  destruct (Z.eqb_spec (page_size w) 0); simpl; [done|].
  rewrite Hal. simpl.
  destruct (Z.eqb_spec k_page 0); simpl; [done|].
  destruct (Z.eqb_spec v_page 0); simpl; [done|].
  destruct (Z.eqb_spec kcache_ptr 0); simpl; [done|].
  destruct (Z.eqb_spec vcache_ptr 0); simpl; [done|].
  rewrite Hty, Hfl. simpl. rewrite Hp. reflexivity.
Qed.

(** The bind of a key that is not yet recorded, spelled out: the four
    driver calls in order, each answered from the history extended by the
    previous ones; the first failing call ends the process, and only when
    all four succeed is the entry written. *)
Lemma map_cuda_pages_fresh w :
  page_size w <> 0 ->
  preconditions w req_offset kcache_ptr vcache_ptr k_page v_page ->
  cuda_pagemap w !! (reqId, req_offset, layer_idx) = None ->
  let key := (reqId, req_offset, layer_idx) in
  let kaddr := u64_add kcache_ptr req_offset in
  let vaddr := u64_add vcache_ptr req_offset in
  let c1 := cuMemMap kaddr (page_size w) 0 k_page 0 in
  let c2 := cuMemMap vaddr (page_size w) 0 v_page 0 in
  let c3 := cuMemSetAccess kaddr (page_size w) (accessDesc w) 1 in
  let c4 := cuMemSetAccess vaddr (page_size w) (accessDesc w) 1 in
  let r1 := driver (trace w) c1 in
  let w1 := emit (EvCall c1 r1) w in
  let r2 := driver (trace w1) c2 in
  let w2 := emit (EvCall c2 r2) w1 in
  let r3 := driver (trace w2) c3 in
  let w3 := emit (EvCall c3 r3) w2 in
  let r4 := driver (trace w3) c4 in
  let w4 := emit (EvCall c4 r4) w3 in
  map_here w =
  if negb (res r1 =? CUDA_SUCCESS)
  then Exit 1 (emit (EvStderr (DiagMapFailedK (res r1) kaddr)) w1)
  else if negb (res r2 =? CUDA_SUCCESS)
  then Exit 1 (emit (EvStderr (DiagMapFailedV (res r2) vaddr)) w2)
  else if negb (res r3 =? CUDA_SUCCESS)
  then Exit 1 (emit (EvStderr (DiagCheckCuda c3 (res r3))) w3)
  else if negb (res r4 =? CUDA_SUCCESS)
  then Exit 1 (emit (EvStderr (DiagCheckCuda c4 (res r4))) w4)
  else Ret tt (emit (EvRecord key (k_page, v_page))
                    (set_cuda_pagemap (<[key := (k_page, v_page)]> (cuda_pagemap w)) w4)).
Proof.
  intros Hps (Hal & [Hk Hv] & [Hkp Hvp] & [Hty Hfl]) Hnone. simpl.
  unfold map_cuda_pages. unfold_monad.
  destruct (Z.eqb_spec (page_size w) 0); simpl; [done|].
  rewrite Hal. simpl.
  destruct (Z.eqb_spec k_page 0); simpl; [done|].
  destruct (Z.eqb_spec v_page 0); simpl; [done|].
  destruct (Z.eqb_spec kcache_ptr 0); simpl; [done|].
  destruct (Z.eqb_spec vcache_ptr 0); simpl; [done|].
  rewrite Hty, Hfl. simpl. rewrite Hnone.
  repeat (match goal with |- context [negb ?b] => destruct b; simpl end);
    reflexivity.
Qed.

End MapChecks.

(** The state fields that [map_cuda_pages] reads are not changed by
    appending to the history or by writing the page map. *)
Lemma set_cuda_pagemap_emits m es w :
  set_cuda_pagemap m (emits es w) = emits es (set_cuda_pagemap m w).
Proof. reflexivity. Qed.

(** What a returning call has done: nothing when the key was recorded, and
    otherwise the four driver calls followed by the write of the entry. *)
Lemma map_cuda_pages_Ret_inv driver reqId layer_idx req_offset kcache_ptr vcache_ptr
      k_page v_page w w1 :
  map_cuda_pages driver reqId layer_idx req_offset kcache_ptr vcache_ptr k_page v_page w
    = Ret tt w1 ->
  let key := (reqId, req_offset, layer_idx) in
  (is_Some (cuda_pagemap w !! key) /\ w1 = w) \/
  (cuda_pagemap w !! key = None /\
   exists es,
     w1 = emits es (set_cuda_pagemap (<[key := (k_page, v_page)]> (cuda_pagemap w)) w) /\
     calls_of es =
       [cuMemMap (u64_add kcache_ptr req_offset) (page_size w) 0 k_page 0;
        cuMemMap (u64_add vcache_ptr req_offset) (page_size w) 0 v_page 0;
        cuMemSetAccess (u64_add kcache_ptr req_offset) (page_size w) (accessDesc w) 1;
        cuMemSetAccess (u64_add vcache_ptr req_offset) (page_size w) (accessDesc w) 1] /\
     records_of es = [(key, (k_page, v_page))]).
Proof.
  intros Hret key.
  destruct (map_cuda_pages_Ret_preconditions _ _ _ _ _ _ _ _ _ _ Hret) as [Hps Hpre].
  destruct (cuda_pagemap w !! key) as [p|] eqn:Hk.
  - left. split; [eauto|].
    rewrite map_cuda_pages_present in Hret; [congruence|done|done|].
    fold key. rewrite Hk. eauto.
  - right. split; [done|].
    rewrite map_cuda_pages_fresh in Hret by done.
    repeat (match type of Hret with context [negb ?b] => destruct b; simpl in Hret end;
            try discriminate).
    injection Hret as <-. fold key. unfold emit.
    rewrite !set_cuda_pagemap_emits, !emits_emits.
    eexists. split; [reflexivity|]. split; reflexivity.
Qed.

(** ** Properties of [map_cuda_pages] *)

(** C3. A call whose offset is not a multiple of [page_size] ends the
    process with [exit(1)] after printing the misalignment diagnostic and
    before any driver call: the history grows by that one line only.  Every
    call that returns had an offset that is a multiple of [page_size]. *)
Theorem map_cuda_pages_alignment driver reqId layer_idx req_offset kcache_ptr vcache_ptr
        k_page v_page w :
  page_size w <> 0 ->
  (req_offset mod page_size w <> 0 ->
   map_cuda_pages driver reqId layer_idx req_offset kcache_ptr vcache_ptr k_page v_page w
     = Exit 1 (emit (EvStderr (DiagMisaligned req_offset (page_size w))) w)) /\
  (forall w',
   map_cuda_pages driver reqId layer_idx req_offset kcache_ptr vcache_ptr k_page v_page w
     = Ret tt w' ->
   req_offset mod page_size w = 0).
Proof.
  intros Hps. split.
  - intros Hmis. unfold map_cuda_pages. unfold_monad.
    destruct (Z.eqb_spec (page_size w) 0); simpl; [done|].
    destruct (Z.eqb_spec (req_offset mod page_size w) 0); simpl; [done|reflexivity].
  - intros w' Hret. apply map_cuda_pages_Ret_preconditions in Hret.
    apply Hret.
Qed.

Lemma map_cuda_pages_alignment_witness :
  map_cuda_pages (sim_driver never) 7 0 4096 4096 12288 11 12 session0
    = Exit 1 (emit (EvStderr (DiagMisaligned 4096 MiB2)) session0) /\
  0 mod page_size session0 = 0.
Proof.
  split.
  - apply (map_cuda_pages_alignment (sim_driver never) 7 0 4096 4096 12288 11 12 session0);
      vm_compute; discriminate.
  - eapply (map_cuda_pages_alignment (sim_driver never) 7 0 0 4096 12288 11 12 session0).
    + vm_compute; discriminate.
    + vm_compute. reflexivity.
Defined.

(** C9. The four precondition checks come before the lookup of the key.
    For a key that is already recorded, a call that satisfies the checks
    returns without changing anything, but a call that violates one of them
    (for instance with [k_page = 0]) ends the process with [exit(1)] and the
    diagnostic of that check instead of returning. *)
Theorem map_cuda_pages_checks_precede_lookup driver reqId layer_idx req_offset
        kcache_ptr vcache_ptr k_page v_page w :
  page_size w <> 0 ->
  is_Some (cuda_pagemap w !! (reqId, req_offset, layer_idx)) ->
  (preconditions w req_offset kcache_ptr vcache_ptr k_page v_page ->
   map_cuda_pages driver reqId layer_idx req_offset kcache_ptr vcache_ptr k_page v_page w
     = Ret tt w) /\
  (~ preconditions w req_offset kcache_ptr vcache_ptr k_page v_page ->
   exists d,
     map_cuda_pages driver reqId layer_idx req_offset kcache_ptr vcache_ptr k_page v_page w
       = Exit 1 (emit (EvStderr d) w) /\
     d ∈ [DiagMisaligned req_offset (page_size w); DiagInvalidHandle k_page v_page;
          DiagInvalidPointers; DiagAccessDesc]).
Proof.
  intros Hps Hin. split.
  - intros Hpre. by apply map_cuda_pages_present.
  - intros Hpre. by apply map_cuda_pages_violation.
Qed.

Lemma map_cuda_pages_checks_precede_lookup_witness :
  exists d,
    map_cuda_pages (sim_driver never) 7 0 0 4096 12288 0 12 session1
      = Exit 1 (emit (EvStderr d) session1) /\
    d ∈ [DiagMisaligned 0 (page_size session1); DiagInvalidHandle 0 12;
         DiagInvalidPointers; DiagAccessDesc].
Proof.
  apply (map_cuda_pages_checks_precede_lookup (sim_driver never) 7 0 0 4096 12288 0 12 session1).
  - vm_compute; discriminate.
  - exists (11, 12). vm_compute. reflexivity.
  - unfold preconditions. intros (_ & [Hk _] & _). apply Hk. reflexivity.
Defined.

(** After a call has returned, the key is recorded and the fields the checks
    read are what they were. *)
Lemma map_cuda_pages_Ret_recorded driver reqId layer_idx req_offset kcache_ptr vcache_ptr
      k_page v_page w w1 :
  map_cuda_pages driver reqId layer_idx req_offset kcache_ptr vcache_ptr k_page v_page w
    = Ret tt w1 ->
  is_Some (cuda_pagemap w1 !! (reqId, req_offset, layer_idx)) /\
  page_size w1 = page_size w /\ accessDesc w1 = accessDesc w.
Proof.
  intros Hret.
  destruct (map_cuda_pages_Ret_inv _ _ _ _ _ _ _ _ _ _ Hret)
    as [[Hin ->] | [Hnone (es & -> & _)]]; [done|].
  simpl. split; [|done]. rewrite lookup_insert_eq. eauto.
Qed.

(** C1. Two calls with the same key [(reqId, layer_idx, req_offset)], the
    second with any non-null page handles and base pointers (the same or
    different ones): the pair of calls behaves exactly as the first call
    alone.  When the first call returns, the second returns at once and
    leaves the state and the history untouched; when the key was new, the
    two calls together have issued the two [cuMemMap] and the two
    [cuMemSetAccess] calls once, and written the entry once, with the pages
    of the first call.  And the first call does return when its arguments
    are valid, its key is new and the driver accepts its four calls: then
    the pair of calls returns, and the history of the pair is the four
    driver calls followed by the one write of the entry. *)
Theorem map_cuda_pages_idempotent driver reqId layer_idx req_offset
        kcache_ptr vcache_ptr k_page v_page kcache_ptr' vcache_ptr' k_page' v_page' w :
  k_page' <> 0 -> v_page' <> 0 -> kcache_ptr' <> 0 -> vcache_ptr' <> 0 ->
  let key := (reqId, req_offset, layer_idx) in
  let first := map_cuda_pages driver reqId layer_idx req_offset
                              kcache_ptr vcache_ptr k_page v_page in
  let second := map_cuda_pages driver reqId layer_idx req_offset
                               kcache_ptr' vcache_ptr' k_page' v_page' in
  let c1 := cuMemMap (u64_add kcache_ptr req_offset) (page_size w) 0 k_page 0 in
  let c2 := cuMemMap (u64_add vcache_ptr req_offset) (page_size w) 0 v_page 0 in
  let c3 := cuMemSetAccess (u64_add kcache_ptr req_offset) (page_size w) (accessDesc w) 1 in
  let c4 := cuMemSetAccess (u64_add vcache_ptr req_offset) (page_size w) (accessDesc w) 1 in
  (first ;;; second) w = first w /\
  (forall w1, first w = Ret tt w1 ->
     second w1 = Ret tt w1 /\
     (cuda_pagemap w !! key = None ->
      cuda_pagemap w1 !! key = Some (k_page, v_page) /\
      exists es,
        trace w1 = trace w ++ es /\
        calls_of es = [c1; c2; c3; c4] /\
        records_of es = [(key, (k_page, v_page))])) /\
  (page_size w <> 0 ->
   preconditions w req_offset kcache_ptr vcache_ptr k_page v_page ->
   cuda_pagemap w !! key = None ->
   let r1 := driver (trace w) c1 in
   let r2 := driver (trace w ++ [EvCall c1 r1]) c2 in
   let r3 := driver (trace w ++ [EvCall c1 r1; EvCall c2 r2]) c3 in
   let r4 := driver (trace w ++ [EvCall c1 r1; EvCall c2 r2; EvCall c3 r3]) c4 in
   res r1 = CUDA_SUCCESS -> res r2 = CUDA_SUCCESS ->
   res r3 = CUDA_SUCCESS -> res r4 = CUDA_SUCCESS ->
   exists w1,
     first w = Ret tt w1 /\
     (first ;;; second) w = Ret tt w1 /\
     trace w1 = trace w ++ [EvCall c1 r1; EvCall c2 r2; EvCall c3 r3; EvCall c4 r4;
                            EvRecord key (k_page, v_page)] /\
     cuda_pagemap w1 = <[key := (k_page, v_page)]> (cuda_pagemap w)).
Proof.
  intros Hk' Hv' Hkp' Hvp' key first second c1 c2 c3 c4.
  assert (Hsecond : forall w1, first w = Ret tt w1 -> second w1 = Ret tt w1).
  { intros w1 Hret.
    destruct (map_cuda_pages_Ret_preconditions _ _ _ _ _ _ _ _ _ _ Hret)
      as (Hps & Hal & _ & _ & Hdesc).
    destruct (map_cuda_pages_Ret_recorded _ _ _ _ _ _ _ _ _ _ Hret) as (Hin & Hps1 & Had1).
    apply map_cuda_pages_present; [congruence| |done].
    unfold preconditions. rewrite Hps1, Had1. done. }
  assert (Hpair : (first ;;; second) w = first w).
  { unfold bind. destruct (first w) as [[] w1| |] eqn:Hfirst; [|done..].
    by apply Hsecond. }
  split; [exact Hpair|]. split.
  - intros w1 Hret. split; [by apply Hsecond|]. intros Hnone.
    destruct (map_cuda_pages_Ret_inv _ _ _ _ _ _ _ _ _ _ Hret)
      as [[[p Hin] _] | [_ (es & -> & Hcalls & Hrecs)]].
    + fold key in Hin. congruence.
    + split; [simpl; apply lookup_insert_eq|]. by exists es.
  - intros Hps Hpre Hnone r1 r2 r3 r4 H1 H2 H3 H4.
    pose proof (map_cuda_pages_fresh driver reqId layer_idx req_offset kcache_ptr vcache_ptr
                                     k_page v_page w Hps Hpre Hnone) as Hrun.
    cbv zeta in Hrun. unfold emit, emits, set_trace in Hrun. simpl in Hrun.
    rewrite <- !app_assoc in Hrun. simpl in Hrun.
    fold c1 c2 c3 c4 in Hrun. fold r1 in Hrun. fold r2 in Hrun. fold r3 in Hrun.
    fold r4 in Hrun.
    rewrite H1, H2, H3, H4 in Hrun. simpl in Hrun.
    eexists. split; [exact Hrun|]. split; [by rewrite Hpair|]. done.
Qed.

Lemma map_cuda_pages_idempotent_witness :
  (map_cuda_pages (sim_driver never) 7 0 0 4096 12288 11 12 ;;;
   map_cuda_pages (sim_driver never) 7 0 0 4096 12288 21 22) session0
  = map_cuda_pages (sim_driver never) 7 0 0 4096 12288 11 12 session0 /\
  exists w1,
    (map_cuda_pages (sim_driver never) 7 0 0 4096 12288 11 12 ;;;
     map_cuda_pages (sim_driver never) 7 0 0 4096 12288 21 22) session0 = Ret tt w1 /\
    calls_of (trace w1)
      = [cuMemMap 4096 MiB2 0 11 0; cuMemMap 12288 MiB2 0 12 0;
         cuMemSetAccess 4096 MiB2 (accessDesc session0) 1;
         cuMemSetAccess 12288 MiB2 (accessDesc session0) 1] /\
    records_of (trace w1) = [((7, 0, 0), (11, 12))] /\
    cuda_pagemap w1 = {[ (7, 0, 0) := (11, 12) ]}.
Proof.
  assert (H21 : 21 <> 0) by discriminate.
  assert (H22 : 22 <> 0) by discriminate.
  assert (H4096 : 4096 <> 0) by discriminate.
  assert (H12288 : 12288 <> 0) by discriminate.
  destruct (map_cuda_pages_idempotent (sim_driver never) 7 0 0 4096 12288 11 12
                                      4096 12288 21 22 session0
                                      H21 H22 H4096 H12288) as (Hpair & _ & Hreturns).
  split; [exact Hpair|].
  destruct Hreturns as (w1 & _ & Hrun & Htrace & Hmap);
    [discriminate|by vm_compute|reflexivity|reflexivity..|].
  exists w1. split; [exact Hrun|].
  rewrite Htrace, Hmap. split; [reflexivity|]. split; [reflexivity|].
  apply insert_empty.
Defined.

(** C2. The first call for a key, with every precondition satisfied, issues
    in this order [cuMemMap] of [k_page] at [kcache_ptr + req_offset] and of
    [v_page] at [vcache_ptr + req_offset], each for [page_size] bytes, then
    [cuMemSetAccess] with the session's access descriptor on the same two
    ranges, each call answered by the driver from the history so far.  When
    the four calls succeed the entry [key -> (k_page, v_page)] is written
    and the call returns; when any of them fails the process ends with
    [exit(1)] and no entry is written. *)
Theorem map_cuda_pages_first_bind driver reqId layer_idx req_offset
        kcache_ptr vcache_ptr k_page v_page w :
  page_size w <> 0 ->
  preconditions w req_offset kcache_ptr vcache_ptr k_page v_page ->
  cuda_pagemap w !! (reqId, req_offset, layer_idx) = None ->
  let key := (reqId, req_offset, layer_idx) in
  let kaddr := u64_add kcache_ptr req_offset in
  let vaddr := u64_add vcache_ptr req_offset in
  let c1 := cuMemMap kaddr (page_size w) 0 k_page 0 in
  let c2 := cuMemMap vaddr (page_size w) 0 v_page 0 in
  let c3 := cuMemSetAccess kaddr (page_size w) (accessDesc w) 1 in
  let c4 := cuMemSetAccess vaddr (page_size w) (accessDesc w) 1 in
  let r1 := driver (trace w) c1 in
  let w1 := emit (EvCall c1 r1) w in
  let r2 := driver (trace w1) c2 in
  let w2 := emit (EvCall c2 r2) w1 in
  let r3 := driver (trace w2) c3 in
  let w3 := emit (EvCall c3 r3) w2 in
  let r4 := driver (trace w3) c4 in
  let w4 := emit (EvCall c4 r4) w3 in
  let all_succeed :=
    res r1 = CUDA_SUCCESS /\ res r2 = CUDA_SUCCESS /\
    res r3 = CUDA_SUCCESS /\ res r4 = CUDA_SUCCESS in
  desc_flags (accessDesc w) = CU_MEM_ACCESS_FLAGS_PROT_READWRITE /\
  (all_succeed ->
   map_cuda_pages driver reqId layer_idx req_offset kcache_ptr vcache_ptr k_page v_page w
     = Ret tt (emit (EvRecord key (k_page, v_page))
                    (set_cuda_pagemap (<[key := (k_page, v_page)]> (cuda_pagemap w)) w4))) /\
  (~ all_succeed ->
   exists w',
     map_cuda_pages driver reqId layer_idx req_offset kcache_ptr vcache_ptr k_page v_page w
       = Exit 1 w' /\
     cuda_pagemap w' = cuda_pagemap w /\
     records_of (trace w') = records_of (trace w)).
Proof.
  intros Hps Hpre Hnone. simpl.
  split; [apply Hpre|].
  rewrite map_cuda_pages_fresh by done. simpl.
  split.
  - intros (-> & -> & -> & ->). reflexivity.
  - intros Hfail.
    repeat (match goal with
            | |- context [negb (?a =? ?b)] =>
                destruct (Z.eqb_spec a b); simpl
            end;
            [|eexists; split; [reflexivity|];
              split; [reflexivity|];
              simpl; rewrite !records_of_app; simpl; by rewrite ?app_nil_r]).
    exfalso. apply Hfail. done.
Qed.

Lemma map_cuda_pages_first_bind_witness :
  map_cuda_pages (sim_driver never) 7 0 0 4096 12288 11 12 session0
    = Ret tt (emits [EvCall (cuMemMap 4096 MiB2 0 11 0) (mkReply 0 0);
                     EvCall (cuMemMap 12288 MiB2 0 12 0) (mkReply 0 0);
                     EvCall (cuMemSetAccess 4096 MiB2 (accessDesc session0) 1) (mkReply 0 0);
                     EvCall (cuMemSetAccess 12288 MiB2 (accessDesc session0) 1) (mkReply 0 0);
                     EvRecord (7, 0, 0) (11, 12)]
                    (set_cuda_pagemap (<[(7, 0, 0) := (11, 12)]> ∅) session0)) /\
  exists w',
    map_cuda_pages (sim_driver fail_set_access) 7 0 0 4096 12288 11 12 session0 = Exit 1 w' /\
    cuda_pagemap w' = cuda_pagemap session0 /\
    records_of (trace w') = records_of (trace session0).
Proof.
  split.
  - apply (map_cuda_pages_first_bind (sim_driver never) 7 0 0 4096 12288 11 12 session0).
    + vm_compute; discriminate.
    + unfold preconditions. vm_compute. repeat split; discriminate.
    + reflexivity.
    + vm_compute. done.
  - apply (map_cuda_pages_first_bind (sim_driver fail_set_access) 7 0 0 4096 12288 11 12
                                     session0).
    + vm_compute; discriminate.
    + unfold preconditions. vm_compute. repeat split; discriminate.
    + reflexivity.
    + vm_compute. intros (_ & _ & H & _). discriminate H.
Defined.

(** ** [CHECK_CUDA] *)

Lemma CHECK_CUDA_Ret_inv driver c w r w' :
  CHECK_CUDA driver c w = Ret r w' ->
  r = driver (trace w) c /\ res r = CUDA_SUCCESS /\ w' = emit (EvCall c r) w.
Proof.
  unfold_monad. destruct (Z.eqb_spec (res (driver (trace w) c)) CUDA_SUCCESS); simpl;
    [|discriminate].
  intros [= <- <-]. done.
Qed.

Lemma CHECK_CUDA_Exit_inv driver c w s w' :
  CHECK_CUDA driver c w = Exit s w' ->
  let r := driver (trace w) c in
  s = 1 /\ res r <> CUDA_SUCCESS /\
  w' = emit (EvStderr (DiagCheckCuda c (res r))) (emit (EvCall c r) w).
Proof.
  unfold_monad. destruct (Z.eqb_spec (res (driver (trace w) c)) CUDA_SUCCESS); simpl;
    [discriminate|].
  intros [= <- <-]. done.
Qed.

Lemma CHECK_CUDA_defined driver c w : CHECK_CUDA driver c w <> Undefined.
Proof. unfold_monad. by destruct (negb _). Qed.

(** ** [do_cuda_default_init] *)

(** The run of [do_cuda_default_init], spelled out: three driver calls,
    each answered from the history so far, and five ways to end. *)
Lemma do_cuda_default_init_run driver device page_size w :
  let r1 := driver (trace w) (cuInit 0) in
  let w1 := emit (EvCall (cuInit 0) r1) w in
  let r2 := driver (trace w1) cuCtxGetCurrent in
  let w2 := set_ctx (out r2) (emit (EvCall cuCtxGetCurrent r2) w1) in
  let p := mkProp CU_MEM_ALLOCATION_TYPE_PINNED CU_MEM_LOCATION_TYPE_DEVICE device in
  let ad := mkAccessDesc CU_MEM_LOCATION_TYPE_DEVICE device
                         CU_MEM_ACCESS_FLAGS_PROT_READWRITE in
  let c3 := cuMemGetAllocationGranularity p CU_MEM_ALLOC_GRANULARITY_MINIMUM in
  let r3 := driver (trace w2) c3 in
  let w3 := emit (EvCall c3 r3) (set_accessDesc ad (set_prop p w2)) in
  do_cuda_default_init driver device page_size w =
  if negb (res r1 =? CUDA_SUCCESS)
  then Exit 1 (emit (EvStderr (DiagCheckCuda (cuInit 0) (res r1))) w1)
  else if negb (res r2 =? CUDA_SUCCESS)
  then Exit 1 (emit (EvStderr (DiagCheckCuda cuCtxGetCurrent (res r2)))
                    (emit (EvCall cuCtxGetCurrent r2) w1))
  else if out r2 =? 0
  then Exit 1 (emit (EvStderr DiagNoContext) w2)
  else if negb (res r3 =? CUDA_SUCCESS)
  then Exit 1 (emit (EvStderr (DiagCheckCuda c3 (res r3))) w3)
  else if negb (out r3 =? page_size)
  then Exit 1 (emit (EvStderr (DiagGranularityMismatch page_size (out r3))) w3)
  else Ret (out r3) w3.
Proof.
  cbv zeta. unfold do_cuda_default_init. unfold_monad. simpl.
  destruct (negb (res (driver (trace w) (cuInit 0)) =? CUDA_SUCCESS)); simpl;
    [reflexivity|].
  match goal with |- context [negb (res ?r =? CUDA_SUCCESS)] =>
    destruct (negb (res r =? CUDA_SUCCESS)); simpl end; [reflexivity|].
  match goal with |- context [out ?r =? 0] =>
    destruct (out r =? 0); simpl end; [reflexivity|].
  match goal with |- context [negb (res ?r =? CUDA_SUCCESS)] =>
    destruct (negb (res r =? CUDA_SUCCESS)); simpl end; [reflexivity|].
  match goal with |- context [negb (out ?r =? page_size)] =>
    destruct (negb (out r =? page_size)); simpl end; reflexivity.
Qed.

(** C5. [do_cuda_default_init] asks the driver for the minimum allocation
    granularity of the session's allocation properties (pinned, on the given
    device).  Whenever it returns, the value returned is the granularity the
    driver reported and it equals [page_size].  When the driver reports any
    other granularity, the process ends with [exit(1)] after the mismatch
    diagnostic, and whatever is sequenced after the initialisation does not
    run.  The process also ends when [cuInit], [cuCtxGetCurrent] or the
    granularity query fails or when there is no current context. *)
Theorem do_cuda_default_init_granularity driver device page_size w :
  let r1 := driver (trace w) (cuInit 0) in
  let w1 := emit (EvCall (cuInit 0) r1) w in
  let r2 := driver (trace w1) cuCtxGetCurrent in
  let w2 := set_ctx (out r2) (emit (EvCall cuCtxGetCurrent r2) w1) in
  let p := mkProp CU_MEM_ALLOCATION_TYPE_PINNED CU_MEM_LOCATION_TYPE_DEVICE device in
  let ad := mkAccessDesc CU_MEM_LOCATION_TYPE_DEVICE device
                         CU_MEM_ACCESS_FLAGS_PROT_READWRITE in
  let c3 := cuMemGetAllocationGranularity p CU_MEM_ALLOC_GRANULARITY_MINIMUM in
  let r3 := driver (trace w2) c3 in
  let w3 := emit (EvCall c3 r3) (set_accessDesc ad (set_prop p w2)) in
  let ready := res r1 = CUDA_SUCCESS /\ res r2 = CUDA_SUCCESS /\ out r2 <> 0 /\
               res r3 = CUDA_SUCCESS in
  (forall g w', do_cuda_default_init driver device page_size w = Ret g w' ->
     g = page_size /\ g = out r3 /\ ready /\ w' = w3) /\
  (ready -> out r3 = page_size ->
   do_cuda_default_init driver device page_size w = Ret page_size w3) /\
  (ready -> out r3 <> page_size ->
   do_cuda_default_init driver device page_size w
     = Exit 1 (emit (EvStderr (DiagGranularityMismatch page_size (out r3))) w3) /\
   forall (B : Type) (k : Z -> M B),
     (g <- do_cuda_default_init driver device page_size ;; k g) w
       = Exit 1 (emit (EvStderr (DiagGranularityMismatch page_size (out r3))) w3)) /\
  (~ ready -> exists w',
     do_cuda_default_init driver device page_size w = Exit 1 w').
Proof.
  intros r1 w1 r2 w2 p ad c3 r3 w3 ready.
  pose proof (do_cuda_default_init_run driver device page_size w) as Hrun.
  cbv zeta in Hrun. fold r1 w1 r2 w2 p ad c3 r3 w3 in Hrun.
  destruct (Z.eqb_spec (res r1) CUDA_SUCCESS) as [H1|H1]; simpl in Hrun;
    [|unfold ready; repeat split; try (intros; rewrite Hrun in *; done);
      try tauto; eauto].
  destruct (Z.eqb_spec (res r2) CUDA_SUCCESS) as [H2|H2]; simpl in Hrun;
    [|unfold ready; repeat split; try (intros; rewrite Hrun in *; done);
      try tauto; eauto].
  destruct (Z.eqb_spec (out r2) 0) as [H3|H3]; simpl in Hrun;
    [unfold ready; repeat split; try (intros; rewrite Hrun in *; done);
     try tauto; eauto|].
  destruct (Z.eqb_spec (res r3) CUDA_SUCCESS) as [H4|H4]; simpl in Hrun;
    [|unfold ready; repeat split; try (intros; rewrite Hrun in *; done);
      try tauto; eauto].
  assert (Hready : ready) by done.
  destruct (Z.eqb_spec (out r3) page_size) as [H5|H5]; simpl in Hrun.
  - split; [|split; [|split]]; [| |done|done].
    + intros g w'. rewrite Hrun. intros [= <- <-]. done.
    + intros _ _. rewrite Hrun. by rewrite H5.
  - split; [|split; [|split]]; [|done| |done].
    + intros g w'. rewrite Hrun. discriminate.
    + intros _ _. split; [done|]. intros B k. by apply bind_Exit.
Qed.

Lemma do_cuda_default_init_granularity_witness :
  (exists w',
     do_cuda_default_init (sim_driver never) 0 MiB2 fresh_process = Ret MiB2 w' /\
     accessDesc w' = mkAccessDesc CU_MEM_LOCATION_TYPE_DEVICE 0
                                  CU_MEM_ACCESS_FLAGS_PROT_READWRITE) /\
  (exists w', do_cuda_default_init (sim_driver never) 0 4096 fresh_process = Exit 1 w').
Proof.
  split.
  - eexists. split.
    + apply (do_cuda_default_init_granularity (sim_driver never) 0 MiB2 fresh_process).
      * vm_compute. repeat split; (reflexivity || discriminate).
      * reflexivity.
    + reflexivity.
  - eexists.
    apply (do_cuda_default_init_granularity (sim_driver never) 0 4096 fresh_process).
    + vm_compute. repeat split; (reflexivity || discriminate).
    + vm_compute. discriminate.
Defined.

(** The backend selection of [do_cuda_init]: page sizes that the policy
    does not send to the managed-memory backend are initialised by
    [do_cuda_default_init]. *)
Remark do_cuda_init_default driver is_uvm_backend do_cuda_uvm_init device page_size :
  is_uvm_backend page_size = false ->
  do_cuda_init driver is_uvm_backend do_cuda_uvm_init device page_size
    = do_cuda_default_init driver device page_size.
Proof. unfold do_cuda_init. by intros ->. Qed.

(** ** [reserve_cuda_pages] *)

Lemma grown_nil w : grown [] [] w = w.
Proof.
  unfold grown. rewrite emits_nil. destruct w. unfold set_cuda_pages. simpl.
  by rewrite app_nil_r.
Qed.

(** What the loop has done when it stops: it has issued one [cuMemCreate]
    of [page_size] bytes with the session's allocation properties per missing
    page, appended the handle of each to the pool, and changed nothing
    else.  It stops by [exit(1)] only on a failed [cuMemCreate]. *)
Lemma reserve_loop_spec driver num_phys_blocks page_size w :
  let missing := Z.to_nat (num_phys_blocks - Z.of_nat (length (cuda_pages w))) in
  match reserve_loop driver num_phys_blocks page_size w with
  | Ret _ w' =>
      exists new es,
        w' = grown new es w /\
        length new = missing /\
        length es = missing /\
        calls_of es = replicate missing (cuMemCreate page_size (prop w) 0)
  | Exit s w' =>
      s = 1 /\
      exists new es h,
        let r := driver h (cuMemCreate page_size (prop w) 0) in
        w' = grown new (es ++ [EvCall (cuMemCreate page_size (prop w) 0) r;
                               EvStderr (DiagCheckCuda (cuMemCreate page_size (prop w) 0) (res r))])
                   w /\
        res r <> CUDA_SUCCESS /\
        (length new < missing)%nat
  | Undefined => False
  end.
Proof.
  funelim (reserve_loop driver num_phys_blocks page_size w); simpl;
    repeat match goal with
           | H : @eq (sigma _) _ _ |- _ => clear H
           | H : _ = reserve_loop _ _ _ _ |- _ => clear H
           end.
  - (* the pool has reached the target *)
    match goal with H : (_ <? _) = false |- _ => apply Z.ltb_ge in H end.
    exists [], []. rewrite grown_nil.
    replace (Z.to_nat _) with 0%nat by lia. done.
  - (* one more page, then the rest of the loop *)
    apply Z.ltb_lt in Hlt.
    apply CHECK_CUDA_Ret_inv in Hcreate as (Hr & Hres & ->).
    match goal with Hrec : match reserve_loop _ _ _ _ with _ => _ end |- _ =>
      rename Hrec into IH end.
    simpl in IH. rewrite length_app in IH. simpl in IH.
    set (missing := Z.to_nat (num_phys_blocks - Z.of_nat (length (cuda_pages w)))).
    replace (Z.to_nat (num_phys_blocks - Z.of_nat (length (cuda_pages w) + 1)))
      with (pred missing) in IH by (unfold missing; lia).
    assert (Hmissing : missing = S (pred missing)) by (unfold missing; lia).
    destruct (reserve_loop _ _ _ _) as [[] w'|s w'|]; [| |done].
    + destruct IH as (new & es & -> & Hlen & Hlen' & Hcalls).
      exists (out cuda_page :: new), (EvCall (cuMemCreate page_size0 (prop w) 0) cuda_page :: es).
      split; [|split; [|split]].
      * unfold grown, emit, emits, set_cuda_pages, set_trace. simpl.
        by rewrite <- !app_assoc.
      * simpl. lia.
      * simpl. lia.
      * rewrite Hmissing. simpl. by rewrite Hcalls.
    + destruct IH as (-> & new & es & h & -> & Hr' & Hlen).
      split; [done|].
      exists (out cuda_page :: new),
             (EvCall (cuMemCreate page_size0 (prop w) 0) cuda_page :: es), h.
      split; [|split].
      * unfold grown, emit, emits, set_cuda_pages, set_trace. simpl.
        by rewrite <- !app_assoc.
      * done.
      * simpl. lia.
  - (* a failed [cuMemCreate] *)
    apply Z.ltb_lt in Hlt.
    match goal with H : CHECK_CUDA _ _ _ = Exit _ _ |- _ =>
      apply CHECK_CUDA_Exit_inv in H as (-> & Hres & ->) end.
    split; [done|]. exists [], [], (trace w).
    split; [|split; [done|simpl; lia]].
    unfold grown, emit, emits, set_cuda_pages, set_trace. simpl.
    by rewrite <- !app_assoc, app_nil_r.
  - match goal with H : CHECK_CUDA _ _ _ = Undefined |- _ =>
      by apply CHECK_CUDA_defined in H end.
Qed.

Lemma grown_after_log new es e w :
  grown new es (emit e w) = grown new (e :: es) w.
Proof.
  unfold grown, emit, emits, set_cuda_pages, set_trace. simpl.
  by rewrite <- app_assoc.
Qed.

(** C4. [reserve_cuda_pages] asks the sizing function for the target and
    then creates pages one at a time, each with one [cuMemCreate] of
    [page_size] bytes and the session's allocation properties, appending each
    new handle behind the handles already in the pool.  Whenever it returns,
    it has issued exactly as many [cuMemCreate] calls as pages were missing
    and returns the size of the pool, which is the maximum of the previous
    size and the target.  With the target already met it creates nothing
    and leaves the pool as it is.  It returns whenever the driver does not
    fail; the only other way it ends is [exit(1)] on a failed
    [cuMemCreate]. *)
Theorem reserve_cuda_pages_spec driver get_num_phys_blocks num_layers free_memory
        page_size w :
  let target := get_num_phys_blocks num_layers free_memory page_size in
  let size0 := Z.of_nat (length (cuda_pages w)) in
  let missing := Z.to_nat (target - size0) in
  let create := cuMemCreate page_size (prop w) 0 in
  let reserve := reserve_cuda_pages driver get_num_phys_blocks num_layers free_memory
                                    page_size in
  (forall n w', reserve w = Ret n w' ->
     n = Z.max size0 target /\
     n = Z.of_nat (length (cuda_pages w')) /\
     exists new es,
       w' = grown new (EvLog target page_size :: es) w /\
       length new = missing /\
       calls_of es = replicate missing create) /\
  (target <= size0 -> reserve w = Ret size0 (emit (EvLog target page_size) w)) /\
  ((forall h, res (driver h create) = CUDA_SUCCESS) ->
   exists w', reserve w = Ret (Z.max size0 target) w') /\
  (forall s w', reserve w = Exit s w' ->
     s = 1 /\ size0 < target /\ exists h, res (driver h create) <> CUDA_SUCCESS) /\
  reserve w <> Undefined.
Proof.
  intros target size0 missing create reserve.
  pose proof (reserve_loop_spec driver target page_size (emit (EvLog target page_size) w))
    as Hloop.
  simpl in Hloop. fold size0 missing create in Hloop.
  assert (Hrun : reserve w =
    match reserve_loop driver target page_size (emit (EvLog target page_size) w) with
    | Ret _ w' => Ret (Z.of_nat (length (cuda_pages w'))) w'
    | Exit s w' => Exit s w'
    | Undefined => Undefined
    end).
  { unfold reserve, reserve_cuda_pages. unfold_monad. fold target.
    by destruct (reserve_loop _ _ _ _). }
  destruct (reserve_loop driver target page_size (emit (EvLog target page_size) w))
    as [[] w1|s w1|]; [| |done].
  - destruct Hloop as (new & es & -> & Hlen & Hlen' & Hcalls).
    rewrite grown_after_log in Hrun.
    assert (Hsize : Z.of_nat (length (cuda_pages (grown new (EvLog target page_size :: es) w)))
                    = Z.max size0 target).
    { simpl. rewrite length_app, Hlen. unfold missing, size0. lia. }
    rewrite Hsize in Hrun.
    split; [|split; [|split; [|split]]].
    + intros n w'. rewrite Hrun. intros [= <- <-].
      split; [done|]. split; [done|]. by exists new, es.
    + intros Hmet. rewrite Hrun.
      assert (missing = 0%nat) as Hm by (unfold missing; lia).
      rewrite Hm in Hlen, Hlen'.
      destruct new; [|done]. destruct es; [|done].
      replace (Z.max size0 target) with size0 by lia.
      f_equal. unfold grown, emit, emits, set_cuda_pages, set_trace. simpl.
      by rewrite app_nil_r.
    + intros _. eauto.
    + intros s w'. rewrite Hrun. discriminate.
    + rewrite Hrun. discriminate.
  - destruct Hloop as (-> & new & es & h & _ & Hfail & Hlen).
    split; [|split; [|split; [|split]]].
    + intros n w'. rewrite Hrun. discriminate.
    + intros Hmet. exfalso. unfold missing in Hlen. lia.
    + intros Hok. exfalso. apply Hfail. apply Hok.
    + intros s w'. rewrite Hrun. intros [= <- <-].
      split; [done|]. split; [unfold missing in Hlen; lia|]. eauto.
    + rewrite Hrun. discriminate.
Qed.

Lemma reserve_cuda_pages_spec_witness :
  (exists w', reserve_cuda_pages (sim_driver never) three_pages 2 (64 * MiB2) MiB2 session0
              = Ret 3 w') /\
  reserve_cuda_pages (sim_driver never) three_pages 2 (64 * MiB2) MiB2
                     (set_cuda_pages [101; 102; 103; 104] session0)
    = Ret 4 (emit (EvLog 3 MiB2) (set_cuda_pages [101; 102; 103; 104] session0)).
Proof.
  split.
  - apply (reserve_cuda_pages_spec (sim_driver never) three_pages 2 (64 * MiB2) MiB2 session0).
    reflexivity.
  - apply (reserve_cuda_pages_spec (sim_driver never) three_pages 2 (64 * MiB2) MiB2
                                   (set_cuda_pages [101; 102; 103; 104] session0)).
    vm_compute. discriminate.
Defined.

(** ** [do_cuda_kvcache_cleanup]: the three sweeps *)

Lemma warned_app c r rest more :
  warned c r rest = true -> warned c r (rest ++ more) = true.
Proof.
  unfold warned. intros H.
  destruct c; try done; destruct rest as [|[] rest]; simpl in *; try done.
  - destruct c; try done. destruct rest as [|[] rest]; simpl in *; done.
Qed.

Lemma failures_logged_app es1 es2 :
  failures_logged es1 = true -> failures_logged es2 = true ->
  failures_logged (es1 ++ es2) = true.
Proof.
  intros H1 H2. induction es1 as [|e es1 IH]; simpl in *; [done|].
  destruct e; auto.
  apply andb_true_iff in H1 as [Hw Hl].
  apply andb_true_iff. split; [|auto].
  apply orb_true_iff in Hw as [Hw|Hw]; apply orb_true_iff; [by left|right].
  by apply warned_app.
Qed.

Lemma sweep_nil : sweep [] [].
Proof. by repeat split. Qed.

Lemma sweep_app cs1 cs2 es1 es2 :
  sweep cs1 es1 -> sweep cs2 es2 -> sweep (cs1 ++ cs2) (es1 ++ es2).
Proof.
  intros (Hc1 & Hl1 & Hq1) (Hc2 & Hl2 & Hq2). split; [|split].
  - rewrite calls_of_app. congruence.
  - by apply failures_logged_app.
  - by apply Forall_app.
Qed.

(** A loop whose every iteration is a tolerant sweep over the calls of its
    item is a tolerant sweep over the calls of all items: no iteration is
    skipped and the loop returns.  The items [xs] the loop ranges over are
    related to the data [ys] they stand for. *)
Lemma for_each_sweep {A B} (body : A -> M unit) (calls : B -> list call)
      (w0 : world) (xs : list A) (ys : list B) :
  Forall2 (fun x y => forall es0, exists es,
             body x (emits es0 w0) = Ret tt (emits (es0 ++ es) w0) /\
             sweep (calls y) es) xs ys ->
  forall es0, exists es,
    for_each body xs (emits es0 w0) = Ret tt (emits (es0 ++ es) w0) /\
    sweep (flat_map calls ys) es.
Proof.
  induction 1 as [|x y xs ys Hx _ IH]; intros es0; simpl.
  - exists []. rewrite app_nil_r. split; [done|apply sweep_nil].
  - destruct (Hx es0) as (es1 & Hrun1 & Hsw1).
    destruct (IH (es0 ++ es1)) as (es2 & Hrun2 & Hsw2).
    exists (es1 ++ es2). split; [|by apply sweep_app].
    unfold bind. rewrite Hrun1, Hrun2. by rewrite app_assoc.
Qed.

(** The index loop of the source visits position [i] of the vector for each
    [i] below its size. *)
Lemma indices_Forall2 (l : list Z) :
  Forall2 (fun i x => 0 <= i /\ l !! Z.to_nat i = Some x) (indices l) l.
Proof.
  unfold indices. apply Forall2_same_length_lookup_2.
  - rewrite length_seqZ. lia.
  - intros i j x Hi Hx. apply lookup_seqZ in Hi as [-> Hlt].
    split; [lia|]. by rewrite Z.add_0_l, Nat2Z.id.
Qed.

Lemma vec_at_lookup (f : world -> list Z) i w x :
  0 <= i -> f w !! Z.to_nat i = Some x -> vec_at f i w = Ret x w.
Proof.
  intros Hi Hx. unfold vec_at. rewrite Hx.
  apply lookup_lt_Some in Hx.
  destruct (Z.leb_spec 0 i); [|lia].
  destruct (Z.ltb_spec i (Z.of_nat (length (f w)))); [done|lia].
Qed.

Lemma flat_map_singleton {A B} (f : A -> B) (l : list A) :
  flat_map (fun x => [f x]) l = f <$> l.
Proof. induction l as [|x l IH]; csimpl; [done|by rewrite IH]. Qed.

Section Cleanup.

Variable driver : list event -> call -> reply.

(** A single driver call followed by its conditional warning. *)
Lemma call_then_warn (c : call) (d : diag) (w : world) :
  is_warning d = true ->
  (forall r, res r <> CUDA_SUCCESS -> warned c r [EvStderr d] = true) ->
  exists es,
    (result <- driver_call driver c ;;
     if negb (res result =? CUDA_SUCCESS) then cerr d else ret tt) w
      = Ret tt (emits es w) /\
    sweep [c] es.
Proof.
  intros Hd Hw. unfold_monad.
  destruct (Z.eqb_spec (res (driver (trace w) c)) CUDA_SUCCESS) as [Hok|Hfail]; simpl.
  - exists [EvCall c (driver (trace w) c)]. split; [done|].
    split; [done|]. split; [simpl; by rewrite Hok|]. by repeat constructor.
  - exists [EvCall c (driver (trace w) c); EvStderr d]. split.
    + unfold emit. by rewrite emits_emits.
    + split; [done|]. split; [|by repeat constructor].
      simpl. rewrite (Hw _ Hfail). by rewrite orb_true_r.
Qed.

(** One entry of the page map: both halves are unmapped, or the entry is
    passed over; a failure of either half is logged and the loop goes on. *)
Lemma unmap_entry_sweep mapping w :
  (length (k_tensors w) <= length (v_tensors w))%nat ->
  exists es,
    unmap_entry driver mapping w = Ret tt (emits es w) /\
    sweep (entry_unmap_calls w mapping) es.
Proof.
  intros Hlen. destruct mapping as [[[reqId req_offset] layer_idx] [k_page v_page]].
  unfold unmap_entry, entry_unmap_calls.
  assert (Hpos : 0 <= to_u64 layer_idx).
  { unfold to_u64, u64_mod. apply Z.mod_pos_bound. lia. }
  unfold bind at 1. unfold get at 1.
  destruct (Z.ltb_spec (to_u64 layer_idx) (Z.of_nat (length (k_tensors w)))) as [Hin|Hout].
  - destruct (lookup_lt_is_Some_2 (k_tensors w) (Z.to_nat (to_u64 layer_idx)))
      as [kcache_ptr Hk]; [lia|].
    destruct (lookup_lt_is_Some_2 (v_tensors w) (Z.to_nat (to_u64 layer_idx)))
      as [vcache_ptr Hv]; [lia|].
    rewrite Hk, Hv.
    unfold bind at 1. rewrite (vec_at_lookup k_tensors _ _ _ Hpos Hk).
    unfold bind at 1. rewrite (vec_at_lookup v_tensors _ _ _ Hpos Hv).
    destruct (negb (kcache_ptr =? 0) && negb (vcache_ptr =? 0)).
    + unfold_monad.
      set (ck := cuMemUnmap (u64_add kcache_ptr req_offset) (page_size w)).
      set (cv := cuMemUnmap (u64_add vcache_ptr req_offset) (page_size w)).
      set (rk := driver (trace w) ck).
      set (rv := driver (trace (emit (EvCall ck rk) w)) cv).
      destruct (Z.eqb_spec (res rk) CUDA_SUCCESS) as [Hrk|Hrk];
        destruct (Z.eqb_spec (res rv) CUDA_SUCCESS) as [Hrv|Hrv]; simpl.
      all: (eexists; split; [unfold emit; rewrite !emits_emits; reflexivity|]);
        (split; [done|]); (split; [|by repeat constructor]);
        unfold ck, cv; simpl; rewrite ?Hrk, ?Hrv, ?orb_true_r; done.
    + exists []. rewrite emits_nil. split; [done|apply sweep_nil].
  - rewrite (lookup_ge_None_2 (k_tensors w)) by lia.
    exists []. rewrite emits_nil. split; [done|apply sweep_nil].
Qed.

(** One layer of the second loop. *)
Lemma free_layer_sweep i k_ptr v_ptr w :
  0 <= i ->
  k_tensors w !! Z.to_nat i = Some k_ptr ->
  v_tensors w !! Z.to_nat i = Some v_ptr ->
  exists es,
    free_layer driver i w = Ret tt (emits es w) /\
    sweep (layer_free_calls w (k_ptr, v_ptr)) es.
Proof.
  intros Hi Hk Hv. unfold free_layer, layer_free_calls. simpl.
  unfold bind at 1. rewrite (vec_at_lookup k_tensors _ _ _ Hi Hk).
  unfold bind at 1. rewrite (vec_at_lookup v_tensors _ _ _ Hi Hv).
  unfold bind at 1. unfold get at 1.
  assert (Hfirst : exists es1,
    (if negb (k_ptr =? 0)
     then result <- driver_call driver (cuMemAddressFree k_ptr (virt_buff_size w)) ;;
          if negb (res result =? CUDA_SUCCESS) then cerr WarnFreeK else ret tt
     else ret tt) w = Ret tt (emits es1 w) /\
    sweep (if negb (k_ptr =? 0)
           then [cuMemAddressFree k_ptr (virt_buff_size w)] else []) es1).
  { destruct (negb (k_ptr =? 0)).
    - by apply call_then_warn.
    - exists []. rewrite emits_nil. split; [done|apply sweep_nil]. }
  destruct Hfirst as (es1 & Hrun1 & Hsw1).
  assert (Hsecond : exists es2,
    (if negb (v_ptr =? 0)
     then result <- driver_call driver (cuMemAddressFree v_ptr (virt_buff_size w)) ;;
          if negb (res result =? CUDA_SUCCESS) then cerr WarnFreeV else ret tt
     else ret tt) (emits es1 w) = Ret tt (emits es2 (emits es1 w)) /\
    sweep (if negb (v_ptr =? 0)
           then [cuMemAddressFree v_ptr (virt_buff_size w)] else []) es2).
  { destruct (negb (v_ptr =? 0)).
    - by apply call_then_warn.
    - exists []. rewrite emits_nil. split; [done|apply sweep_nil]. }
  destruct Hsecond as (es2 & Hrun2 & Hsw2).
  exists (es1 ++ es2). split; [|by apply sweep_app].
  rewrite (bind_Ret _ _ _ _ _ Hrun1), Hrun2. by rewrite emits_emits.
Qed.

(** One page of the third loop. *)
Lemma release_page_sweep i cuda_page w :
  0 <= i ->
  cuda_pages w !! Z.to_nat i = Some cuda_page ->
  exists es,
    release_page driver i w = Ret tt (emits es w) /\
    sweep [cuMemRelease cuda_page] es.
Proof.
  intros Hi Hp. unfold release_page.
  unfold bind at 1. rewrite (vec_at_lookup cuda_pages _ _ _ Hi Hp).
  unfold_monad.
  destruct (Z.eqb_spec (res (driver (trace w) (cuMemRelease cuda_page))) CUDA_SUCCESS)
    as [Hok|Hfail]; simpl.
  - eexists [_]. split; [done|].
    split; [done|]. split; [simpl; by rewrite Hok|]. by repeat constructor.
  - eexists [_; _]. split.
    + unfold emit. by rewrite emits_emits.
    + split; [done|]. split; [|by repeat constructor].
      simpl. by rewrite Z.eqb_refl, orb_true_r.
Qed.

(** The three phases, each as a sweep over the calls expected of it. *)
Lemma unmap_phase_sweep w :
  (length (k_tensors w) <= length (v_tensors w))%nat ->
  exists es,
    unmap_phase driver w = Ret tt (emits (es ++ [EvClear]) (set_cuda_pagemap ∅ w)) /\
    sweep (unmap_calls w) es.
Proof.
  intros Hlen. unfold unmap_phase.
  destruct (for_each_sweep (unmap_entry driver) (entry_unmap_calls w) w
              (map_to_list (cuda_pagemap w)) (map_to_list (cuda_pagemap w)))
    with (es0 := @nil event) as (es & Hrun & Hsw).
  { apply Forall_Forall2_diag, Forall_forall. intros mapping _ es0.
    destruct (unmap_entry_sweep mapping (emits es0 w)) as (es & Hrun & Hsw); [done|].
    exists es. rewrite emits_emits in Hrun. done. }
  rewrite emits_nil in Hrun. simpl in Hrun.
  exists es. split; [|done].
  unfold_monad. rewrite Hrun. unfold emit.
  by rewrite set_cuda_pagemap_emits, emits_emits.
Qed.

Lemma free_phase_sweep w :
  (length (k_tensors w) <= length (v_tensors w))%nat ->
  exists es,
    free_phase driver w = Ret tt (emits es w) /\ sweep (free_calls w) es.
Proof.
  intros Hlen. unfold free_phase, free_calls.
  destruct (for_each_sweep (free_layer driver) (layer_free_calls w) w
              (indices (k_tensors w)) (zip (k_tensors w) (v_tensors w)))
    with (es0 := @nil event) as (es & Hrun & Hsw).
  { unfold indices. apply Forall2_same_length_lookup_2.
    - rewrite length_seqZ, length_zip. lia.
    - intros n i [k_ptr v_ptr] Hi Hkv es0.
      apply lookup_seqZ in Hi as [-> Hn].
      apply lookup_zip_with_Some in Hkv as (? & ? & [= <- <-] & Hk & Hv).
      destruct (free_layer_sweep (0 + Z.of_nat n) k_ptr v_ptr (emits es0 w))
        as (es & Hrun & Hsw); [lia|simpl; by rewrite Z.add_0_l, Nat2Z.id..|].
      exists es. rewrite emits_emits in Hrun. done. }
  rewrite emits_nil in Hrun. simpl in Hrun.
  exists es. split; [|done]. unfold_monad. done.
Qed.

Lemma release_phase_sweep w :
  exists es,
    release_phase driver w = Ret tt (emits es w) /\ sweep (release_calls w) es.
Proof.
  unfold release_phase, release_calls.
  destruct (for_each_sweep (release_page driver) (fun p => [cuMemRelease p]) w
              (indices (cuda_pages w)) (cuda_pages w))
    with (es0 := @nil event) as (es & Hrun & Hsw).
  { eapply Forall2_impl; [apply indices_Forall2|].
    intros i cuda_page [Hi Hp] es0.
    destruct (release_page_sweep i cuda_page (emits es0 w)) as (es & Hrun & Hsw);
      [done..|].
    exists es. rewrite emits_emits in Hrun. done. }
  rewrite emits_nil in Hrun. simpl in Hrun.
  exists es. split; [by unfold_monad|].
  by rewrite <- flat_map_singleton.
Qed.

(** The whole cleanup: it returns, and its history is the unmap sweep, the
    clearing of the page map, the sweep over the virtual ranges and the
    sweep over the pool, in this order. *)
Lemma do_cuda_kvcache_cleanup_sweeps w :
  (length (k_tensors w) <= length (v_tensors w))%nat ->
  exists t1 t2 t3,
    do_cuda_kvcache_cleanup driver w
      = Ret tt (emits (t1 ++ [EvClear] ++ t2 ++ t3) (set_cuda_pagemap ∅ w)) /\
    sweep (unmap_calls w) t1 /\
    sweep (free_calls w) t2 /\
    sweep (release_calls w) t3.
Proof.
  intros Hlen. unfold do_cuda_kvcache_cleanup.
  destruct (unmap_phase_sweep w Hlen) as (t1 & Hrun1 & Hsw1).
  destruct (free_phase_sweep (emits (t1 ++ [EvClear]) (set_cuda_pagemap ∅ w)))
    as (t2 & Hrun2 & Hsw2); [done|].
  destruct (release_phase_sweep (emits t2 (emits (t1 ++ [EvClear]) (set_cuda_pagemap ∅ w))))
    as (t3 & Hrun3 & Hsw3).
  exists t1, t2, t3. split; [|done].
  unfold bind. rewrite Hrun1, Hrun2, Hrun3.
  rewrite !emits_emits. by rewrite <- !app_assoc.
Qed.

End Cleanup.

(** The calls expected of each phase are of the kind of that phase. *)
Lemma unmap_calls_kind w : forallb is_unmap (unmap_calls w) = true.
Proof.
  unfold unmap_calls. induction (map_to_list (cuda_pagemap w)) as [|m l IH]; simpl; [done|].
  rewrite forallb_app, IH, andb_true_r.
  destruct m as [[[reqId req_offset] layer_idx] [k_page v_page]]. simpl.
  repeat case_match; done.
Qed.

Lemma free_calls_kind w : forallb is_address_free (free_calls w) = true.
Proof.
  unfold free_calls. induction (zip (k_tensors w) (v_tensors w)) as [|m l IH]; simpl; [done|].
  rewrite forallb_app, IH, andb_true_r. unfold layer_free_calls.
  rewrite forallb_app. repeat case_match; done.
Qed.

Lemma release_calls_kind w : forallb is_release (release_calls w) = true.
Proof.
  unfold release_calls. induction (cuda_pages w) as [|p l IH]; csimpl; done.
Qed.

(** ** Properties of [do_cuda_kvcache_cleanup] *)

Lemma to_u64_int_nonneg z : is_int z -> 0 <= z -> to_u64 z = z.
Proof.
  unfold is_int, to_u64, u64_mod. intros [_ Hhi] Hlo.
  apply Z.mod_small. split; [done|].
  assert (2 ^ 31 < 2 ^ 64) by (apply Z.pow_lt_mono_r; lia). lia.
Qed.

(** C10. In the unmap loop, an entry whose layer index is not less than the
    number of layer tensors, or whose key or value base pointer is null, is
    passed over: the iteration issues no driver call, prints no warning and
    changes nothing.  The sweep as a whole issues exactly the unmap calls of
    the other entries, and when the phase is over the page map is empty, so
    the entries passed over are gone from it as well. *)
Theorem unmap_phase_skips_and_clears driver w reqId req_offset layer_idx k_page v_page :
  is_int layer_idx ->
  (length (k_tensors w) <= length (v_tensors w))%nat ->
  (passed_over w layer_idx ->
   unmap_entry driver ((reqId, req_offset, layer_idx), (k_page, v_page)) w = Ret tt w /\
   entry_unmap_calls w ((reqId, req_offset, layer_idx), (k_page, v_page)) = []) /\
  exists es,
    unmap_phase driver w = Ret tt (emits (es ++ [EvClear]) (set_cuda_pagemap ∅ w)) /\
    calls_of es = unmap_calls w /\
    cuda_pagemap (emits (es ++ [EvClear]) (set_cuda_pagemap ∅ w)) = ∅ /\
    cuda_pagemap (emits (es ++ [EvClear]) (set_cuda_pagemap ∅ w))
      !! (reqId, req_offset, layer_idx) = None.
Proof.
  intros Hint Hlen. split.
  - intros Hskip. unfold unmap_entry, entry_unmap_calls.
    unfold bind at 1. unfold get at 1.
    destruct Hskip as [Hout | (Hpos & kcache_ptr & vcache_ptr & Hk & Hv & Hnull)].
    + assert (Hu : to_u64 layer_idx = layer_idx) by (apply to_u64_int_nonneg; [done|lia]).
      rewrite Hu.
      destruct (Z.ltb_spec layer_idx (Z.of_nat (length (k_tensors w)))); [lia|].
      rewrite (lookup_ge_None_2 (k_tensors w)) by lia. done.
    + assert (Hu : to_u64 layer_idx = layer_idx) by (by apply to_u64_int_nonneg).
      rewrite Hu, Hk, Hv.
      pose proof (lookup_lt_Some _ _ _ Hk) as Hlt.
      destruct (Z.ltb_spec layer_idx (Z.of_nat (length (k_tensors w)))); [|lia].
      unfold bind at 1. rewrite (vec_at_lookup k_tensors _ _ _ Hpos Hk).
      unfold bind at 1. rewrite (vec_at_lookup v_tensors _ _ _ Hpos Hv).
      destruct Hnull as [-> | ->]; simpl; [done|].
      by rewrite andb_false_r.
  - destruct (unmap_phase_sweep driver w Hlen) as (es & Hrun & Hcalls & _).
    exists es. split; [done|]. split; [done|]. simpl. split; [done|].
    apply lookup_empty.
Qed.

Lemma unmap_phase_skips_and_clears_witness :
  unmap_entry (sim_driver never) ((7, 0, 5), (11, 12)) session_stray = Ret tt session_stray /\
  exists es,
    unmap_phase (sim_driver never) session_stray
      = Ret tt (emits (es ++ [EvClear]) (set_cuda_pagemap ∅ session_stray)) /\
    calls_of es = unmap_calls session_stray.
Proof.
  assert (Hint : is_int 5) by (unfold is_int; lia).
  assert (Hlen : (length (k_tensors session_stray) <= length (v_tensors session_stray))%nat)
    by (simpl; lia).
  destruct (unmap_phase_skips_and_clears (sim_driver never) session_stray 7 0 5 11 12
                                         Hint Hlen) as [Hskip (es & Hrun & Hcalls & _)].
  split.
  - apply Hskip. left. simpl. lia.
  - by exists es.
Defined.

(** C7. Whatever the driver answers, the cleanup returns: no failure inside
    any of its three phases ends the process.  The driver calls it attempts
    are the unmap calls of the page map, the frees of the virtual ranges and
    the releases of the pool, in this order, as read off the state it starts
    from: they do not depend on which calls fail, so a failed call keeps no
    other call of its phase or of a later phase from being attempted.  Every
    failed call is followed by its warning on [std::cerr], and the history
    holds nothing but these calls, the warnings and the clearing of the page
    map. *)
Theorem cleanup_tolerates_failures driver w :
  (length (k_tensors w) <= length (v_tensors w))%nat ->
  exists es,
    do_cuda_kvcache_cleanup driver w = Ret tt (emits es (set_cuda_pagemap ∅ w)) /\
    calls_of es = unmap_calls w ++ free_calls w ++ release_calls w /\
    failures_logged es = true /\
    Forall (fun e => housekeeping e = true \/ e = EvClear) es.
Proof.
  intros Hlen.
  destruct (do_cuda_kvcache_cleanup_sweeps driver w Hlen)
    as (t1 & t2 & t3 & Hrun & (Hc1 & Hl1 & Hq1) & (Hc2 & Hl2 & Hq2) & (Hc3 & Hl3 & Hq3)).
  exists (t1 ++ [EvClear] ++ t2 ++ t3). split; [done|]. split; [|split].
  - rewrite !calls_of_app. simpl. congruence.
  - apply failures_logged_app; [done|]. simpl. by apply failures_logged_app.
  - rewrite !Forall_app. repeat split.
    + eapply Forall_impl; [exact Hq1|]. intros e He. by left.
    + constructor; [by right|constructor].
    + eapply Forall_impl; [exact Hq2|]. intros e He. by left.
    + eapply Forall_impl; [exact Hq3|]. intros e He. by left.
Qed.

Lemma cleanup_tolerates_failures_witness :
  exists es,
    do_cuda_kvcache_cleanup (sim_driver fail_cleanup) session2
      = Ret tt (emits es (set_cuda_pagemap ∅ session2)) /\
    calls_of es = unmap_calls session2 ++ free_calls session2 ++ release_calls session2 /\
    failures_logged es = true /\
    Forall (fun e => housekeeping e = true \/ e = EvClear) es.
Proof.
  apply (cleanup_tolerates_failures (sim_driver fail_cleanup) session2).
  simpl. lia.
Defined.

(** The state [session_stray] is reached from the initialised session by one
    call of [map_cuda_pages] for layer 5. *)
Remark session_stray_reached :
  exists es,
    map_cuda_pages (sim_driver never) 7 5 0 4096 12288 11 12 session0
      = Ret tt (emits es session_stray).
Proof. eexists [_; _; _; _; _]. vm_compute. reflexivity. Qed.

(** C6, as stated, fails: with an entry recorded for a layer that has no
    tensor, the cleanup returns without a single [cuMemUnmap]; it goes
    straight to clearing the page map and freeing the four virtual ranges. *)
Lemma cleanup_unmaps_every_entry_counterexample :
  size (cuda_pagemap session_stray) = 1%nat /\
  do_cuda_kvcache_cleanup (sim_driver never) session_stray
    = Ret tt (emits [EvClear;
                     EvCall (cuMemAddressFree 4096 (64 * MiB2)) (mkReply 0 0);
                     EvCall (cuMemAddressFree 12288 (64 * MiB2)) (mkReply 0 0);
                     EvCall (cuMemAddressFree 8192 (64 * MiB2)) (mkReply 0 0);
                     EvCall (cuMemAddressFree 16384 (64 * MiB2)) (mkReply 0 0)]
                    (set_cuda_pagemap ∅ session_stray)) /\
  ~ unmaps_every_entry (sim_driver never) session_stray.
Proof.
  split; [reflexivity|]. split; [vm_compute; reflexivity|].
  intros (es & Hrun & Hcount).
  assert (Hes : es = [EvClear;
                      EvCall (cuMemAddressFree 4096 (64 * MiB2)) (mkReply 0 0);
                      EvCall (cuMemAddressFree 12288 (64 * MiB2)) (mkReply 0 0);
                      EvCall (cuMemAddressFree 8192 (64 * MiB2)) (mkReply 0 0);
                      EvCall (cuMemAddressFree 16384 (64 * MiB2)) (mkReply 0 0)]).
  { vm_compute in Hrun. injection Hrun as Hrun. symmetry. exact Hrun. }
  subst es. vm_compute in Hcount. discriminate.
Qed.

(** C6 (amended). The cleanup runs its three phases one after the other.
    Its history is: first the unmap sweep, which attempts [cuMemUnmap] of
    the key and of the value range of every recorded entry whose layer has
    tensors with non-null base pointers (the other entries are passed
    over), with nothing but [cuMemUnmap] calls and warnings; then the
    clearing of the page map; then the sweep that attempts
    [cuMemAddressFree] of every non-null key and value range of every layer;
    and last the sweep that attempts [cuMemRelease] of every handle of the
    pool.  Each phase has made all its attempts before the next begins. *)
Theorem cleanup_phase_order driver w :
  (length (k_tensors w) <= length (v_tensors w))%nat ->
  exists t1 t2 t3,
    do_cuda_kvcache_cleanup driver w
      = Ret tt (emits (t1 ++ [EvClear] ++ t2 ++ t3) (set_cuda_pagemap ∅ w)) /\
    (calls_of t1 = unmap_calls w /\ forallb is_unmap (calls_of t1) = true /\
     Forall (fun e => housekeeping e = true) t1) /\
    (calls_of t2 = free_calls w /\ forallb is_address_free (calls_of t2) = true /\
     Forall (fun e => housekeeping e = true) t2) /\
    (calls_of t3 = release_calls w /\ forallb is_release (calls_of t3) = true /\
     Forall (fun e => housekeeping e = true) t3).
Proof.
  intros Hlen.
  destruct (do_cuda_kvcache_cleanup_sweeps driver w Hlen)
    as (t1 & t2 & t3 & Hrun & (Hc1 & _ & Hq1) & (Hc2 & _ & Hq2) & (Hc3 & _ & Hq3)).
  exists t1, t2, t3. split; [done|].
  rewrite Hc1, Hc2, Hc3.
  repeat split; auto using unmap_calls_kind, free_calls_kind, release_calls_kind.
Qed.

Lemma cleanup_phase_order_witness :
  exists t1 t2 t3,
    do_cuda_kvcache_cleanup (sim_driver never) session2
      = Ret tt (emits (t1 ++ [EvClear] ++ t2 ++ t3) (set_cuda_pagemap ∅ session2)) /\
    (calls_of t1 = unmap_calls session2 /\ forallb is_unmap (calls_of t1) = true /\
     Forall (fun e => housekeeping e = true) t1) /\
    (calls_of t2 = free_calls session2 /\ forallb is_address_free (calls_of t2) = true /\
     Forall (fun e => housekeeping e = true) t2) /\
    (calls_of t3 = release_calls session2 /\ forallb is_release (calls_of t3) = true /\
     Forall (fun e => housekeeping e = true) t3).
Proof.
  apply (cleanup_phase_order (sim_driver never) session2).
  simpl. lia.
Defined.

(** ** Concurrent callers: every interleaving is a serial execution *)

(** *** The body in steps is the function *)

Lemma finish_body driver a w : finish driver a body w = call_of driver a w.
Proof.
  unfold call_of, map_cuda_pages, body, finish, exec_stmt, key_of, pages_of.
  unfold_monad.
  destruct (page_size w =? 0); simpl; [done|].
  destruct (negb (arg_req_offset a mod page_size w =? 0)); simpl; [done|].
  destruct ((arg_k_page a =? 0) || (arg_v_page a =? 0)); simpl; [done|].
  destruct ((arg_kcache_ptr a =? 0) || (arg_vcache_ptr a =? 0)); simpl; [done|].
  destruct (negb (desc_location_type (accessDesc w) =? CU_MEM_LOCATION_TYPE_DEVICE)
            || negb (desc_flags (accessDesc w) =? CU_MEM_ACCESS_FLAGS_PROT_READWRITE));
    simpl; [done|].
  destruct (cuda_pagemap w !! _); simpl; [done|].
  repeat (match goal with |- context [negb ?b] => destruct b; simpl end; try reflexivity).
Qed.

(** *** Bookkeeping of the threads that are not back yet *)

Lemma pending_spawn calls : pending ((fun a => (a, Waiting)) <$> calls) = calls.
Proof. unfold pending. induction calls as [|a l IH]; csimpl; [done|by rewrite IH]. Qed.

Lemma pending_all_finished ts :
  Forall (fun t => is_finished t.2 = true) ts -> pending ts = [].
Proof.
  unfold pending. induction 1 as [|[a s] ts Hs _ IH]; csimpl; [done|].
  simpl in Hs. by rewrite Hs.
Qed.

(** A thread that moves on without returning stays pending. *)
Lemma pending_insert_alive ts tid a s s' :
  ts !! tid = Some (a, s) -> is_finished s = false -> is_finished s' = false ->
  pending (<[tid := (a, s')]> ts) = pending ts.
Proof.
  intros Hl Hs Hs'.
  rewrite <- (take_drop_middle ts tid (a, s)) at 2 by done.
  rewrite insert_take_drop by (by eapply lookup_lt_Some).
  unfold pending. rewrite !omap_app. csimpl. by rewrite Hs, Hs'.
Qed.

(** A thread that returns leaves the pending calls. *)
Lemma pending_insert_finished ts tid a s :
  ts !! tid = Some (a, s) -> is_finished s = false ->
  pending ts ≡ₚ a :: pending (<[tid := (a, Finished)]> ts).
Proof.
  intros Hl Hs.
  rewrite <- (take_drop_middle ts tid (a, s)) at 1 by done.
  rewrite insert_take_drop by (by eapply lookup_lt_Some).
  unfold pending. rewrite !omap_app. csimpl. rewrite Hs.
  by rewrite Permutation_middle.
Qed.

Lemma serial_app driver l1 l2 w :
  serial driver (l1 ++ l2) w =
  match serial driver l1 w with
  | Ret _ w' => serial driver l2 w'
  | Exit s w' => Exit s w'
  | Undefined => Undefined
  end.
Proof.
  unfold serial. revert w. induction l1 as [|a l1 IH]; intros w; simpl; [done|].
  unfold bind. destruct (call_of driver a w); [apply IH|done..].
Qed.

Lemma serial_snoc driver l a w w' :
  serial driver l w = Ret tt w' ->
  serial driver (l ++ [a]) w = call_of driver a w'.
Proof.
  intros H. rewrite serial_app, H. unfold serial. simpl. unfold bind, ret.
  by destruct (call_of driver a w') as [[] ?| |].
Qed.

(** *** The invariant holds in every reachable state *)

Section Serializable.

Variable driver : list event -> call -> reply.

Variable w0 : world.

Variable calls : list map_args.

Lemma serial_inv_spawn : serial_inv driver w0 calls (Running (spawn w0 calls)).
Proof.
  exists []. simpl. rewrite pending_spawn. split; [done|]. split; [|done].
  intros j t Hj. apply list_lookup_fmap_Some in Hj as (a & -> & _). done.
Qed.

(** The thread that steps inside the function is the one the invariant
    knows as the holder of the mutex. *)
Lemma holder_unique c tid a todo :
  serial_inv driver w0 calls (Running c) ->
  threads c !! tid = Some (a, Holding todo) ->
  memory_mapping_mutex c = true /\
  exists returned w_mid,
    returned ++ pending (threads c) ≡ₚ calls /\
    only_holder tid (threads c) /\
    serial driver returned w0 = Ret tt w_mid /\
    finish driver a todo (shared c) = call_of driver a w_mid.
Proof.
  intros (returned & Hperm & Hinv) Hl.
  destruct (memory_mapping_mutex c).
  - destruct Hinv as (tid' & a' & todo' & w_mid & Hl' & Hothers & Hser & Hfin).
    destruct (decide (tid = tid')) as [<-|Hne].
    + rewrite Hl in Hl'. injection Hl' as <- <-. split; [done|]. by exists returned, w_mid.
    + specialize (Hothers tid _ Hne Hl). done.
  - destruct Hinv as [Hnone _]. specialize (Hnone tid _ Hl). done.
Qed.

Lemma only_holder_insert tid ts t :
  only_holder tid ts -> only_holder tid (<[tid := t]> ts).
Proof.
  intros H j t' Hne Hj. rewrite list_lookup_insert_ne in Hj by done. by eapply H.
Qed.

Lemma no_holder_insert tid ts t :
  only_holder tid ts -> is_holding t.2 = false -> no_holder (<[tid := t]> ts).
Proof.
  intros H Ht j t' Hj. destruct (decide (j = tid)) as [->|Hne].
  - apply list_lookup_insert_Some in Hj as [(_ & <- & _)|[? _]]; done.
  - rewrite list_lookup_insert_ne in Hj by done. by eapply H.
Qed.

Lemma step_serial_inv tid c m :
  serial_inv driver w0 calls (Running c) -> step driver tid c = Some m -> serial_inv driver w0 calls m.
Proof.
  intros Hinv Hstep. unfold step in Hstep.
  destruct (threads c !! tid) as [[a [|todo|]]|] eqn:Hl; [| |done..].
  - (* the thread takes the free mutex *)
    destruct Hinv as (returned & Hperm & Hinv).
    destruct (memory_mapping_mutex c); [done|].
    injection Hstep as <-. destruct Hinv as [Hnone Hser].
    exists returned. simpl. split.
    { by rewrite (pending_insert_alive _ _ _ _ _ Hl). }
    exists tid, a, body, (shared c). split; [|split; [|split]].
    + apply list_lookup_insert_eq. by eapply lookup_lt_Some.
    + intros j t Hne Hj. rewrite list_lookup_insert_ne in Hj by done. by eapply Hnone.
    + done.
    + apply finish_body.
  - (* the thread is the holder *)
    destruct (holder_unique _ _ _ _ Hinv Hl)
      as (Hm & returned & w_mid & Hperm & Hothers & Hser & Hfin).
    destruct todo as [|s todo].
    + (* it returns and unlocks *)
      injection Hstep as <-.
      exists (returned ++ [a]). simpl. split; [|split].
      * rewrite <- Hperm, <- app_assoc. simpl.
        by rewrite (pending_insert_finished _ _ _ _ Hl).
      * by apply no_holder_insert.
      * rewrite (serial_snoc _ _ _ _ _ Hser). by rewrite <- Hfin.
    + (* it runs its next statement *)
      simpl in Hfin. unfold bind in Hfin.
      destruct (exec_stmt driver a s (shared c)) as [continue w'|status w'|];
        injection Hstep as <-.
      * exists returned. simpl. rewrite Hm. split.
        { by rewrite (pending_insert_alive _ _ _ _ _ Hl). }
        exists tid, a, (if continue then todo else []), w_mid.
        split; [|split; [|split]].
        -- apply list_lookup_insert_eq. by eapply lookup_lt_Some.
        -- by apply only_holder_insert.
        -- done.
        -- by destruct continue.
      * exists returned, a, (pending (<[tid := (a, Finished)]> (threads c))), w_mid.
        split; [|done].
        by rewrite <- Hperm, (pending_insert_finished _ _ _ _ Hl).
      * exists returned, a, (pending (<[tid := (a, Finished)]> (threads c))), w_mid.
        split; [|done].
        by rewrite <- Hperm, (pending_insert_finished _ _ _ _ Hl).
Qed.

Lemma run_serial_inv schedule m m' :
  serial_inv driver w0 calls m -> run driver schedule m = Some m' -> serial_inv driver w0 calls m'.
Proof.
  revert m. induction schedule as [|tid schedule IH]; intros m Hinv Hrun; simpl in Hrun.
  - by injection Hrun as <-.
  - destruct m as [c| |]; [|done..].
    destruct (step driver tid c) as [m1|] eqn:Hstep; [|done].
    eapply IH; [|done]. by eapply step_serial_inv.
Qed.

(** At most one thread is inside the function, and one is exactly while
    the mutex is taken. *)
Lemma serial_inv_exclusion c :
  serial_inv driver w0 calls (Running c) ->
  (forall i j ti tj,
     threads c !! i = Some ti -> threads c !! j = Some tj ->
     is_holding ti.2 = true -> is_holding tj.2 = true -> i = j) /\
  (memory_mapping_mutex c = false -> no_holder (threads c)).
Proof.
  intros (returned & _ & Hinv). destruct (memory_mapping_mutex c).
  - destruct Hinv as (tid & a & todo & w_mid & Hl & Hothers & _). split; [|done].
    intros i j ti tj Hi Hj Hti Htj.
    destruct (decide (i = tid)) as [->|Hi']; [|by rewrite (Hothers i ti Hi' Hi) in Hti].
    destruct (decide (j = tid)) as [->|Hj']; [done|].
    by rewrite (Hothers j tj Hj' Hj) in Htj.
  - destruct Hinv as [Hnone _]. split; [|done].
    intros i j ti tj Hi Hj Hti Htj. by rewrite (Hnone i ti Hi) in Hti.
Qed.

(** The process is never stuck before every thread is back. *)
Lemma serial_inv_progress c :
  serial_inv driver w0 calls (Running c) ->
  all_finished c \/ exists tid m, step driver tid c = Some m.
Proof.
  intros (returned & _ & Hinv). unfold step.
  destruct (memory_mapping_mutex c) eqn:Hm.
  - right. destruct Hinv as (tid & a & todo & w_mid & Hl & _).
    exists tid. rewrite Hl. destruct todo as [|s todo]; [eauto|].
    destruct (exec_stmt driver a s (shared c)); eauto.
  - destruct Hinv as [Hnone _].
    destruct (decide (Forall (fun t : map_args * tstate => is_finished t.2 = true) (threads c)))
      as [Hall|Hnot]; [by left|right].
    apply not_Forall_Exists in Hnot; [|apply _].
    apply Exists_exists in Hnot as ([a s] & Hin & Hs).
    apply list_elem_of_lookup in Hin as [tid Hl].
    exists tid. rewrite Hl. specialize (Hnone _ _ Hl).
    destruct s; simpl in *; [eauto|done|done].
Qed.

(** When every thread is back, the shared state is the one a serial
    execution of the calls, in the order in which they returned,
    produces. *)
Lemma serial_inv_finished c :
  serial_inv driver w0 calls (Running c) -> all_finished c ->
  exists order, order ≡ₚ calls /\ serial driver order w0 = Ret tt (shared c).
Proof.
  intros (returned & Hperm & Hinv) Hall.
  rewrite (pending_all_finished _ Hall), app_nil_r in Hperm.
  exists returned. split; [done|].
  destruct (memory_mapping_mutex c); [|apply Hinv].
  destruct Hinv as (tid & a & todo & w_mid & Hl & _).
  unfold all_finished in Hall. rewrite Forall_lookup in Hall.
  by specialize (Hall _ _ Hl).
Qed.

End Serializable.

(** *** Serial executions *)

Lemma recorded_lookup_other m l k :
  k ∉ key_of <$> l -> recorded m l !! k = m !! k.
Proof.
  revert m. induction l as [|a l IH]; intros m Hk; simpl; [done|].
  rewrite fmap_cons, not_elem_of_cons in Hk. destruct Hk as [Hne Hk].
  rewrite IH by done. by rewrite lookup_insert_ne.
Qed.

Lemma recorded_lookup m l a :
  NoDup (key_of <$> l) -> a ∈ l -> recorded m l !! key_of a = Some (pages_of a).
Proof.
  revert m. induction l as [|b l IH]; intros m Hnd Hin; [by apply elem_of_nil in Hin|].
  rewrite fmap_cons in Hnd. apply NoDup_cons in Hnd as [Hb Hnd]. simpl.
  apply elem_of_cons in Hin as [->|Hin]; [|by apply IH].
  rewrite recorded_lookup_other by done. apply lookup_insert_eq.
Qed.

Lemma recorded_size m l :
  NoDup (key_of <$> l) -> (forall a, a ∈ l -> m !! key_of a = None) ->
  size (recorded m l) = (size m + length l)%nat.
Proof.
  revert m. induction l as [|b l IH]; intros m Hnd Hfresh; simpl; [lia|].
  rewrite fmap_cons in Hnd. apply NoDup_cons in Hnd as [Hb Hnd].
  rewrite IH; [|done|].
  - rewrite map_size_insert_None; [lia|]. apply Hfresh. by left.
  - intros a Ha. rewrite lookup_insert_ne; [apply Hfresh; by right|].
    intros Heq. apply Hb. rewrite Heq. by apply list_elem_of_fmap_2.
Qed.

(** No key is bound by two of the binders, and none of their keys was
    recorded before. *)
Lemma binders_distinct m l :
  NoDup (key_of <$> binders m l) /\
  forall a, a ∈ binders m l -> m !! key_of a = None.
Proof.
  revert m. induction l as [|a l IH]; intros m; simpl.
  - split; [constructor|]. intros a Ha. by apply elem_of_nil in Ha.
  - destruct (m !! key_of a) eqn:Hk; [apply IH|].
    destruct (IH (<[key_of a := pages_of a]> m)) as [Hnd Hnew].
    split.
    + rewrite fmap_cons. apply NoDup_cons. split; [|done].
      intros Hin. apply list_elem_of_fmap in Hin as (b & Hkb & Hb).
      specialize (Hnew b Hb). rewrite <- Hkb, lookup_insert_eq in Hnew. done.
    + intros b Hb. apply elem_of_cons in Hb as [->|Hb]; [done|].
      specialize (Hnew b Hb).
      destruct (decide (key_of a = key_of b)) as [Heq|Hne].
      * by rewrite Heq, lookup_insert_eq in Hnew.
      * by rewrite lookup_insert_ne in Hnew.
Qed.

(** Calls with pairwise distinct keys, none recorded before, all bind. *)
Lemma binders_all m l :
  NoDup (key_of <$> l) -> (forall a, a ∈ l -> m !! key_of a = None) ->
  binders m l = l.
Proof.
  revert m. induction l as [|a l IH]; intros m Hnd Hfresh; simpl; [done|].
  rewrite fmap_cons in Hnd. apply NoDup_cons in Hnd as [Ha Hnd].
  rewrite Hfresh by (by left). f_equal. apply IH; [done|].
  intros b Hb. rewrite lookup_insert_ne; [apply Hfresh; by right|].
  intros Heq. apply Ha. rewrite Heq. by apply list_elem_of_fmap_2.
Qed.

Section SerialRuns.

Variable driver : list event -> call -> reply.

Hypothesis driver_succeeds : forall h c, res (driver h c) = CUDA_SUCCESS.

(** With a driver that succeeds, the first call for a key returns after its
    four driver calls and the write of its entry. *)
Lemma call_of_fresh w a :
  page_size w <> 0 -> valid_call w a -> cuda_pagemap w !! key_of a = None ->
  exists es,
    call_of driver a w
      = Ret tt (emits es (set_cuda_pagemap (<[key_of a := pages_of a]> (cuda_pagemap w)) w)) /\
    calls_of es = bind_calls w a /\
    records_of es = [entry_of a].
Proof.
  intros Hps Hvalid Hfresh. unfold call_of.
  rewrite map_cuda_pages_fresh by done. simpl.
  rewrite !driver_succeeds. simpl.
  unfold emit. rewrite !set_cuda_pagemap_emits, !emits_emits.
  eexists. split; [reflexivity|]. split; reflexivity.
Qed.

(** Calls that pass the checks, run one after the other: each call whose
    key has no entry yet binds and records, in the order of the list, and
    each other call does nothing. *)
Lemma serial_binders l w :
  page_size w <> 0 ->
  (forall a, a ∈ l -> valid_call w a) ->
  let bound := binders (cuda_pagemap w) l in
  exists es,
    serial driver l w
      = Ret tt (emits es (set_cuda_pagemap (recorded (cuda_pagemap w) bound) w)) /\
    calls_of es = flat_map (bind_calls w) bound /\
    records_of es = entry_of <$> bound.
Proof.
  revert w. induction l as [|a l IH]; intros w Hps Hall; simpl.
  - exists []. rewrite emits_nil. split; [|done].
    unfold serial. simpl. unfold ret. f_equal. by destruct w.
  - assert (Ha : valid_call w a) by (apply Hall; by left).
    destruct (cuda_pagemap w !! key_of a) as [p|] eqn:Hk.
    + destruct (IH w) as (es & Hrun & Hcalls & Hrecs); [done|by intros b Hb; apply Hall; right|].
      exists es. split; [|done].
      unfold serial in *. simpl. unfold bind, call_of.
      rewrite map_cuda_pages_present; [done..|]. exists p. exact Hk.
    + destruct (call_of_fresh w a Hps Ha Hk) as (es1 & Hrun1 & Hcalls1 & Hrecs1).
      set (w1 := emits es1 (set_cuda_pagemap (<[key_of a := pages_of a]> (cuda_pagemap w)) w))
        in *.
      destruct (IH w1) as (es2 & Hrun2 & Hcalls2 & Hrecs2);
        [done|by intros b Hb; apply Hall; right|].
      exists (es1 ++ es2). split; [|split].
      * unfold serial in *. simpl. unfold bind. rewrite Hrun1, Hrun2.
        unfold w1. simpl. by rewrite set_cuda_pagemap_emits, emits_emits.
      * rewrite calls_of_app, Hcalls1, Hcalls2. done.
      * rewrite records_of_app, Hrecs1, Hrecs2. done.
Qed.

End SerialRuns.

Lemma call_slots_bind_calls w l :
  call_slots (flat_map (bind_calls w) l) = flat_map slots_of l.
Proof. induction l as [|a l IH]; simpl; [done|]. by rewrite <- IH. Qed.

(** C8, as stated, fails in its last part: two threads whose keys differ in
    the request only are two threads with distinct keys, and each of them
    binds its own page into the slot at 4096 (and at 12288).  With a backend
    that accepts the second bind both threads return, the page map has its
    two entries, and the slot has been bound twice, with pages 11 and 13;
    with a backend that refuses it, the process ends in the second thread
    and the page map never gets its second entry. *)
Lemma concurrent_same_slot_counterexample :
  NoDup (key_of <$> [caller_a; caller_c]) /\
  (exists c,
     run (sim_driver never) schedule_ab (Running (spawn session0 [caller_a; caller_c]))
       = Some (Running c) /\
     all_finished c /\
     size (cuda_pagemap (shared c)) = 2%nat /\
     cuMemMap 4096 MiB2 0 11 0 ∈ calls_of (trace (shared c)) /\
     cuMemMap 4096 MiB2 0 13 0 ∈ calls_of (trace (shared c)) /\
     ~ NoDup (bound_slots (trace (shared c)))) /\
  (exists w,
     run strict_driver schedule_ab_map (Running (spawn session0 [caller_a; caller_c]))
       = Some (Exited 1 w) /\
     size (cuda_pagemap w) = 1%nat).
Proof.
  split; [|split].
  - apply NoDup_cons. split; [|apply NoDup_singleton].
    intros Hin. apply list_elem_of_singleton in Hin. discriminate Hin.
  - eexists. split; [vm_compute; reflexivity|].
    split; [by repeat constructor|].
    split; [vm_compute; reflexivity|].
    split; [vm_compute; apply list_elem_of_here|].
    split; [vm_compute; do 4 apply list_elem_of_further; apply list_elem_of_here|].
    vm_compute. intros Hnd. apply NoDup_cons in Hnd as [Hnotin _].
    apply Hnotin. do 1 apply list_elem_of_further. apply list_elem_of_here.
  - eexists. split; [vm_compute; reflexivity|]. vm_compute. reflexivity.
Qed.

(** C8 (amended). Threads that call [map_cuda_pages] concurrently with
    arguments that pass the checks, and a driver that does not fail.  Every
    thread takes [memory_mapping_mutex] before the first statement of the
    body and gives it back when it returns, so in every state that any
    interleaving can reach: the process has not ended; at most one thread is
    inside the body, and none while the mutex is free; and some thread can
    step unless all are back.  When all are back, the history is the history
    of the calls run one after the other in some order: the four driver
    calls and the write of the entry of one call, then those of the next,
    never mixed, and no key has been bound by two threads, whether the keys
    of the threads collide or not.  When the keys are pairwise distinct and
    not recorded before, every call has bound its two pages exactly once,
    the page map has one new entry per thread, and each key is recorded with
    the pages of its own call; when moreover the calls address pairwise
    distinct virtual slots, no slot has been bound twice. *)
Theorem concurrent_map_cuda_pages driver w0 calls schedule m :
  (forall h c, res (driver h c) = CUDA_SUCCESS) ->
  page_size w0 <> 0 ->
  (forall a, a ∈ calls -> valid_call w0 a) ->
  run driver schedule (Running (spawn w0 calls)) = Some m ->
  exists c,
    m = Running c /\
    (forall i j ti tj,
       threads c !! i = Some ti -> threads c !! j = Some tj ->
       is_holding ti.2 = true -> is_holding tj.2 = true -> i = j) /\
    (memory_mapping_mutex c = false -> no_holder (threads c)) /\
    (all_finished c \/ exists tid m', step driver tid c = Some m') /\
    (all_finished c ->
     exists order es,
       let bound := binders (cuda_pagemap w0) order in
       order ≡ₚ calls /\
       shared c = emits es (set_cuda_pagemap (recorded (cuda_pagemap w0) bound) w0) /\
       calls_of es = flat_map (bind_calls w0) bound /\
       records_of es = entry_of <$> bound /\
       NoDup (key_of <$> bound) /\
       (NoDup (key_of <$> calls) ->
        (forall a, a ∈ calls -> cuda_pagemap w0 !! key_of a = None) ->
        bound = order /\
        size (cuda_pagemap (shared c)) = (size (cuda_pagemap w0) + length calls)%nat /\
        (forall a, a ∈ calls -> cuda_pagemap (shared c) !! key_of a = Some (pages_of a)) /\
        (NoDup (flat_map slots_of calls) -> NoDup (bound_slots es)))).
Proof.
  intros Hok Hps Hvalid Hrun.
  pose proof (run_serial_inv driver w0 calls _ _ _ (serial_inv_spawn driver w0 calls) Hrun)
    as Hinv.
  (* a serial execution of some of the calls does not end the process *)
  assert (Hsub : forall returned a rest,
             returned ++ a :: rest ≡ₚ calls ->
             exists w', serial driver (returned ++ [a]) w0 = Ret tt w').
  { intros returned a rest Hperm.
    destruct (serial_binders driver Hok (returned ++ [a]) w0) as (es & Hser & _);
      [done| |eauto].
    intros b Hb. apply Hvalid.
    rewrite <- Hperm. rewrite elem_of_app in Hb. rewrite elem_of_app, elem_of_cons.
    destruct Hb as [?|Hb]; [by left|]. apply list_elem_of_singleton in Hb. auto. }
  destruct m as [c|status w'|].
  - exists c. split; [done|].
    destruct (serial_inv_exclusion driver w0 calls c Hinv) as [Hexcl Hfree].
    split; [done|]. split; [done|].
    split; [by eapply serial_inv_progress|].
    intros Hall.
    destruct (serial_inv_finished driver w0 calls c Hinv Hall) as (order & Hperm & Hser).
    destruct (serial_binders driver Hok order w0) as (es & Hser' & Hcalls & Hrecs);
      [done|by intros a Ha; apply Hvalid; rewrite <- Hperm|].
    rewrite Hser in Hser'. injection Hser' as Hshared.
    exists order, es. simpl.
    split; [done|]. split; [done|]. split; [done|]. split; [done|].
    split; [apply binders_distinct|].
    intros Hnd Hfresh.
    assert (Hbound : binders (cuda_pagemap w0) order = order).
    { apply binders_all; [by rewrite Hperm|]. intros a Ha. apply Hfresh. by rewrite <- Hperm. }
    split; [done|]. rewrite Hshared, Hbound. simpl. split; [|split].
    + rewrite recorded_size.
      * by rewrite Hperm.
      * by rewrite Hperm.
      * intros a Ha. rewrite Hperm in Ha. auto.
    + intros a Ha. apply recorded_lookup; [by rewrite Hperm|by rewrite Hperm].
    + intros Hslots. unfold bound_slots.
      rewrite Hcalls, Hbound, call_slots_bind_calls. by rewrite Hperm.
  - destruct Hinv as (returned & a & rest & w_mid & Hperm & Hser & Hexit).
    destruct (Hsub _ _ _ Hperm) as [w'' Hret].
    rewrite (serial_snoc _ _ _ _ _ Hser) in Hret. congruence.
  - destruct Hinv as (returned & a & rest & w_mid & Hperm & Hser & Hundef).
    destruct (Hsub _ _ _ Hperm) as [w'' Hret].
    rewrite (serial_snoc _ _ _ _ _ Hser) in Hret. congruence.
Qed.

Lemma concurrent_map_cuda_pages_witness :
  exists c,
    run (sim_driver never) schedule_ba (Running (spawn session0 [caller_a; caller_b]))
      = Some (Running c) /\
    all_finished c /\
    size (cuda_pagemap (shared c)) = 2%nat /\
    cuda_pagemap (shared c) !! key_of caller_a = Some (pages_of caller_a) /\
    cuda_pagemap (shared c) !! key_of caller_b = Some (pages_of caller_b) /\
    NoDup (bound_slots (trace (shared c))).
Proof.
  assert (Hok : forall h c, res (sim_driver never h c) = CUDA_SUCCESS) by done.
  assert (Hps : page_size session0 <> 0) by (vm_compute; discriminate).
  assert (Hvalid : forall a, a ∈ [caller_a; caller_b] -> valid_call session0 a).
  { intros a Ha. apply elem_of_cons in Ha as [->|Ha];
      [|apply list_elem_of_singleton in Ha as ->];
      unfold valid_call, preconditions; vm_compute; repeat split; discriminate. }
  assert (Hnd : NoDup (key_of <$> [caller_a; caller_b])).
  { apply NoDup_cons. split; [|apply NoDup_singleton].
    intros Hin. apply list_elem_of_singleton in Hin. discriminate Hin. }
  assert (Hfresh : forall a, a ∈ [caller_a; caller_b] ->
                             cuda_pagemap session0 !! key_of a = None).
  { intros a _. apply lookup_empty. }
  assert (Hslots : NoDup (flat_map slots_of [caller_a; caller_b])).
  { apply (bool_decide_unpack (NoDup _)). vm_compute. exact I. }
  destruct (run (sim_driver never) schedule_ba (Running (spawn session0 [caller_a; caller_b])))
    as [m|] eqn:Hrun; [|vm_compute in Hrun; discriminate].
  destruct (concurrent_map_cuda_pages (sim_driver never) session0 [caller_a; caller_b]
                                      schedule_ba m Hok Hps Hvalid Hrun)
    as (c & -> & _ & _ & _ & Hresult).
  exists c. split; [done|].
  assert (Hall : all_finished c).
  { vm_compute in Hrun. injection Hrun as <-. by repeat constructor. }
  split; [done|].
  destruct (Hresult Hall) as (order & es & _ & Hshared & _ & _ & _ & Hdistinct).
  destruct (Hdistinct Hnd Hfresh) as (_ & Hsize & Hlookup & Hbound).
  split; [exact Hsize|].
  split; [apply Hlookup; by left|].
  split; [apply Hlookup; by right; left|].
  rewrite Hshared. simpl. by apply Hbound.
Defined.

(** ** Further properties of [reserve_cuda_pages] *)

(** The loop again, with the handles: the pool grows by exactly the handles
    the driver handed out, in the order of the calls, and the history grows
    by nothing but successful [cuMemCreate] calls (and, when the process
    ends, the failed one with its diagnostic). *)
Lemma reserve_loop_handles driver num_phys_blocks page_size w :
  let missing := Z.to_nat (num_phys_blocks - Z.of_nat (length (cuda_pages w))) in
  let create := cuMemCreate page_size (prop w) 0 in
  let good := fun e => exists r, e = EvCall create r /\ res r = CUDA_SUCCESS in
  match reserve_loop driver num_phys_blocks page_size w with
  | Ret _ w' =>
      exists es,
        w' = grown (created es) es w /\ length es = missing /\ Forall good es
  | Exit s w' =>
      s = 1 /\
      exists es r,
        w' = grown (created es)
                   (es ++ [EvCall create r; EvStderr (DiagCheckCuda create (res r))]) w /\
        res r <> CUDA_SUCCESS /\ (length es < missing)%nat /\ Forall good es
  | Undefined => False
  end.
Proof.
  funelim (reserve_loop driver num_phys_blocks page_size w); simpl;
    repeat match goal with
           | H : @eq (sigma _) _ _ |- _ => clear H
           | H : _ = reserve_loop _ _ _ _ |- _ => clear H
           end.
  - match goal with H : (_ <? _) = false |- _ => apply Z.ltb_ge in H end.
    exists []. simpl. rewrite grown_nil.
    replace (Z.to_nat _) with 0%nat by lia. done.
  - apply Z.ltb_lt in Hlt.
    apply CHECK_CUDA_Ret_inv in Hcreate as (Hr & Hres & ->).
    match goal with Hrec : match reserve_loop _ _ _ _ with _ => _ end |- _ =>
      rename Hrec into IH end.
    simpl in IH. rewrite length_app in IH. simpl in IH.
    set (missing := Z.to_nat (num_phys_blocks - Z.of_nat (length (cuda_pages w)))).
    replace (Z.to_nat (num_phys_blocks - Z.of_nat (length (cuda_pages w) + 1)))
      with (pred missing) in IH by (unfold missing; lia).
    assert (Hmissing : missing = S (pred missing)) by (unfold missing; lia).
    destruct (reserve_loop _ _ _ _) as [[] w'|s w'|]; [| |done].
    + destruct IH as (es & -> & Hlen & Hgood).
      exists (EvCall (cuMemCreate page_size0 (prop w) 0) cuda_page :: es). split; [|split].
      * unfold grown, emit, emits, set_cuda_pages, set_trace. simpl.
        by rewrite <- !app_assoc.
      * simpl. lia.
      * constructor; [eauto|done].
    + destruct IH as (-> & es & r & -> & Hr' & Hlen & Hgood).
      split; [done|].
      exists (EvCall (cuMemCreate page_size0 (prop w) 0) cuda_page :: es), r. split; [|split; [|split]].
      * unfold grown, emit, emits, set_cuda_pages, set_trace. simpl.
        by rewrite <- !app_assoc.
      * done.
      * simpl. lia.
      * constructor; [eauto|done].
  - apply Z.ltb_lt in Hlt.
    match goal with H : CHECK_CUDA _ _ _ = Exit _ _ |- _ =>
      apply CHECK_CUDA_Exit_inv in H as (-> & Hres & ->) end.
    split; [done|]. eexists [], _.
    split; [|split; [exact Hres|split; [simpl; lia|constructor]]].
    unfold grown, emit, emits, set_cuda_pages, set_trace. simpl.
    by rewrite <- !app_assoc, app_nil_r.
  - match goal with H : CHECK_CUDA _ _ _ = Undefined |- _ =>
      by apply CHECK_CUDA_defined in H end.
Qed.

Lemma created_app t1 t2 : created (t1 ++ t2) = created t1 ++ created t2.
Proof. unfold created. apply omap_app. Qed.

(** A history of successful [cuMemCreate] calls hands out one handle per
    call and holds no other call. *)
Lemma created_good create es :
  is_create create = true ->
  Forall (fun e => exists r, e = EvCall create r /\ res r = CUDA_SUCCESS) es ->
  length (created es) = length es /\
  calls_of es = replicate (length es) create.
Proof.
  intros Hc. induction 1 as [|e es (r & -> & _) _ [IH1 IH2]]; [done|].
  destruct create; try done. simpl. rewrite IH1, IH2. done.
Qed.

(** What a call of [reserve_cuda_pages] leaves behind, in each way it can
    end. *)
Lemma reserve_cuda_pages_outcome driver get_num_phys_blocks num_layers free_memory
      page_size w :
  let target := get_num_phys_blocks num_layers free_memory page_size in
  let missing := Z.to_nat (target - Z.of_nat (length (cuda_pages w))) in
  let create := cuMemCreate page_size (prop w) 0 in
  let good := fun e => exists r, e = EvCall create r /\ res r = CUDA_SUCCESS in
  match reserve_cuda_pages driver get_num_phys_blocks num_layers free_memory page_size w with
  | Ret n w' =>
      exists es,
        w' = grown (created es) (EvLog target page_size :: es) w /\
        length es = missing /\ Forall good es /\
        n = Z.of_nat (length (cuda_pages w ++ created es))
  | Exit s w' =>
      s = 1 /\
      exists es r,
        w' = grown (created es)
                   (EvLog target page_size :: es ++
                    [EvCall create r; EvStderr (DiagCheckCuda create (res r))]) w /\
        res r <> CUDA_SUCCESS /\ (length es < missing)%nat /\ Forall good es
  | Undefined => False
  end.
Proof.
  intros target missing create good.
  pose proof (reserve_loop_handles driver target page_size (emit (EvLog target page_size) w))
    as Hloop.
  simpl in Hloop. fold missing create good in Hloop.
  unfold reserve_cuda_pages. unfold_monad. fold target.
  destruct (reserve_loop driver target page_size (emit (EvLog target page_size) w))
    as [[] w1|s w1|]; [| |done].
  - destruct Hloop as (es & -> & Hlen & Hgood).
    exists es. rewrite grown_after_log. done.
  - destruct Hloop as (-> & es & r & -> & Hr & Hlen & Hgood).
    split; [done|]. exists es, r. rewrite grown_after_log. done.
Qed.

(** X1. Whenever [reserve_cuda_pages] returns, the handles it has appended
    to the pool are exactly the handles the driver handed out for its
    [cuMemCreate] calls, in the order of the calls and behind the handles
    that were there; every one of these calls succeeded and the history of
    the call holds nothing else but the log line. *)
Theorem reserve_cuda_pages_handles driver get_num_phys_blocks num_layers free_memory
        page_size w n w' :
  reserve_cuda_pages driver get_num_phys_blocks num_layers free_memory page_size w
    = Ret n w' ->
  let target := get_num_phys_blocks num_layers free_memory page_size in
  exists es,
    trace w' = trace w ++ EvLog target page_size :: es /\
    cuda_pages w' = cuda_pages w ++ created es /\
    length (created es) = Z.to_nat (target - Z.of_nat (length (cuda_pages w))) /\
    calls_of es = replicate (length es) (cuMemCreate page_size (prop w) 0) /\
    Forall (fun e => exists r, e = EvCall (cuMemCreate page_size (prop w) 0) r /\
                               res r = CUDA_SUCCESS) es /\
    n = Z.of_nat (length (cuda_pages w')).
Proof.
  intros Hret target.
  pose proof (reserve_cuda_pages_outcome driver get_num_phys_blocks num_layers free_memory
                                         page_size w) as Hout.
  simpl in Hout. rewrite Hret in Hout.
  destruct Hout as (es & -> & Hlen & Hgood & Hn).
  destruct (created_good (cuMemCreate page_size (prop w) 0) es eq_refl Hgood) as [Hl Hc].
  exists es. simpl. repeat split; try done. by rewrite Hl.
Qed.

Lemma reserve_cuda_pages_handles_witness :
  exists w' es,
    reserve_cuda_pages (sim_driver never) three_pages 2 (64 * MiB2) MiB2 session0
      = Ret 3 w' /\
    trace w' = trace session0 ++ EvLog 3 MiB2 :: es /\
    cuda_pages w' = cuda_pages session0 ++ created es /\
    cuda_pages w' = [101; 102; 103].
Proof.
  edestruct (reserve_cuda_pages_handles (sim_driver never) three_pages 2 (64 * MiB2) MiB2
                                        session0 3) as (es & Htrace & Hpool & _);
    [vm_compute; reflexivity|].
  eexists _, es. split; [vm_compute; reflexivity|].
  split; [exact Htrace|]. split; [exact Hpool|reflexivity].
Defined.

(** X2. When [reserve_cuda_pages] ends the process, it is on a failed
    [cuMemCreate], with status 1.  The handles created before the failure
    are in the pool, behind the ones that were there; nothing has been
    released: the history of the call holds the log line, the successful
    creations, the failed one and its diagnostic, and the page map is as it
    was. *)
Theorem reserve_cuda_pages_failure driver get_num_phys_blocks num_layers free_memory
        page_size w s w' :
  reserve_cuda_pages driver get_num_phys_blocks num_layers free_memory page_size w
    = Exit s w' ->
  let target := get_num_phys_blocks num_layers free_memory page_size in
  let create := cuMemCreate page_size (prop w) 0 in
  s = 1 /\
  exists es r,
    trace w' = trace w ++ EvLog target page_size :: es ++
                 [EvCall create r; EvStderr (DiagCheckCuda create (res r))] /\
    res r <> CUDA_SUCCESS /\
    cuda_pages w' = cuda_pages w ++ created es /\
    length (created es) = length es /\
    (Z.of_nat (length (cuda_pages w')) < target) /\
    calls_of (es ++ [EvCall create r]) = replicate (S (length es)) create /\
    cuda_pagemap w' = cuda_pagemap w /\
    Forall (fun e => exists r0, e = EvCall create r0 /\ res r0 = CUDA_SUCCESS) es.
Proof.
  intros Hexit target create.
  pose proof (reserve_cuda_pages_outcome driver get_num_phys_blocks num_layers free_memory
                                         page_size w) as Hout.
  simpl in Hout. rewrite Hexit in Hout.
  destruct Hout as (-> & es & r & -> & Hr & Hlen & Hgood).
  destruct (created_good create es eq_refl Hgood) as [Hl Hc].
  split; [done|]. exists es, r. simpl.
  split; [done|]. split; [done|]. split; [done|]. split; [done|].
  split; [rewrite length_app, Hl; fold target; lia|].
  split; [|split; [done|exact Hgood]].
  rewrite calls_of_app, Hc. simpl.
  change (create :: replicate (length es) create) with (replicate (S (length es)) create).
  by rewrite replicate_S_end.
Qed.

Lemma reserve_cuda_pages_failure_witness :
  exists w' es r,
    reserve_cuda_pages sim_two_pages three_pages 2 (64 * MiB2) MiB2 session0 = Exit 1 w' /\
    res r <> CUDA_SUCCESS /\
    cuda_pages w' = cuda_pages session0 ++ created es /\
    length (cuda_pages w') = 2%nat.
Proof.
  edestruct (reserve_cuda_pages_failure sim_two_pages three_pages 2 (64 * MiB2) MiB2
                                        session0 1)
    as (_ & es & r & _ & Hr & Hpool & _); [vm_compute; reflexivity|].
  eexists _, es, r. split; [vm_compute; reflexivity|].
  split; [exact Hr|]. split; [exact Hpool|reflexivity].
Defined.

(** X3. Calls of [reserve_cuda_pages] in a row, with whatever arguments:
    when they have all returned, the pool is as long as the largest of its
    first size and all the targets, the handles that were in the pool are
    still its first handles, and the handles behind them are those the
    driver handed out during the calls, in order.  The pool never shrinks
    and never loses or reorders a handle. *)
Theorem reserve_all_high_water driver get_num_phys_blocks requests w w' :
  reserve_all driver get_num_phys_blocks requests w = Ret tt w' ->
  Z.of_nat (length (cuda_pages w'))
    = high_water get_num_phys_blocks (Z.of_nat (length (cuda_pages w))) requests /\
  exists es,
    trace w' = trace w ++ es /\
    cuda_pages w' = cuda_pages w ++ created es /\
    forallb is_create (calls_of es) = true.
Proof.
  revert w. induction requests as [|[[nl fm] ps] requests IH]; intros w Hret.
  - injection Hret as <-. split; [done|]. exists []. by rewrite !app_nil_r.
  - unfold reserve_all in Hret. simpl in Hret. unfold bind at 1 2 in Hret.
    pose proof (reserve_cuda_pages_outcome driver get_num_phys_blocks nl fm ps w) as Hout.
    simpl in Hout.
    destruct (reserve_cuda_pages driver get_num_phys_blocks nl fm ps w)
      as [n w1|s w1|]; [|done..].
    destruct Hout as (es1 & -> & Hlen & Hgood & _).
    destruct (created_good (cuMemCreate ps (prop w) 0) es1 eq_refl Hgood) as [Hl Hc].
    unfold ret in Hret. apply IH in Hret as (Hsize & es2 & Htrace & Hpool & Hkind).
    simpl in *. split.
    + rewrite Hsize. f_equal. rewrite length_app, Hl, Hlen. lia.
    + exists (EvLog (get_num_phys_blocks nl fm ps) ps :: es1 ++ es2).
      split; [by rewrite Htrace, <- app_assoc|].
      split.
      { rewrite Hpool, <- app_assoc. f_equal.
        change (created (EvLog (get_num_phys_blocks nl fm ps) ps :: es1 ++ es2))
          with (created (es1 ++ es2)).
        by rewrite created_app. }
      change (calls_of (EvLog (get_num_phys_blocks nl fm ps) ps :: es1 ++ es2))
        with (calls_of (es1 ++ es2)).
      rewrite calls_of_app, forallb_app, Hc, Hkind, andb_true_r.
      clear. induction (length es1); simpl; done.
Qed.

Lemma reserve_all_high_water_witness :
  exists w',
    reserve_all (sim_driver never) page_per_layer [(3, 0, MiB2); (1, 0, MiB2); (4, 0, MiB2)]
                session0 = Ret tt w' /\
    Z.of_nat (length (cuda_pages w')) = 4.
Proof.
  eexists. split; [vm_compute; reflexivity|].
  apply (reserve_all_high_water (sim_driver never) page_per_layer
                                [(3, 0, MiB2); (1, 0, MiB2); (4, 0, MiB2)] session0).
  vm_compute. reflexivity.
Defined.

(** ** Further properties of [map_cuda_pages] *)

Lemma preconditions_dec w req_offset kcache_ptr vcache_ptr k_page v_page :
  {preconditions w req_offset kcache_ptr vcache_ptr k_page v_page} +
  {~ preconditions w req_offset kcache_ptr vcache_ptr k_page v_page}.
Proof.
  unfold preconditions.
  destruct (decide (req_offset mod page_size w = 0)); [|right; tauto].
  destruct (decide (k_page = 0)); [right; tauto|].
  destruct (decide (v_page = 0)); [right; tauto|].
  destruct (decide (kcache_ptr = 0)); [right; tauto|].
  destruct (decide (vcache_ptr = 0)); [right; tauto|].
  destruct (decide (desc_location_type (accessDesc w) = CU_MEM_LOCATION_TYPE_DEVICE));
    [|right; tauto].
  destruct (decide (desc_flags (accessDesc w) = CU_MEM_ACCESS_FLAGS_PROT_READWRITE));
    [|right; tauto].
  left. tauto.
Qed.

(** With a page size of zero the alignment check divides by zero. *)
Lemma map_cuda_pages_page_size driver reqId layer_idx req_offset kcache_ptr vcache_ptr
      k_page v_page w :
  map_cuda_pages driver reqId layer_idx req_offset kcache_ptr vcache_ptr k_page v_page w
    <> Undefined ->
  page_size w <> 0.
Proof.
  intros Hdef Hz. apply Hdef. unfold map_cuda_pages. unfold_monad. by rewrite Hz.
Qed.

(** What a call that ends the process has done: either it has failed a
    check, and has written the diagnostic of the check and nothing else; or
    it has passed the checks, found its key unrecorded, and has been refused
    one of its four driver calls after the calls before that one had
    succeeded. *)
Lemma map_cuda_pages_Exit_inv driver reqId layer_idx req_offset kcache_ptr vcache_ptr
      k_page v_page w s w' :
  map_cuda_pages driver reqId layer_idx req_offset kcache_ptr vcache_ptr k_page v_page w
    = Exit s w' ->
  let a := mkArgs reqId layer_idx req_offset kcache_ptr vcache_ptr k_page v_page in
  s = 1 /\ page_size w <> 0 /\
  ((~ preconditions w req_offset kcache_ptr vcache_ptr k_page v_page /\
    exists d,
      w' = emits ([] ++ [EvStderr d]) w /\
      d ∈ [DiagMisaligned req_offset (page_size w); DiagInvalidHandle k_page v_page;
           DiagInvalidPointers; DiagAccessDesc]) \/
   (preconditions w req_offset kcache_ptr vcache_ptr k_page v_page /\
    cuda_pagemap w !! (reqId, req_offset, layer_idx) = None /\
    exists es c r d,
      w' = emits ((es ++ [EvCall c r]) ++ [EvStderr d]) w /\
      res r <> CUDA_SUCCESS /\
      Forall (fun e => exists c r, e = EvCall c r /\ res r = CUDA_SUCCESS) es /\
      (calls_of es ++ [c]) `prefix_of` bind_calls w a /\
      d ∈ [DiagMapFailedK (res r) (u64_add kcache_ptr req_offset);
           DiagMapFailedV (res r) (u64_add vcache_ptr req_offset);
           DiagCheckCuda c (res r)])).
Proof.
  intros Hexit a.
  assert (Hps : page_size w <> 0).
  { eapply map_cuda_pages_page_size. rewrite Hexit. discriminate. }
  destruct (preconditions_dec w req_offset kcache_ptr vcache_ptr k_page v_page)
    as [Hpre|Hpre].
  - destruct (cuda_pagemap w !! (reqId, req_offset, layer_idx)) as [p|] eqn:Hk.
    { rewrite map_cuda_pages_present in Hexit; [discriminate|done|done|].
      rewrite Hk. eauto. }
    pose proof (map_cuda_pages_fresh driver reqId layer_idx req_offset kcache_ptr vcache_ptr
                                     k_page v_page w Hps Hpre Hk) as Hrun.
    cbv zeta in Hrun. rewrite Hrun in Hexit. clear Hrun.
    unfold emit in Hexit. rewrite ?emits_emits in Hexit.
    repeat match type of Hexit with
           | context [negb (res ?r =? CUDA_SUCCESS)] =>
               destruct (Z.eqb_spec (res r) CUDA_SUCCESS); simpl in Hexit
           end; [discriminate| | | |];
      injection Hexit as <- <-; (split; [done|]); (split; [done|]); right;
      (split; [done|]); (split; [done|]).
    + eexists [_; _; _], _, _, _. split; [reflexivity|]. split; [eassumption|].
      split; [repeat constructor; eauto|].
      split; [by exists []|]. set_solver.
    + eexists [_; _], _, _, _. split; [reflexivity|]. split; [eassumption|].
      split; [repeat constructor; eauto|].
      split; [by eexists [_]|]. set_solver.
    + eexists [_], _, _, _. split; [reflexivity|]. split; [eassumption|].
      split; [repeat constructor; eauto|].
      split; [by eexists [_; _]|]. set_solver.
    + eexists [], _, _, _. split; [reflexivity|]. split; [eassumption|].
      split; [constructor|].
      split; [by eexists [_; _; _]|]. set_solver.
  - destruct (map_cuda_pages_violation driver reqId layer_idx req_offset kcache_ptr
                                       vcache_ptr k_page v_page w Hps Hpre)
      as (d & Hd & Hin).
    rewrite Hd in Hexit. injection Hexit as <- <-.
    split; [done|]. split; [done|]. left. split; [done|]. by exists d.
Qed.

(** X4. What a call of [map_cuda_pages] can and cannot do, however it ends
    (by returning, or by ending the process on a failed check or a refused
    driver call).  It leaves the pool, the descriptors, the page size and
    the tensors alone; it removes no entry of the page map and changes none;
    the only driver calls it issues are those of its own bind, in order,
    from the first one on; and the entry is written only together with all
    four of them.  A call that returns has either found its key recorded and
    done nothing, or has issued all four calls and written its entry, once.
    A call that ends the process does so with status 1 and has written
    nothing: the page map is as it was. *)
Theorem map_cuda_pages_frame driver reqId layer_idx req_offset kcache_ptr vcache_ptr
        k_page v_page w w' :
  final (map_cuda_pages driver reqId layer_idx req_offset kcache_ptr vcache_ptr
                        k_page v_page w) = Some w' ->
  let a := mkArgs reqId layer_idx req_offset kcache_ptr vcache_ptr k_page v_page in
  same_session w w' /\ cuda_pages w' = cuda_pages w /\
  cuda_pagemap w ⊆ cuda_pagemap w' /\
  exists es,
    trace w' = trace w ++ es /\
    calls_of es `prefix_of` bind_calls w a /\
    match map_cuda_pages driver reqId layer_idx req_offset kcache_ptr vcache_ptr
                         k_page v_page w with
    | Ret _ _ =>
        (is_Some (cuda_pagemap w !! key_of a) /\
         es = [] /\ cuda_pagemap w' = cuda_pagemap w) \/
        (cuda_pagemap w !! key_of a = None /\
         cuda_pagemap w' = <[key_of a := pages_of a]> (cuda_pagemap w) /\
         calls_of es = bind_calls w a /\
         records_of es = [entry_of a])
    | Exit status _ =>
        status = 1 /\ cuda_pagemap w' = cuda_pagemap w /\ records_of es = []
    | Undefined => False
    end.
Proof.
  intros Hfinal a.
  destruct (map_cuda_pages driver reqId layer_idx req_offset kcache_ptr vcache_ptr
                           k_page v_page w) as [[] w1|s w1|] eqn:Hrun;
    simpl in Hfinal; [| |discriminate]; injection Hfinal as ->.
  - destruct (map_cuda_pages_Ret_inv _ _ _ _ _ _ _ _ _ _ Hrun)
      as [[Hin ->] | (Hnone & es & -> & Hcalls & Hrec)].
    + split; [by repeat split|]. split; [done|]. split; [done|].
      exists []. rewrite app_nil_r. split; [done|].
      split; [apply prefix_nil|]. by left.
    + split; [by repeat split|]. split; [done|].
      split; [by apply insert_subseteq|].
      exists es. split; [done|]. split; [by rewrite Hcalls|]. by right.
  - destruct (map_cuda_pages_Exit_inv _ _ _ _ _ _ _ _ _ _ _ Hrun)
      as (-> & _ & [(_ & d & -> & _)
                   | (_ & _ & es & c & r & d & -> & _ & Hgood & Hpre & _)]).
    + split; [by repeat split|]. split; [done|]. split; [done|].
      eexists. split; [reflexivity|]. split; [apply prefix_nil|]. done.
    + split; [by repeat split|]. split; [done|]. split; [done|].
      eexists. split; [reflexivity|].
      rewrite !calls_of_app, !records_of_app. simpl. rewrite app_nil_r.
      split; [done|]. split; [done|]. split; [done|].
      rewrite !app_nil_r. clear -Hgood.
      induction Hgood as [|e es (c0 & r0 & -> & _) _ IH]; simpl; done.
Qed.

Lemma map_cuda_pages_frame_witness :
  exists w',
    map_cuda_pages (sim_driver fail_set_access) 7 1 MiB2 8192 16384 13 14 session1
      = Exit 1 w' /\
    cuda_pagemap w' = cuda_pagemap session1 /\
    cuda_pages w' = cuda_pages session1.
Proof.
  assert (Hrun : exists w',
             map_cuda_pages (sim_driver fail_set_access) 7 1 MiB2 8192 16384 13 14 session1
               = Exit 1 w') by (eexists; vm_compute; reflexivity).
  destruct Hrun as [w' Hrun].
  destruct (map_cuda_pages_frame (sim_driver fail_set_access) 7 1 MiB2 8192 16384 13 14
                                 session1 w')
    as (_ & Hpool & _ & es & _ & _ & Hcase); [by rewrite Hrun|].
  rewrite Hrun in Hcase. destruct Hcase as (_ & Hmap & _).
  exists w'. split; [exact Hrun|]. split; [exact Hmap|exact Hpool].
Defined.

(** ** Further properties of [do_cuda_default_init] *)

(** X5. The ways [do_cuda_default_init] ends the process.  The status is 1.
    The history of the call is one, two or three driver calls, the first
    ones of [cuInit], [cuCtxGetCurrent] and the granularity query, followed
    by one diagnostic: that of the last call when the driver refused it,
    the missing context after two accepted calls when the current context
    is null, or the granularity mismatch after three.  The pool and the page
    map are untouched, and so are the descriptors unless the function got
    as far as the granularity query. *)
Theorem do_cuda_default_init_failure driver device page_size w s w' :
  do_cuda_default_init driver device page_size w = Exit s w' ->
  s = 1 /\ cuda_pages w' = cuda_pages w /\ cuda_pagemap w' = cuda_pagemap w /\
  exists es d,
    trace w' = trace w ++ es ++ [EvStderr d] /\
    es <> [] /\ length (calls_of es) = length es /\
    calls_of es `prefix_of`
      [cuInit 0; cuCtxGetCurrent;
       cuMemGetAllocationGranularity
         (mkProp CU_MEM_ALLOCATION_TYPE_PINNED CU_MEM_LOCATION_TYPE_DEVICE device)
         CU_MEM_ALLOC_GRANULARITY_MINIMUM] /\
    ((length es < 3)%nat -> prop w' = prop w /\ accessDesc w' = accessDesc w) /\
    match d with
    | DiagCheckCuda c r => r <> CUDA_SUCCESS /\ last (calls_of es) = Some c
    | DiagNoContext => length es = 2%nat /\ ctx w' = 0
    | DiagGranularityMismatch wanted got =>
        wanted = page_size /\ got <> page_size /\ length es = 3%nat
    | _ => False
    end.
Proof.
  intros Hexit.
  pose proof (do_cuda_default_init_run driver device page_size w) as Hrun.
  cbv zeta in Hrun. rewrite Hrun in Hexit. clear Hrun.
  destruct (Z.eqb_spec (res (driver (trace w) (cuInit 0))) CUDA_SUCCESS) as [H1|H1];
    simpl in Hexit.
  2:{ injection Hexit as <- <-. repeat (split; [done|]).
      simpl in *. rewrite <- ?app_assoc in *.
      eexists [EvCall _ _], _.
      split; [reflexivity|]. split; [done|]. split; [done|].
      split; [by eexists [_; _]|]. done. }
  match type of Hexit with context [negb (res ?r =? CUDA_SUCCESS)] =>
    destruct (Z.eqb_spec (res r) CUDA_SUCCESS) as [H2|H2]; simpl in Hexit end.
  2:{ injection Hexit as <- <-. repeat (split; [done|]).
      simpl in *. rewrite <- ?app_assoc in *.
      eexists [EvCall _ _; EvCall _ _], _.
      split; [reflexivity|]. split; [done|]. split; [done|].
      split; [by eexists [_]|]. done. }
  match type of Hexit with context [out ?r =? 0] =>
    destruct (Z.eqb_spec (out r) 0) as [H3|H3]; simpl in Hexit end.
  { injection Hexit as <- <-. repeat (split; [done|]).
      simpl in *. rewrite <- ?app_assoc in *.
    eexists [EvCall _ _; EvCall _ _], _.
    split; [reflexivity|]. split; [done|]. split; [done|].
    split; [by eexists [_]|]. done. }
  match type of Hexit with context [negb (res ?r =? CUDA_SUCCESS)] =>
    destruct (Z.eqb_spec (res r) CUDA_SUCCESS) as [H4|H4]; simpl in Hexit end.
  2:{ injection Hexit as <- <-. repeat (split; [done|]).
      simpl in *. rewrite <- ?app_assoc in *.
      eexists [EvCall _ _; EvCall _ _; EvCall _ _], _.
      split; [reflexivity|]. split; [done|]. split; [done|].
      split; [by exists []|]. split; [intros Hlt; simpl in Hlt; lia|]. done. }
  match type of Hexit with context [negb (out ?r =? page_size)] =>
    destruct (Z.eqb_spec (out r) page_size) as [H5|H5]; simpl in Hexit end;
    [discriminate|].
  injection Hexit as <- <-. repeat (split; [done|]).
      simpl in *. rewrite <- ?app_assoc in *.
  eexists [EvCall _ _; EvCall _ _; EvCall _ _], _.
  split; [reflexivity|]. split; [done|]. split; [done|].
  split; [by exists []|]. split; [intros Hlt; simpl in Hlt; lia|]. done.
Qed.

Lemma do_cuda_default_init_failure_witness :
  exists w',
    do_cuda_default_init (sim_driver never) 0 4096 fresh_process = Exit 1 w' /\
    cuda_pages w' = cuda_pages fresh_process /\
    cuda_pagemap w' = cuda_pagemap fresh_process.
Proof.
  eexists. split; [vm_compute; reflexivity|].
  edestruct (do_cuda_default_init_failure (sim_driver never) 0 4096 fresh_process 1)
    as (_ & Hpool & Hmap & _); [vm_compute; reflexivity|].
  split; [exact Hpool|exact Hmap].
Defined.

(** What a returning [do_cuda_default_init] leaves behind: the current
    context, which is not null, the allocation properties and the access
    descriptor of the device, and three driver calls in the history. *)
Lemma do_cuda_default_init_Ret_inv driver device page_size w g w1 :
  do_cuda_default_init driver device page_size w = Ret g w1 ->
  let p := mkProp CU_MEM_ALLOCATION_TYPE_PINNED CU_MEM_LOCATION_TYPE_DEVICE device in
  exists r1 r2 r3,
    w1 = emits [EvCall (cuInit 0) r1; EvCall cuCtxGetCurrent r2;
                EvCall (cuMemGetAllocationGranularity p CU_MEM_ALLOC_GRANULARITY_MINIMUM) r3]
               (set_accessDesc (mkAccessDesc CU_MEM_LOCATION_TYPE_DEVICE device
                                             CU_MEM_ACCESS_FLAGS_PROT_READWRITE)
                               (set_prop p (set_ctx (out r2) w))) /\
    out r2 <> 0 /\ g = out r3 /\ out r3 = page_size.
Proof.
  intros Hret p.
  pose proof (do_cuda_default_init_run driver device page_size w) as Hrun.
  cbv zeta in Hrun. rewrite Hrun in Hret. clear Hrun.
  repeat match type of Hret with
         | context [negb (res ?r =? CUDA_SUCCESS)] =>
             destruct (Z.eqb_spec (res r) CUDA_SUCCESS); simpl in Hret; [|discriminate]
         | context [out ?r =? 0] =>
             destruct (Z.eqb_spec (out r) 0); simpl in Hret; [discriminate|]
         | context [negb (out ?r =? page_size)] =>
             destruct (Z.eqb_spec (out r) page_size); simpl in Hret; [|discriminate]
         end.
  injection Hret as <- <-. eexists _, _, _. split; [|done].
  unfold emit, emits, set_trace, set_accessDesc, set_prop, set_ctx. simpl.
  by rewrite <- !app_assoc.
Qed.

(** X6. [map_cuda_pages] depends on the initialisation.  Take a call whose
    offset is aligned and whose handles and pointers are not null.  In a
    process whose access descriptor is still zeroed it ends the process with
    the descriptor diagnostic, before any driver call.  Once
    [do_cuda_default_init] has returned, the call passes all four checks,
    and the only way for it to end the process is that the driver refuses
    one of the calls of the bind. *)
Theorem map_cuda_pages_needs_init driver device granule reqId layer_idx req_offset
        kcache_ptr vcache_ptr k_page v_page w :
  page_size w <> 0 ->
  req_offset mod page_size w = 0 ->
  k_page <> 0 -> v_page <> 0 -> kcache_ptr <> 0 -> vcache_ptr <> 0 ->
  let call := map_cuda_pages driver reqId layer_idx req_offset kcache_ptr vcache_ptr
                             k_page v_page in
  (accessDesc w = zero_accessDesc ->
   call w = Exit 1 (emit (EvStderr DiagAccessDesc) w)) /\
  (forall g w1,
     do_cuda_default_init driver device granule w = Ret g w1 ->
     preconditions w1 req_offset kcache_ptr vcache_ptr k_page v_page /\
     cuda_pagemap w1 = cuda_pagemap w /\
     forall s w2,
       call w1 = Exit s w2 ->
       exists es c r d,
         trace w2 = trace w1 ++ es ++ [EvCall c r; EvStderr d] /\
         res r <> CUDA_SUCCESS /\ is_bind c = true).
Proof.
  intros Hps Hal Hk Hv Hkp Hvp call. split.
  - intros Hzero. unfold call, map_cuda_pages. unfold_monad.
    destruct (Z.eqb_spec (page_size w) 0); simpl; [done|].
    rewrite Hal. simpl.
    destruct (Z.eqb_spec k_page 0); simpl; [done|].
    destruct (Z.eqb_spec v_page 0); simpl; [done|].
    destruct (Z.eqb_spec kcache_ptr 0); simpl; [done|].
    destruct (Z.eqb_spec vcache_ptr 0); simpl; [done|].
    by rewrite Hzero.
  - intros g w1 Hinit.
    destruct (do_cuda_default_init_Ret_inv _ _ _ _ _ _ Hinit) as (r1 & r2 & r3 & -> & _).
    assert (Hpre : preconditions
                     (emits [EvCall (cuInit 0) r1; EvCall cuCtxGetCurrent r2;
                             EvCall (cuMemGetAllocationGranularity
                                       (mkProp CU_MEM_ALLOCATION_TYPE_PINNED
                                               CU_MEM_LOCATION_TYPE_DEVICE device)
                                       CU_MEM_ALLOC_GRANULARITY_MINIMUM) r3]
                            (set_accessDesc
                               (mkAccessDesc CU_MEM_LOCATION_TYPE_DEVICE device
                                             CU_MEM_ACCESS_FLAGS_PROT_READWRITE)
                               (set_prop (mkProp CU_MEM_ALLOCATION_TYPE_PINNED
                                                 CU_MEM_LOCATION_TYPE_DEVICE device)
                                         (set_ctx (out r2) w))))
                     req_offset kcache_ptr vcache_ptr k_page v_page)
      by (by repeat split).
    split; [done|]. split; [done|].
    intros s w2 Hexit.
    destruct (map_cuda_pages_Exit_inv _ _ _ _ _ _ _ _ _ _ _ Hexit)
      as (_ & _ & [[Hno _] | (_ & _ & es & c & r & d & -> & Hr & _ & Hpref & _)]);
      [done|].
    exists es, c, r, d. split; [|split; [done|]].
    + cbn [trace emits set_trace]. by rewrite <- !app_assoc.
    + destruct Hpref as [rest Hrest].
      assert (Hin : c ∈ bind_calls
                          (emits [EvCall (cuInit 0) r1; EvCall cuCtxGetCurrent r2;
                             EvCall (cuMemGetAllocationGranularity
                                       (mkProp CU_MEM_ALLOCATION_TYPE_PINNED
                                               CU_MEM_LOCATION_TYPE_DEVICE device)
                                       CU_MEM_ALLOC_GRANULARITY_MINIMUM) r3]
                            (set_accessDesc
                               (mkAccessDesc CU_MEM_LOCATION_TYPE_DEVICE device
                                             CU_MEM_ACCESS_FLAGS_PROT_READWRITE)
                               (set_prop (mkProp CU_MEM_ALLOCATION_TYPE_PINNED
                                                 CU_MEM_LOCATION_TYPE_DEVICE device)
                                         (set_ctx (out r2) w))))
                          (mkArgs reqId layer_idx req_offset kcache_ptr vcache_ptr
                                  k_page v_page)).
      { rewrite Hrest. set_solver. }
      unfold bind_calls in Hin. simpl in Hin.
      repeat (apply elem_of_cons in Hin as [->|Hin]; [done|]).
      by apply elem_of_nil in Hin.
Qed.

Lemma map_cuda_pages_needs_init_witness :
  map_cuda_pages (sim_driver never) 7 0 0 4096 12288 11 12 fresh_process
    = Exit 1 (emit (EvStderr DiagAccessDesc) fresh_process) /\
  exists g w1,
    do_cuda_default_init (sim_driver never) 0 MiB2 fresh_process = Ret g w1 /\
    preconditions w1 0 4096 12288 11 12.
Proof.
  assert (H : page_size fresh_process <> 0) by (vm_compute; discriminate).
  assert (Hal : 0 mod page_size fresh_process = 0) by reflexivity.
  pose proof (map_cuda_pages_needs_init (sim_driver never) 0 MiB2 7 0 0 4096 12288 11 12
                                        fresh_process H Hal
                                        ltac:(discriminate) ltac:(discriminate)
                                        ltac:(discriminate) ltac:(discriminate))
    as [Hbefore Hafter].
  split; [exact (Hbefore eq_refl)|].
  eexists _, _. split; [vm_compute; reflexivity|].
  apply Hafter with (g := MiB2). vm_compute. reflexivity.
Defined.

(** X7. Initialisation followed by a reservation, through the dispatching
    entry points [do_cuda_init] and [reserve_gpu_pages] and with the default
    backend.  When both return, the history of the two calls is: the three
    driver calls of the initialisation, the last of which reported the page
    size as the granularity of the device; the log line; and one
    [cuMemCreate] per new page, each for one page of that size, pinned on
    the device given to the initialisation.  The handles created are at the
    end of the pool, and the value returned is the size of the pool, the
    larger of its old size and the target. *)
Theorem init_then_reserve driver get_num_phys_blocks is_uvm_backend do_cuda_uvm_init
        reserve_uvm_pages device page_size num_layers free_memory w n w' :
  is_uvm_backend page_size = false ->
  (do_cuda_init driver is_uvm_backend do_cuda_uvm_init device page_size ;;;
   reserve_gpu_pages driver get_num_phys_blocks is_uvm_backend reserve_uvm_pages
                     num_layers free_memory page_size) w = Ret n w' ->
  let p := mkProp CU_MEM_ALLOCATION_TYPE_PINNED CU_MEM_LOCATION_TYPE_DEVICE device in
  let target := get_num_phys_blocks num_layers free_memory page_size in
  exists r1 r2 r3 es,
    trace w' = trace w ++
                 [EvCall (cuInit 0) r1; EvCall cuCtxGetCurrent r2;
                  EvCall (cuMemGetAllocationGranularity p CU_MEM_ALLOC_GRANULARITY_MINIMUM)
                         r3] ++
                 EvLog target page_size :: es /\
    out r3 = page_size /\
    calls_of es = replicate (length es) (cuMemCreate page_size p 0) /\
    cuda_pages w' = cuda_pages w ++ created es /\
    length (created es) = length es /\
    n = Z.of_nat (length (cuda_pages w')) /\
    n = Z.max (Z.of_nat (length (cuda_pages w))) target.
Proof.
  intros Huvm Hret p target. unfold bind in Hret.
  rewrite do_cuda_init_default in Hret by done.
  unfold reserve_gpu_pages in Hret. rewrite Huvm in Hret.
  destruct (do_cuda_default_init driver device page_size w) as [g w1|s w1|] eqn:Hinit;
    [|done..].
  destruct (do_cuda_default_init_Ret_inv _ _ _ _ _ _ Hinit)
    as (r1 & r2 & r3 & -> & _ & _ & Hg).
  match type of Hret with
  | reserve_cuda_pages _ _ _ _ _ ?w1 = _ =>
      pose proof (reserve_cuda_pages_outcome driver get_num_phys_blocks num_layers
                                             free_memory page_size w1) as Hout
  end.
  cbv zeta in Hout. rewrite Hret in Hout.
  destruct Hout as (es & -> & Hlen & Hgood & ->).
  destruct (created_good (cuMemCreate page_size p 0) es eq_refl Hgood) as [Hl Hc].
  exists r1, r2, r3, es. simpl in *.
  split; [by rewrite <- !app_assoc|]. split; [done|]. split; [done|].
  split; [done|]. split; [done|]. split; [done|].
  rewrite length_app, Hl, Hlen. fold target. lia.
Qed.

Lemma init_then_reserve_witness :
  exists w',
    (do_cuda_init (sim_driver never) (fun _ => false) (fun _ _ => ret 0) 0 MiB2 ;;;
     reserve_gpu_pages (sim_driver never) three_pages (fun _ => false) (fun _ _ _ => ret 0)
                       2 (64 * MiB2) MiB2) fresh_process = Ret 3 w' /\
    3 = Z.of_nat (length (cuda_pages w')).
Proof.
  eexists. split; [vm_compute; reflexivity|].
  edestruct (init_then_reserve (sim_driver never) three_pages (fun _ => false)
                               (fun _ _ => ret 0) (fun _ _ _ => ret 0) 0 MiB2 2 (64 * MiB2)
                               fresh_process 3)
    as (r1 & r2 & r3 & es & _ & _ & _ & _ & _ & Hn & _);
    [reflexivity|vm_compute; reflexivity|].
  exact Hn.
Defined.

(** ** Further properties of [do_cuda_kvcache_cleanup] *)

Lemma created_no_create es :
  Forall (fun c => is_create c = false) (calls_of es) -> created es = [].
Proof.
  induction es as [|e es IH]; [done|].
  destruct e as [c r| | | |]; simpl; try exact IH.
  intros Hall. apply Forall_cons in Hall as [Hc Hall].
  destruct c; try discriminate; by apply IH.
Qed.

Lemma release_targets_app cs1 cs2 :
  release_targets (cs1 ++ cs2) = release_targets cs1 ++ release_targets cs2.
Proof. apply omap_app. Qed.

Lemma unmap_targets_app cs1 cs2 :
  unmap_targets (cs1 ++ cs2) = unmap_targets cs1 ++ unmap_targets cs2.
Proof. apply omap_app. Qed.

Lemma release_targets_none cs :
  Forall (fun c => is_release c = false) cs -> release_targets cs = [].
Proof.
  induction 1 as [|c cs Hc _ IH]; [done|]. by destruct c.
Qed.

Lemma unmap_targets_none cs :
  Forall (fun c => is_unmap c = false) cs -> unmap_targets cs = [].
Proof.
  induction 1 as [|c cs Hc _ IH]; [done|]. by destruct c.
Qed.

Lemma release_targets_release_calls w : release_targets (release_calls w) = cuda_pages w.
Proof.
  unfold release_calls. induction (cuda_pages w) as [|h l IH]; [done|].
  csimpl. by rewrite IH.
Qed.

(** A list of calls of one kind holds no call of another kind. *)
Lemma kind_disjoint (p q : call -> bool) cs :
  (forall c, p c = true -> q c = false) ->
  forallb p cs = true -> Forall (fun c => q c = false) cs.
Proof.
  intros Hpq Hall. apply Forall_forall. intros c Hin.
  apply Hpq. rewrite forallb_forall in Hall. apply Hall. by apply list_elem_of_In.
Qed.

(** What the calls of a cleanup unmap, release and create. *)
Lemma cleanup_calls_targets w :
  let cs := unmap_calls w ++ free_calls w ++ release_calls w in
  release_targets cs = cuda_pages w /\
  unmap_targets cs = unmap_targets (unmap_calls w) /\
  Forall (fun c => is_create c = false) cs /\
  Forall (fun c => is_bind c = false) cs.
Proof.
  pose proof (unmap_calls_kind w) as Hu.
  pose proof (free_calls_kind w) as Hf.
  pose proof (release_calls_kind w) as Hr.
  simpl. rewrite !release_targets_app, !unmap_targets_app.
  rewrite (release_targets_none (unmap_calls w)), (release_targets_none (free_calls w)),
    (unmap_targets_none (free_calls w)), (unmap_targets_none (release_calls w)),
    release_targets_release_calls, app_nil_r;
    [|eapply kind_disjoint; [|eassumption]; by intros []..].
  split; [done|]. split; [done|].
  split; rewrite !Forall_app; repeat split;
    (eapply kind_disjoint; [|eassumption]; by intros []).
Qed.

(** The whole cleanup in one history: it returns, the page map is empty
    afterwards and nothing else has changed, and its driver calls are the
    expected ones. *)
Lemma do_cuda_kvcache_cleanup_calls driver w :
  (length (k_tensors w) <= length (v_tensors w))%nat ->
  exists es,
    do_cuda_kvcache_cleanup driver w = Ret tt (emits es (set_cuda_pagemap ∅ w)) /\
    calls_of es = unmap_calls w ++ free_calls w ++ release_calls w /\
    records_of es = [].
Proof.
  intros Hlen.
  destruct (do_cuda_kvcache_cleanup_sweeps driver w Hlen)
    as (t1 & t2 & t3 & Hrun & (Hc1 & _ & Hh1) & (Hc2 & _ & Hh2) & (Hc3 & _ & Hh3)).
  exists (t1 ++ [EvClear] ++ t2 ++ t3). split; [done|].
  rewrite !calls_of_app, !records_of_app, Hc1, Hc2, Hc3. split; [done|].
  assert (Hrec : forall t, Forall (fun e => housekeeping e = true) t -> records_of t = []).
  { induction 1 as [|e t He _ IH]; [done|]. by destruct e. }
  by rewrite (Hrec t1), (Hrec t2), (Hrec t3).
Qed.

(** X8. The cleanup empties the page map but leaves the pool and the
    tensors as they are, so it is not idempotent: a second cleanup unmaps
    nothing, and frees every virtual range and releases every handle of the
    pool a second time. *)
Theorem cleanup_twice driver w :
  (length (k_tensors w) <= length (v_tensors w))%nat ->
  exists es1 es2 w2,
    (do_cuda_kvcache_cleanup driver ;;; do_cuda_kvcache_cleanup driver) w = Ret tt w2 /\
    trace w2 = trace w ++ es1 ++ es2 /\
    calls_of es1 = unmap_calls w ++ free_calls w ++ release_calls w /\
    calls_of es2 = free_calls w ++ release_calls w /\
    released es2 = cuda_pages w /\
    cuda_pages w2 = cuda_pages w /\ cuda_pagemap w2 = ∅.
Proof.
  intros Hlen.
  destruct (do_cuda_kvcache_cleanup_calls driver w Hlen) as (es1 & Hrun1 & Hc1 & _).
  destruct (do_cuda_kvcache_cleanup_calls driver (emits es1 (set_cuda_pagemap ∅ w)) Hlen)
    as (es2 & Hrun2 & Hc2 & _).
  exists es1, es2. eexists. unfold bind. rewrite Hrun1, Hrun2.
  split; [reflexivity|]. simpl. split; [by rewrite app_assoc|]. split; [done|].
  assert (Hc2' : calls_of es2 = free_calls w ++ release_calls w).
  { rewrite Hc2. unfold unmap_calls. simpl. by rewrite map_to_list_empty. }
  split; [done|]. split; [|done].
  unfold released. rewrite Hc2', release_targets_app.
  rewrite (release_targets_none (free_calls w)), release_targets_release_calls; [done|].
  eapply kind_disjoint; [|apply free_calls_kind]. by intros [].
Qed.

Lemma cleanup_twice_witness :
  exists es1 es2 w2,
    (do_cuda_kvcache_cleanup (sim_driver never) ;;;
     do_cuda_kvcache_cleanup (sim_driver never)) session2 = Ret tt w2 /\
    trace w2 = trace session2 ++ es1 ++ es2 /\
    released es2 = [101; 102].
Proof.
  destruct (cleanup_twice (sim_driver never) session2)
    as (es1 & es2 & w2 & Hrun & Htrace & _ & _ & Hrel & _); [simpl; lia|].
  exists es1, es2, w2. split; [exact Hrun|]. split; [exact Htrace|exact Hrel].
Defined.

(** X9. A reservation followed by the cleanup.  When the reservation has
    returned, the cleanup hands every handle of the pool to [cuMemRelease]
    exactly once: first the handles that were in the pool before, then the
    ones the reservation has created, in the order of their creation.  The
    reservation releases nothing and the cleanup creates nothing.  The pool
    itself is not emptied: it still names the released handles. *)
Theorem reserve_then_cleanup driver get_num_phys_blocks num_layers free_memory page_size
        w w' :
  (length (k_tensors w) <= length (v_tensors w))%nat ->
  (reserve_cuda_pages driver get_num_phys_blocks num_layers free_memory page_size ;;;
   do_cuda_kvcache_cleanup driver) w = Ret tt w' ->
  exists es1 es2,
    trace w' = trace w ++ es1 ++ es2 /\
    released es1 = [] /\ created es2 = [] /\
    released es2 = cuda_pages w ++ created es1 /\
    cuda_pages w' = cuda_pages w ++ created es1.
Proof.
  intros Hlen Hret. unfold bind in Hret.
  pose proof (reserve_cuda_pages_outcome driver get_num_phys_blocks num_layers free_memory
                                         page_size w) as Hout.
  cbv zeta in Hout.
  destruct (reserve_cuda_pages driver get_num_phys_blocks num_layers free_memory
                               page_size w) as [n w1|s w1|]; [|done..].
  destruct Hout as (es & -> & _ & Hgood & _).
  destruct (created_good (cuMemCreate page_size (prop w) 0) es eq_refl Hgood) as [_ Hc].
  match type of Hret with
  | do_cuda_kvcache_cleanup _ ?w1 = _ =>
      destruct (do_cuda_kvcache_cleanup_calls driver w1 Hlen) as (es2 & Hrun & Hc2 & _);
      destruct (cleanup_calls_targets w1) as (Hrel & _ & Hcreate & _)
  end.
  rewrite Hrun in Hret. injection Hret as <-.
  exists (EvLog (get_num_phys_blocks num_layers free_memory page_size) page_size :: es), es2.
  cbv zeta in Hrel, Hcreate. rewrite <- Hc2 in Hrel, Hcreate. simpl in *.
  split; [by rewrite <- app_assoc|].
  split.
  { unfold released.
    change (calls_of (EvLog (get_num_phys_blocks num_layers free_memory page_size)
                            page_size :: es)) with (calls_of es).
    rewrite Hc. apply release_targets_none, Forall_replicate. done. }
  split; [by apply created_no_create|]. done.
Qed.

Lemma reserve_then_cleanup_witness :
  exists w' es1 es2,
    (reserve_cuda_pages (sim_driver never) three_pages 2 (64 * MiB2) MiB2 ;;;
     do_cuda_kvcache_cleanup (sim_driver never)) session0 = Ret tt w' /\
    released es2 = cuda_pages session0 ++ created es1 /\
    cuda_pages w' = [101; 102; 103].
Proof.
  edestruct (reserve_then_cleanup (sim_driver never) three_pages 2 (64 * MiB2) MiB2 session0)
    as (es1 & es2 & _ & _ & _ & Hrel & _); [simpl; lia|vm_compute; reflexivity|].
  eexists _, es1, es2. split; [vm_compute; reflexivity|].
  split; [exact Hrel|reflexivity].
Defined.

(** ** Binding and unmapping *)

(** Calls run one after the other, with any driver: when all of them have
    returned, each has passed the checks, the ones whose key had no entry
    have bound and recorded, in order, and the others have done nothing. *)
Lemma serial_Ret_inv driver l w w1 :
  serial driver l w = Ret tt w1 ->
  let bound := binders (cuda_pagemap w) l in
  (forall a, a ∈ l -> valid_call w a) /\
  exists es,
    w1 = emits es (set_cuda_pagemap (recorded (cuda_pagemap w) bound) w) /\
    calls_of es = flat_map (bind_calls w) bound /\
    records_of es = entry_of <$> bound.
Proof.
  revert w. induction l as [|a l IH]; intros w Hret; cbv zeta.
  - injection Hret as <-. split; [by intros a Ha; apply elem_of_nil in Ha|].
    exists []. rewrite emits_nil. split; [by destruct w|done].
  - unfold serial in Hret. simpl in Hret. unfold bind in Hret.
    destruct (call_of driver a w) as [[] wa|s wa|] eqn:Hcall; [|done..].
    unfold call_of in Hcall.
    destruct (map_cuda_pages_Ret_preconditions _ _ _ _ _ _ _ _ _ _ Hcall) as [_ Hpre].
    cbn [binders].
    destruct (cuda_pagemap w !! key_of a) as [p|] eqn:Hk;
      destruct (map_cuda_pages_Ret_inv _ _ _ _ _ _ _ _ _ _ Hcall)
        as [[[p' Hin] ->] | (Hnone & es1 & -> & Hcalls1 & Hrecs1)].
    + apply IH in Hret as (Hvalid & es & -> & Hcalls & Hrecs).
      split; [|by exists es].
      intros b [->|Hb]%elem_of_cons; [done|by apply Hvalid].
    + exfalso. cut (Some p = None); [discriminate|]. rewrite <- Hk. exact Hnone.
    + exfalso. cut (None = Some p'); [discriminate|]. rewrite <- Hk. exact Hin.
    + apply IH in Hret as (Hvalid & es2 & -> & Hcalls2 & Hrecs2).
      split.
      { intros b [->|Hb]%elem_of_cons; [done|]. apply (Hvalid b Hb). }
      exists (es1 ++ es2). split; [|split].
      * simpl. by rewrite set_cuda_pagemap_emits, emits_emits.
      * rewrite calls_of_app, Hcalls1, Hcalls2. done.
      * rewrite records_of_app, Hrecs1, Hrecs2. done.
Qed.

Lemma binders_subseteq m l a : a ∈ binders m l -> a ∈ l.
Proof.
  revert m. induction l as [|b l IH]; intros m; simpl; [done|].
  destruct (m !! key_of b).
  - intros Ha. right. by eapply IH.
  - intros [->|Ha]%elem_of_cons; [by left|]. right. by eapply IH.
Qed.

(** The entries of the page map after the calls of [l] have recorded
    theirs. *)
Lemma map_to_list_recorded m l :
  NoDup (key_of <$> l) -> (forall a, a ∈ l -> m !! key_of a = None) ->
  map_to_list (recorded m l) ≡ₚ (entry_of <$> l) ++ map_to_list m.
Proof.
  revert m. induction l as [|a l IH]; intros m Hnd Hnew; [done|].
  rewrite fmap_cons in Hnd. apply NoDup_cons in Hnd as [Hnotin Hnd].
  change (recorded m (a :: l)) with (recorded (<[key_of a := pages_of a]> m) l).
  rewrite IH; [|done|].
  - rewrite map_to_list_insert by (apply Hnew; by left).
    csimpl. by rewrite <- Permutation_middle.
  - intros b Hb. rewrite lookup_insert_ne; [apply Hnew; by right|].
    intros Heq. apply Hnotin. rewrite Heq. by apply list_elem_of_fmap_2.
Qed.

(** The unmap loop undoes the bind of a call that was addressed at the
    tensors of its layer. *)
Lemma entry_unmap_calls_addressed w a :
  addressed_at_tensors w a -> valid_call w a ->
  entry_unmap_calls w (entry_of a) = unbind_calls w a.
Proof.
  intros (Hint & Hlo & Hk & Hv) (_ & _ & [Hkp Hvp] & _).
  unfold entry_unmap_calls, entry_of, key_of. simpl.
  rewrite to_u64_int_nonneg by done. rewrite Hk, Hv.
  destruct (Z.eqb_spec (arg_kcache_ptr a) 0); [done|].
  destruct (Z.eqb_spec (arg_vcache_ptr a) 0); [done|].
  reflexivity.
Qed.

Lemma unmap_targets_entries w l :
  (forall a, a ∈ l -> addressed_at_tensors w a /\ valid_call w a) ->
  unmap_targets (flat_map (entry_unmap_calls w) (entry_of <$> l)) = flat_map slots_of l.
Proof.
  induction l as [|a l IH]; intros Hall; [done|].
  destruct (Hall a) as [Haddr Hvalid]; [by left|].
  rewrite fmap_cons. cbn [flat_map].
  rewrite unmap_targets_app, IH by (intros b Hb; apply Hall; by right).
  by rewrite entry_unmap_calls_addressed.
Qed.

Lemma unmap_targets_bind_calls w l : unmap_targets (flat_map (bind_calls w) l) = [].
Proof. induction l as [|a l IH]; [done|]. exact IH. Qed.

(** X10. Binding and unmapping are a round trip.  Calls of [map_cuda_pages]
    run one after the other and return, each addressed at the key and value
    tensor of its layer; then the cleanup runs.  The calls unmap nothing.
    The cleanup unmaps exactly the two slots of every call that has bound,
    once each, together with the slots of the entries that were recorded
    before the calls, and leaves the page map empty. *)
Theorem bind_unmap_round_trip driver l w w' :
  (length (k_tensors w) <= length (v_tensors w))%nat ->
  (forall a, a ∈ l -> addressed_at_tensors w a) ->
  (serial driver l ;;; do_cuda_kvcache_cleanup driver) w = Ret tt w' ->
  let bound := binders (cuda_pagemap w) l in
  exists es1 es2,
    trace w' = trace w ++ es1 ++ es2 /\
    bound_slots es1 = flat_map slots_of bound /\
    unmapped es1 = [] /\
    unmapped es2 ≡ₚ flat_map slots_of bound ++ unmap_targets (unmap_calls w) /\
    cuda_pagemap w' = ∅.
Proof.
  intros Hlen Haddr Hret bound. unfold bind in Hret.
  destruct (serial driver l w) as [[] w1|s w1|] eqn:Hserial; [|done..].
  apply serial_Ret_inv in Hserial as (Hvalid & es1 & -> & Hcalls1 & _).
  fold bound in Hcalls1.
  match type of Hret with
  | do_cuda_kvcache_cleanup _ ?w1 = _ =>
      destruct (do_cuda_kvcache_cleanup_calls driver w1 Hlen) as (es2 & Hrun & Hc2 & _);
      destruct (cleanup_calls_targets w1) as (_ & Hun & _)
  end.
  rewrite Hrun in Hret. injection Hret as <-.
  exists es1, es2. cbv zeta in Hun. rewrite <- Hc2 in Hun.
  split; [simpl; by rewrite <- app_assoc|].
  split; [unfold bound_slots; by rewrite Hcalls1, call_slots_bind_calls|].
  split; [unfold unmapped; by rewrite Hcalls1, unmap_targets_bind_calls|].
  split; [|done].
  unfold unmapped. rewrite Hun. unfold unmap_calls. simpl.
  destruct (binders_distinct (cuda_pagemap w) l) as [Hnd Hnew].
  change (unmap_targets
            (flat_map (entry_unmap_calls w)
                      (map_to_list (recorded (cuda_pagemap w) bound)))
          ≡ₚ flat_map slots_of bound ++ unmap_targets (unmap_calls w)).
  pose proof (map_to_list_recorded (cuda_pagemap w) bound Hnd Hnew) as Hperm.
  apply (Permutation_flat_map (entry_unmap_calls w)) in Hperm.
  apply (omap_Permutation
           (fun c => match c with cuMemUnmap ptr _ => Some ptr | _ => None end)) in Hperm.
  etrans; [exact Hperm|].
  rewrite flat_map_app, omap_app.
  change (unmap_targets (flat_map (entry_unmap_calls w) (entry_of <$> bound)) ++
          unmap_targets (unmap_calls w)
          ≡ₚ flat_map slots_of bound ++ unmap_targets (unmap_calls w)).
  rewrite (unmap_targets_entries w bound); [done|].
  intros a Ha%binders_subseteq. split; [by apply Haddr|by apply Hvalid].
Qed.

Lemma bind_unmap_round_trip_witness :
  exists w' es1 es2,
    (serial (sim_driver never) [caller_a; caller_b; caller_a] ;;;
     do_cuda_kvcache_cleanup (sim_driver never)) session0 = Ret tt w' /\
    trace w' = trace session0 ++ es1 ++ es2 /\
    bound_slots es1 = [4096; 12288; 8192 + MiB2; 16384 + MiB2] /\
    unmapped es2 ≡ₚ [4096; 12288; 8192 + MiB2; 16384 + MiB2].
Proof.
  edestruct (bind_unmap_round_trip (sim_driver never) [caller_a; caller_b; caller_a]
                                   session0)
    as (es1 & es2 & Htrace & Hbound & _ & Hun & _);
    [simpl; lia| |vm_compute; reflexivity|].
  - intros a Ha.
    repeat (apply elem_of_cons in Ha as [->|Ha]; [by vm_compute|]).
    by apply elem_of_nil in Ha.
  - eexists _, es1, es2. split; [vm_compute; reflexivity|].
    split; [exact Htrace|]. split; [exact Hbound|].
    rewrite Hun. vm_compute. reflexivity.
Defined.

(** The layer index of an entry is compared with the number of tensors as
    an unsigned value: an index that is negative, or not below the number
    of tensors, selects no tensor. *)
Lemma stray_layer_lookup (l : list Z) layer_idx :
  is_int layer_idx ->
  Z.of_nat (length l) < 2 ^ 31 ->
  layer_idx < 0 \/ Z.of_nat (length l) <= layer_idx ->
  l !! Z.to_nat (to_u64 layer_idx) = None.
Proof.
  unfold is_int. intros [Hlo Hhi] Hlen Hstray. apply lookup_ge_None_2.
  assert (H64 : 2 ^ 64 = 2 ^ 31 * 2 ^ 33) by reflexivity.
  assert (H31 : 0 < 2 ^ 31) by reflexivity.
  assert (H33 : 2 <= 2 ^ 33) by (vm_compute; discriminate).
  destruct Hstray as [Hneg|Hge].
  - assert (Hu : to_u64 layer_idx = layer_idx + 2 ^ 64).
    { unfold to_u64, u64_mod. symmetry. apply (Z.mod_unique _ _ (-1)); nia. }
    rewrite Hu. nia.
  - rewrite to_u64_int_nonneg; [lia|done|lia].
Qed.

(** X11. [map_cuda_pages] does not look at the layer index, and the cleanup
    compares it with the number of tensors as an unsigned value.  So a call
    whose layer index is negative, or not below the number of tensors, binds
    its two slots and records them, and the cleanup that follows drops the
    entry without unmapping anything: the two slots stay bound while the
    page map no longer knows them. *)
Theorem stray_layer_never_unmapped driver a w w' :
  is_int (arg_layer_idx a) ->
  Z.of_nat (length (k_tensors w)) < 2 ^ 31 ->
  arg_layer_idx a < 0 \/ Z.of_nat (length (k_tensors w)) <= arg_layer_idx a ->
  (length (k_tensors w) <= length (v_tensors w))%nat ->
  cuda_pagemap w = ∅ ->
  (call_of driver a ;;; do_cuda_kvcache_cleanup driver) w = Ret tt w' ->
  exists es1 es2,
    trace w' = trace w ++ es1 ++ es2 /\
    bound_slots es1 = slots_of a /\
    records_of es1 = [entry_of a] /\
    unmapped es2 = [] /\
    cuda_pagemap w' = ∅.
Proof.
  intros Hint Hsize Hstray Hlen Hempty Hret. unfold bind in Hret.
  destruct (call_of driver a w) as [[] w1|s w1|] eqn:Hcall; [|done..].
  unfold call_of in Hcall.
  destruct (map_cuda_pages_Ret_inv _ _ _ _ _ _ _ _ _ _ Hcall)
    as [[[p Hin] _] | (_ & es1 & -> & Hcalls1 & Hrecs1)].
  { rewrite Hempty in Hin. by rewrite lookup_empty in Hin. }
  match type of Hret with
  | do_cuda_kvcache_cleanup _ ?w1 = _ =>
      destruct (do_cuda_kvcache_cleanup_calls driver w1 Hlen) as (es2 & Hrun & Hc2 & _);
      destruct (cleanup_calls_targets w1) as (_ & Hun & _)
  end.
  rewrite Hrun in Hret. injection Hret as <-.
  exists es1, es2. cbv zeta in Hun. rewrite <- Hc2 in Hun.
  split; [simpl; by rewrite <- app_assoc|].
  split; [unfold bound_slots; by rewrite Hcalls1|].
  split; [done|]. split; [|done].
  unfold unmapped. rewrite Hun. unfold unmap_calls. simpl.
  rewrite Hempty, insert_empty, map_to_list_singleton. simpl.
  by rewrite (stray_layer_lookup (k_tensors w)).
Qed.

Lemma stray_layer_never_unmapped_witness :
  exists w' es1 es2,
    (call_of (sim_driver never) (mkArgs 7 (-1) 0 4096 12288 11 12) ;;;
     do_cuda_kvcache_cleanup (sim_driver never)) session0 = Ret tt w' /\
    trace w' = trace session0 ++ es1 ++ es2 /\
    bound_slots es1 = [4096; 12288] /\
    unmapped es2 = [].
Proof.
  edestruct (stray_layer_never_unmapped (sim_driver never)
                                        (mkArgs 7 (-1) 0 4096 12288 11 12) session0)
    as (es1 & es2 & Htrace & Hbound & _ & Hun & _);
    [by vm_compute|reflexivity|left; reflexivity|simpl; lia|reflexivity
    |vm_compute; reflexivity|].
  eexists _, es1, es2. split; [vm_compute; reflexivity|].
  split; [exact Htrace|]. split; [exact Hbound|exact Hun].
Defined.

(** X12. The cleanup resets the duplicate detection of [map_cuda_pages].  A
    call, the cleanup, and the same call again: when all three have
    returned, the second call has found no entry for its key and has bound
    again, with all four driver calls, and its entry is the only one in the
    page map.  A key that was recorded before the cleanup is bound a second
    time after it. *)
Theorem cleanup_then_map_again driver a w w' :
  (length (k_tensors w) <= length (v_tensors w))%nat ->
  (call_of driver a ;;; do_cuda_kvcache_cleanup driver ;;; call_of driver a) w
    = Ret tt w' ->
  exists es1 es2 es3,
    trace w' = trace w ++ es1 ++ es2 ++ es3 /\
    (cuda_pagemap w !! key_of a = None -> calls_of es1 = bind_calls w a) /\
    Forall (fun c => is_bind c = false) (calls_of es2) /\
    calls_of es3 = bind_calls w a /\
    records_of es3 = [entry_of a] /\
    cuda_pagemap w' = {[ key_of a := pages_of a ]}.
Proof.
  intros Hlen Hret. unfold bind in Hret.
  destruct (call_of driver a w) as [[] w1|s w1|] eqn:Hcall; [|done..].
  unfold call_of in Hcall, Hret.
  assert (Hfirst : exists es1 m,
             w1 = emits es1 (set_cuda_pagemap m w) /\
             (cuda_pagemap w !! key_of a = None -> calls_of es1 = bind_calls w a)).
  { destruct (map_cuda_pages_Ret_inv _ _ _ _ _ _ _ _ _ _ Hcall)
      as [[[p Hin] ->] | (_ & es1 & -> & Hcalls1 & _)].
    - exists [], (cuda_pagemap w). rewrite emits_nil. split; [by destruct w|].
      intros Hnone. exfalso. cut (Some p = None); [discriminate|].
      rewrite <- Hnone. symmetry. exact Hin.
    - by eexists es1, _. }
  destruct Hfirst as (es1 & m & -> & Hes1).
  match type of Hret with
  | match do_cuda_kvcache_cleanup _ ?w1 with _ => _ end = _ =>
      destruct (do_cuda_kvcache_cleanup_calls driver w1 Hlen) as (es2 & Hrun & Hc2 & _);
      destruct (cleanup_calls_targets w1) as (_ & _ & _ & Hnobind)
  end.
  rewrite Hrun in Hret. cbv zeta in Hnobind. rewrite <- Hc2 in Hnobind.
  destruct (map_cuda_pages_Ret_inv _ _ _ _ _ _ _ _ _ _ Hret)
    as [[[p Hin] _] | (_ & es3 & -> & Hcalls3 & Hrecs3)].
  { simpl in Hin. by rewrite lookup_empty in Hin. }
  exists es1, es2, es3. simpl. rewrite insert_empty.
  split; [by rewrite <- !app_assoc|]. done.
Qed.

Lemma cleanup_then_map_again_witness :
  exists w' es1 es2 es3,
    (call_of (sim_driver never) caller_a ;;; do_cuda_kvcache_cleanup (sim_driver never) ;;;
     call_of (sim_driver never) caller_a) session0 = Ret tt w' /\
    trace w' = trace session0 ++ es1 ++ es2 ++ es3 /\
    calls_of es1 = bind_calls session0 caller_a /\
    calls_of es3 = bind_calls session0 caller_a.
Proof.
  edestruct (cleanup_then_map_again (sim_driver never) caller_a session0)
    as (es1 & es2 & es3 & Htrace & Hes1 & _ & Hes3 & _);
    [simpl; lia|vm_compute; reflexivity|].
  eexists _, es1, es2, es3. split; [vm_compute; reflexivity|].
  split; [exact Htrace|]. split; [exact (Hes1 eq_refl)|exact Hes3].
Defined.

(** ** Further properties of concurrent callers *)

(** X13. Concurrent callers of [map_cuda_pages] are serialisable, whatever
    the driver answers and whatever the arguments are.  Take any
    interleaving of the threads.  While the process runs, at most one thread
    is inside the function, none is while the mutex is free, and some thread
    can step unless all are back; when all are back, the shared state is the
    one that the calls leave when run one after the other in some order.
    When the process has ended in a thread (a failed check or a refused
    driver call), its exit status and its final state, diagnostics
    included, are those of some of the calls run one after the other,
    followed by the call that ends the process; the same holds for
    undefined behaviour. *)
Theorem interleavings_serializable driver w0 calls schedule m :
  run driver schedule (Running (spawn w0 calls)) = Some m ->
  match m with
  | Running c =>
      (forall i j ti tj,
         threads c !! i = Some ti -> threads c !! j = Some tj ->
         is_holding ti.2 = true -> is_holding tj.2 = true -> i = j) /\
      (memory_mapping_mutex c = false -> no_holder (threads c)) /\
      (all_finished c \/ exists tid m', step driver tid c = Some m') /\
      (all_finished c ->
       exists order, order ≡ₚ calls /\ serial driver order w0 = Ret tt (shared c))
  | Exited status w' =>
      exists returned a rest,
        returned ++ a :: rest ≡ₚ calls /\
        (serial driver returned ;;; call_of driver a) w0 = Exit status w'
  | Broken =>
      exists returned a rest,
        returned ++ a :: rest ≡ₚ calls /\
        (serial driver returned ;;; call_of driver a) w0 = Undefined
  end.
Proof.
  intros Hrun.
  pose proof (run_serial_inv driver w0 calls schedule _ _
                             (serial_inv_spawn driver w0 calls) Hrun) as Hinv.
  destruct m as [c|status w'|].
  - destruct (serial_inv_exclusion driver w0 calls c Hinv) as [Hex Hfree].
    split; [exact Hex|]. split; [exact Hfree|].
    split; [by eapply serial_inv_progress|].
    by apply serial_inv_finished.
  - destruct Hinv as (returned & a & rest & w_mid & Hperm & Hser & Hcall).
    exists returned, a, rest. split; [done|].
    by rewrite (bind_Ret _ _ _ _ _ Hser).
  - destruct Hinv as (returned & a & rest & w_mid & Hperm & Hser & Hcall).
    exists returned, a, rest. split; [done|].
    by rewrite (bind_Ret _ _ _ _ _ Hser).
Qed.

Lemma interleavings_serializable_witness :
  exists w' returned a rest,
    run strict_driver schedule_ab_map (Running (spawn session0 [caller_a; caller_c]))
      = Some (Exited 1 w') /\
    returned ++ a :: rest ≡ₚ [caller_a; caller_c] /\
    (serial strict_driver returned ;;; call_of strict_driver a) session0 = Exit 1 w'.
Proof.
  destruct (run strict_driver schedule_ab_map (Running (spawn session0 [caller_a; caller_c])))
    as [m|] eqn:Hrun; [|vm_compute in Hrun; discriminate].
  pose proof (interleavings_serializable strict_driver session0 [caller_a; caller_c]
                                         schedule_ab_map m Hrun) as Hser.
  vm_compute in Hrun. injection Hrun as <-.
  destruct Hser as (returned & a & rest & Hperm & Hexit).
  eexists _, returned, a, rest. split; [reflexivity|]. split; [exact Hperm|exact Hexit].
Defined.




(** Replacing one thread changes the budget by the difference of the steps
    the thread has left. *)
Lemma budget_insert ts tid t t' :
  ts !! tid = Some t ->
  (budget (<[tid := t']> ts) + steps_left t = budget ts + steps_left t')%nat.
Proof.
  unfold budget. revert tid. induction ts as [|x ts IH]; intros [|tid] Hl; try done.
  - injection Hl as ->. simpl. lia.
  - simpl in *. specialize (IH tid Hl). lia.
Qed.

(** Every step uses up budget: a thread takes the lock, runs one statement
    or gives the lock back, and never goes back to an earlier statement. *)
Lemma step_fuel driver tid c m :
  step driver tid c = Some m -> (fuel m < budget (threads c))%nat.
Proof.
  unfold step. destruct (threads c !! tid) as [[a s]|] eqn:Hl; [|done].
  destruct s as [|[|s todo]|].
  - destruct (memory_mapping_mutex c); [done|]. intros [= <-]. simpl.
    pose proof (budget_insert (threads c) tid (a, Waiting) (a, Holding body) Hl) as Hb.
    simpl in Hb. unfold steps_left in Hb. simpl in Hb. lia.
  - intros [= <-]. simpl.
    pose proof (budget_insert (threads c) tid (a, Holding []) (a, Finished) Hl) as Hb.
    unfold steps_left in Hb. simpl in Hb. lia.
  - destruct (exec_stmt driver a s (shared c)) as [continue w'|status w'|];
      intros [= <-]; simpl.
    + pose proof (budget_insert (threads c) tid (a, Holding (s :: todo))
                                (a, Holding (if continue then todo else [])) Hl) as Hb.
      unfold steps_left in Hb. simpl in Hb. destruct continue; simpl in Hb; lia.
    + pose proof (budget_insert (threads c) tid (a, Holding (s :: todo))
                                (a, Finished) Hl) as Hb.
      unfold steps_left in Hb. simpl in Hb. lia.
    + pose proof (budget_insert (threads c) tid (a, Holding (s :: todo))
                                (a, Finished) Hl) as Hb.
      unfold steps_left in Hb. simpl in Hb. lia.
  - done.
Qed.

Lemma run_fuel driver schedule m m' :
  run driver schedule m = Some m' -> (length schedule + fuel m' <= fuel m)%nat.
Proof.
  revert m. induction schedule as [|tid schedule IH]; intros m Hrun.
  - injection Hrun as <-. simpl. lia.
  - simpl in Hrun. destruct m as [c| |]; [|done..].
    destruct (step driver tid c) as [m1|] eqn:Hstep; [|done].
    apply IH in Hrun. apply step_fuel in Hstep. simpl in *. lia.
Qed.

Lemma budget_spawn calls :
  budget ((fun a => (a, Waiting)) <$> calls) = (9 * length calls)%nat.
Proof.
  unfold budget. induction calls as [|a l IH]; [done|].
  rewrite fmap_cons. cbn [sum_list_with length]. rewrite IH.
  unfold steps_left. simpl. lia.
Qed.

(** X15. No interleaving of concurrent callers of [map_cuda_pages] goes on
    for ever, whatever the driver answers: a thread takes the lock once,
    runs each statement of the body at most once and gives the lock back
    once, so an interleaving of [n] threads has at most [9 * n] steps, and
    the steps that are left to the threads get fewer with every step. *)
Theorem interleavings_bounded driver w0 calls schedule m :
  run driver schedule (Running (spawn w0 calls)) = Some m ->
  (length schedule + fuel m <= 9 * length calls)%nat.
Proof.
  intros Hrun. apply run_fuel in Hrun. simpl in Hrun.
  by rewrite budget_spawn in Hrun.
Qed.

Lemma interleavings_bounded_witness :
  (length schedule_ab + 0 <= 9 * 2)%nat.
Proof.
  destruct (run (sim_driver never) schedule_ab (Running (spawn session0 [caller_a; caller_b])))
    as [m|] eqn:Hrun; [|vm_compute in Hrun; discriminate].
  pose proof (interleavings_bounded (sim_driver never) session0 [caller_a; caller_b]
                                    schedule_ab m Hrun) as Hbound.
  vm_compute in Hrun. injection Hrun as <-. exact Hbound.
Defined.
